(** * Network discovery engine (src/src/network/discovery.c)

    A shallow embedding of the discovery module: the host registry
    ([discovered_hosts] / [discovered_count]), the address validator, the
    reachability prober, the subnet enumerator, the SNMP router queries, the
    router graph walk of [discover_automatic] and the passive collectors.
    The registry accessors, the core functions of src/src/utils/core.c and
    the menu loop of src/src/main.c follow the discovery module.

    C [int] values are [Z] with the 32-bit wrap-around written out where the
    arithmetic can leave the range; C strings are [string]; the text that an
    external command writes to its pipe is a [string] consumed by [fgets];
    the global registry, the commands handed to [popen] and the progress
    lines written to stdout are threaded through an explicit state. *)

From Stdlib Require Import ZArith List String Ascii Bool Lia QArith Qround Lqa.
Import ListNotations.

Local Open Scope string_scope.
Local Open Scope Z_scope.

(** ** Constants of netmon.h and discovery.c *)

Definition MAX_IP_LEN : nat := 16.
Definition MAX_DISCOVERED_HOSTS : nat := 1024.
Definition MAX_HOPS : nat := 30.

(** ** The C library on strings *)

Module CStr.

Definition is_digit (c : ascii) : bool :=
  negb ((c <? "0")%char || ("9" <? c)%char).

(** [isspace] in the C locale. *)
Definition is_space (c : ascii) : bool :=
  let n := N_of_ascii c in
  (n =? 32)%N || ((9 <=? n)%N && (n <=? 13)%N).

(** [strcmp (a, b) == 0]. *)
Definition streq (a b : string) : bool := String.eqb a b.

(** The first [n] characters of [s]. *)
Fixpoint take (n : nat) (s : string) : string :=
  match n, s with
  | O, _ => ""
  | _, "" => ""
  | S n', String c s' => String c (take n' s')
  end.

Fixpoint drop (n : nat) (s : string) : string :=
  match n, s with
  | O, _ => s
  | _, "" => ""
  | S n', String _ s' => drop n' s'
  end.

(** [strncpy (dst, src, size - 1); dst[size - 1] = '\0';] and the result
    of [snprintf (dst, size, ...)] on the text it would have written. *)
Definition bounded (size : nat) (s : string) : string := take (size - 1) s.

(** [strncmp (s, p, strlen p) == 0]. *)
Definition has_prefix (p s : string) : bool := String.prefix p s.

(** [strstr (s, needle)]: the suffix of [s] that starts at the first
    occurrence of [needle]. *)
Fixpoint strstr (s needle : string) : option string :=
  if has_prefix needle s then Some s
  else match s with
       | "" => None
       | String _ s' => strstr s' needle
       end.

(** [strrchr (s, c)] as a split of [s] around the last [c]: the text
    before it and the text after it. *)
Fixpoint split_last (c : ascii) (s : string) : option (string * string) :=
  match s with
  | "" => None
  | String a s' =>
      match split_last c s' with
      | Some (l, r) => Some (String a l, r)
      | None => if (a =? c)%char then Some ("", s') else None
      end
  end.

(** [while ( *p == ' ') p++;] *)
Fixpoint skip_blanks (s : string) : string :=
  match s with
  | String c s' => if (c =? " ")%char then skip_blanks s' else s
  | "" => ""
  end.

(** One call of [fgets (buf, size, fp)] on the unread text of a stream:
    the buffer it fills and the text left unread; [None] at end of file. *)
Fixpoint fgets_split (room : nat) (s : string) : string * string :=
  match room, s with
  | O, _ => ("", s)
  | _, "" => ("", "")
  | S room', String c s' =>
      if (c =? "010")%char then (String c "", s')
      else let (l, r) := fgets_split room' s' in (String c l, r)
  end.

Definition fgets (size : nat) (s : string) : option (string * string) :=
  match s with
  | "" => None
  | _ => Some (fgets_split (size - 1) s)
  end.

(** The buffers that successive calls of [fgets (buf, size, fp)] return
    until end of file.  Every call on a non-empty stream consumes at least
    one character when [size >= 2], so the length of the stream bounds the
    number of calls. *)
Fixpoint fgets_loop (fuel size : nat) (s : string) : list string :=
  match fuel with
  | O => []
  | S fuel' =>
      match fgets size s with
      | None => []
      | Some (l, r) => l :: fgets_loop fuel' size r
      end
  end.

Definition fgets_all (size : nat) (s : string) : list string :=
  fgets_loop (String.length s) size s.

End CStr.

(** ** validate_ip_string *)

(** The [for] loop of [validate_ip_string]. *)
Fixpoint ip_chars_ok (p : string) : Z :=
  match p with
  | "" => 1
  | String c p' =>
      if ((c <? "0")%char || ("9" <? c)%char) && negb (c =? ".")%char
      then 0
      else ip_chars_ok p'
  end.

(** [None] is the NULL pointer. *)
Definition validate_ip_string (ip_addr : option string) : Z :=
  match ip_addr with
  | None => 0
  | Some "" => 0
  | Some s => ip_chars_ok s
  end.

(** ** C [int] arithmetic *)

Module CInt.

Definition INT_MIN : Z := - 2 ^ 31.
Definition INT_MAX : Z := 2 ^ 31 - 1.
Definition LONG_MIN : Z := - 2 ^ 63.
Definition LONG_MAX : Z := 2 ^ 63 - 1.

(** Reduction of an integer to the 32-bit two's complement range. *)
Definition wrap (z : Z) : Z := (z + 2 ^ 31) mod 2 ^ 32 - 2 ^ 31.

Definition add (a b : Z) : Z := wrap (a + b).
Definition sub (a b : Z) : Z := wrap (a - b).

(** [a << n] on [int].  C leaves a count outside 0..31 and a result
    outside the range undefined; the definition gives what the shift
    instruction gives: the count is taken modulo 32 and the result is
    reduced to 32 bits. *)
Definition shl (a n : Z) : Z := wrap (Z.shiftl a (n mod 32)).

(** [a / b] and [a % b] of C truncate towards zero. *)
Definition div (a b : Z) : Z := Z.quot a b.
Definition rem (a b : Z) : Z := Z.rem a b.

(** [(int) x] for a [double] [x]: truncation towards zero; a value
    outside the range becomes [INT_MIN] (undefined in C). *)
Definition of_double (x : Q) : Z :=
  let t := if Qle_bool 0 x then Qfloor x else Qceiling x in
  if (INT_MIN <=? t) && (t <=? INT_MAX) then t else INT_MIN.

End CInt.

(** ** printf conversions *)

Module Printf.

Definition digit_char (d : Z) : ascii := ascii_of_N (48 + Z.to_N d).

Fixpoint dec_fuel (fuel : nat) (n : Z) (acc : string) : string :=
  match fuel with
  | O => acc
  | S fuel' =>
      let acc' := String (digit_char (n mod 10)) acc in
      if n <? 10 then acc' else dec_fuel fuel' (n / 10) acc'
  end.

(** The decimal digits of a non-negative [int] (at most ten). *)
Definition dec (n : Z) : string := dec_fuel 10 n "".

(** [%d] *)
Definition fmt_d (z : Z) : string :=
  if z <? 0 then String "-" (dec (- z)) else dec z.

(** ["%d.%d.%d.%d"] *)
Definition dotted (a b c d : Z) : string :=
  fmt_d a ++ "." ++ fmt_d b ++ "." ++ fmt_d c ++ "." ++ fmt_d d.

End Printf.

(** ** sscanf *)

Module Scanf.

Inductive directive : Type :=
| d_space                            (* white space in the format *)
| d_lit (c : ascii)                  (* an ordinary character *)
| d_int                              (* %d *)
| d_str (width : nat)                (* %<width>s *)
| d_skip_str                         (* %*s *)
| d_upto (stop : ascii) (width : nat). (* %<width>[^stop] *)

Inductive value : Type :=
| v_int (n : Z)
| v_str (s : string).

Fixpoint skip_space (s : string) : string :=
  match s with
  | String c s' => if CStr.is_space c then skip_space s' else s
  | "" => ""
  end.

(** The longest prefix of at most [width] characters that satisfy [p],
    and the rest. *)
Fixpoint span (p : ascii -> bool) (width : nat) (s : string)
  : string * string :=
  match width, s with
  | S w, String c s' =>
      if p c then let (l, r) := span p w s' in (String c l, r)
      else ("", s)
  | _, _ => ("", s)
  end.

Definition digit_val (c : ascii) : Z := Z.of_N (N_of_ascii c) - 48.

(** The digits of a [%d] field: the value read so far and the rest. *)
Fixpoint digits (acc : Z) (s : string) : Z * string :=
  match s with
  | String c s' =>
      if CStr.is_digit c then digits (10 * acc + digit_val c) s'
      else (acc, s)
  | "" => (acc, "")
  end.

(** The value [%d] stores: the C library converts the field as
    [strtol] does, which clamps to the range of [long], and the result is
    stored in an [int]. *)
Definition to_int (z : Z) : Z :=
  CInt.wrap (Z.max CInt.LONG_MIN (Z.min CInt.LONG_MAX z)).

Definition starts_with_digit (s : string) : bool :=
  match s with
  | String c _ => CStr.is_digit c
  | "" => false
  end.

Definition scan_int (s : string) : option (Z * string) :=
  let s := skip_space s in
  let '(neg, body) :=
    match s with
    | String "-" s' => (true, s')
    | String "+" s' => (false, s')
    | _ => (false, s)
    end in
  if starts_with_digit body then
    let (n, rest) := digits 0 body in
    Some (to_int (if neg then - n else n), rest)
  else None.

Definition scan_str (width : nat) (s : string) : option (string * string) :=
  match span (fun c => negb (CStr.is_space c)) width (skip_space s) with
  | ("", _) => None
  | (tok, rest) => Some (tok, rest)
  end.

Definition scan_upto (stop : ascii) (width : nat) (s : string)
  : option (string * string) :=
  match span (fun c => negb (c =? stop)%char) width s with
  | ("", _) => None
  | (tok, rest) => Some (tok, rest)
  end.

(** [sscanf (s, fmt, ...)]: the values assigned, in order.  The number
    of them is the value [sscanf] returns (the model does not tell the
    return value [EOF] from 0; the code only compares the result with a
    positive number). *)
Fixpoint sscanf (fmt : list directive) (s : string) : list value :=
  match fmt with
  | [] => []
  | d_space :: fmt' => sscanf fmt' (skip_space s)
  | d_lit c :: fmt' =>
      match s with
      | String a s' => if (a =? c)%char then sscanf fmt' s' else []
      | "" => []
      end
  | d_int :: fmt' =>
      match scan_int s with
      | Some (n, rest) => v_int n :: sscanf fmt' rest
      | None => []
      end
  | d_str w :: fmt' =>
      match scan_str w s with
      | Some (tok, rest) => v_str tok :: sscanf fmt' rest
      | None => []
      end
  | d_skip_str :: fmt' =>
      match scan_str (String.length s) s with
      | Some (_, rest) => sscanf fmt' rest
      | None => []
      end
  | d_upto stop w :: fmt' =>
      match scan_upto stop w s with
      | Some (tok, rest) => v_str tok :: sscanf fmt' rest
      | None => []
      end
  end.

(** The literal characters of a format. *)
Fixpoint lits (s : string) : list directive :=
  match s with
  | "" => []
  | String c s' => d_lit c :: lits s'
  end.

End Scanf.

Import Scanf.

(** The formats of discovery.c. *)

(** ["%d.%d.%d.%d"] *)
Definition fmt_ip : list directive :=
  [d_int; d_lit "."; d_int; d_lit "."; d_int; d_lit "."; d_int].

(** [" %d %15s"] *)
Definition fmt_hop : list directive := [d_space; d_int; d_space; d_str 15].

(** ["%15s dev %31s lladdr %31s %31s"] *)
Definition fmt_neigh : list directive :=
  [d_str 15; d_space] ++ lits "dev" ++ [d_space; d_str 31; d_space]
  ++ lits "lladdr" ++ [d_space; d_str 31; d_space; d_str 31].

(** ["%*s (%15[^)]) at %31s"] *)
Definition fmt_arp : list directive :=
  [d_skip_str; d_space; d_lit "("; d_upto ")" 15; d_lit ")"; d_space]
  ++ lits "at" ++ [d_space; d_str 31].

(** ["%15s"] *)
Definition fmt_tok : list directive := [d_str 15].

(** ["%*s %*s %*s %63s %63s"] *)
Definition fmt_conn : list directive :=
  [d_skip_str; d_space; d_skip_str; d_space; d_skip_str; d_space;
   d_str 63; d_space; d_str 63].

(** ** The environment of a run *)

(** An address of family [AF_INET] (four bytes, in the order in which
    [inet_ntop] prints them) or of another family. *)
Inductive sockaddr : Type :=
| sa_inet (b0 b1 b2 b3 : Z)
| sa_other.

(** One node of the list that [getifaddrs] returns; [None] is NULL. *)
Record ifaddrs : Type := {
  ifa_name : string;
  ifa_addr : option sockaddr;
  ifa_netmask : option (Z * Z * Z * Z)
}.

(** The contents of an [int [4]] array. *)
Definition int4 : Type := (Z * Z * Z * Z)%type.

(** What the program reads from outside.  The answer of the system to a
    command may depend on the commands issued before it. *)
Record Env : Type := {
  (** the text an external command writes to the pipe; [None] when [popen]
      returns NULL *)
  popen_stdout : list string -> string -> option string;
  (** the interface list; [None] when [getifaddrs] returns -1 *)
  sys_ifaddrs : list string -> option (list ifaddrs);
  (** the conversion [%f] of [sscanf]: the value of the [float] it stores,
      [None] on a matching failure (a text that converts to an infinity or
      to a NaN is outside the model) *)
  scan_float : string -> option Q;
  (** the contents of a local [int [4]] array before any assignment *)
  indet : int4;
  (** the contents of a local [char] buffer before any assignment *)
  indet_str : string
}.

(** ** The state of the module *)

Record discovered_host_t : Type := {
  ip_address : string;
  response_time_ms : Z;
  is_reachable : Z
}.

(** The lines of stdout that report progress. *)
Inductive output : Type :=
| out_tick                              (* "=" of the progress bar *)
| out_progress (i max_hosts : Z)        (* "  Progress: i/max hosts scanned..." *)
| out_router (n : Z) (router : string). (* "Querying Router n: router" *)

(** [discovered_hosts [0 .. discovered_count - 1]] as a list, the commands
    given to [popen] so far, oldest first, and the progress lines written
    so far. *)
Record State : Type := {
  discovered_hosts : list discovered_host_t;
  commands : list string;
  stdout : list output
}.

Definition discovered_count (s : State) : nat :=
  List.length (discovered_hosts s).

Definition initial_state : State :=
  {| discovered_hosts := []; commands := []; stdout := [] |}.

(** State passing. *)
Definition M (A : Type) : Type := State -> A * State.

Definition ret {A : Type} (a : A) : M A := fun s => (a, s).

Definition bind {A B : Type} (m : M A) (f : A -> M B) : M B :=
  fun s => let (a, s') := m s in f a s'.

Notation "x <- m ;; k" := (bind m (fun x => k))
  (at level 61, m at next level, right associativity).
Notation "m ;; k" := (bind m (fun _ => k))
  (at level 61, right associativity).

Definition get_hosts : M (list discovered_host_t) :=
  fun s => (discovered_hosts s, s).

(** [discovered_count = 0;] *)
Definition reset_hosts : M unit :=
  fun s => (tt, {| discovered_hosts := [];
                   commands := commands s; stdout := stdout s |}).

(** The four statements that fill [discovered_hosts [discovered_count]]
    and increment [discovered_count].  The array has
    [MAX_DISCOVERED_HOSTS] elements; a store at a larger index is outside
    the array in C, and the list of the model just grows. *)
Definition add_host (ip : string) (response_time : Z) : M unit :=
  fun s =>
    (tt, {| discovered_hosts :=
              discovered_hosts s
              ++ [{| ip_address := CStr.bounded MAX_IP_LEN ip;
                     response_time_ms := response_time;
                     is_reachable := 1 |}];
            commands := commands s; stdout := stdout s |}).

Definition print (o : output) : M unit :=
  fun s => (tt, {| discovered_hosts := discovered_hosts s;
                   commands := commands s; stdout := stdout s ++ [o] |}).

(** The linear search [for (j = 0; j < discovered_count; j++) if (strcmp
    (...) == 0) { already_found = 1; break; }]. *)
Definition already_found (ip : string) (hosts : list discovered_host_t)
  : bool :=
  existsb (fun h => CStr.streq (ip_address h) ip) hosts.

(** The same search in an array of strings. *)
Definition in_list (ip : string) (l : list string) : bool :=
  existsb (fun x => CStr.streq x ip) l.

(** A loop over the elements of [xs] that stops as soon as [guard] fails,
    carrying the local variables [a]: [while (fgets (...) != NULL && guard)]
    over the buffers [fgets] returns, [for (i = 1; i <= n && guard; i++)]
    over [1 .. n]. *)
Fixpoint for_each {X A : Type} (guard : A -> State -> bool)
  (body : X -> A -> M A) (xs : list X) (a : A) : M A :=
  fun s =>
    match xs with
    | [] => (a, s)
    | x :: xs' =>
        if guard a s then
          let (a', s') := body x a s in for_each guard body xs' a' s'
        else (a, s)
    end.

(** [discovered_count < MAX_DISCOVERED_HOSTS] *)
Definition has_room {A : Type} (_ : A) (s : State) : bool :=
  (discovered_count s <? MAX_DISCOVERED_HOSTS)%nat.

(** [1; 2; ...; n] *)
Definition upto (n : Z) : list Z := map Z.of_nat (seq 1 (Z.to_nat n)).

Section Discovery.

Variable env : Env.

(** [popen (cmd, "r")] and the text read from the pipe. *)
Definition popen (cmd : string) : M (option string) :=
  fun s =>
    (popen_stdout env (commands s) cmd,
     {| discovered_hosts := discovered_hosts s;
        commands := commands s ++ [cmd]; stdout := stdout s |}).

(** *** ping_host_system *)

Definition ping_command (ip_addr : string) : string :=
  CStr.bounded 256 ("ping -c 1 -W 1 " ++ ip_addr ++ " 2>/dev/null").

(** [(int) (time_ms + 0.5)] followed by the floor at 1.  [time_ms] is
    the exact value of the [float]; the sum is computed in [double],
    where a [float] plus 0.5 is exact or rounds to a [double] with the
    same integer part. *)
Definition round_time (time_ms : Q) : Z :=
  let response_time := CInt.of_double (time_ms + (1 # 2)) in
  if response_time <? 1 then 1 else response_time.

(** The loop over the output of ping: the first buffer that contains
    ["time="] decides. *)
Fixpoint ping_reply (lines : list string) : Z :=
  match lines with
  | [] => -1
  | result :: lines' =>
      match CStr.strstr result "time=" with
      | Some time_ptr =>
          match scan_float env (CStr.drop 5 time_ptr) with
          | Some time_ms => round_time time_ms
          | None => -1
          end
      | None => ping_reply lines'
      end
  end.

Definition ping_host_system (ip_addr : string) : M Z :=
  if validate_ip_string (Some ip_addr) =? 0 then ret (-1)
  else
    fp <- popen (ping_command ip_addr) ;;
    match fp with
    | None => ret (-1)
    | Some text => ret (ping_reply (CStr.fgets_all 256 text))
    end.

(** *** get_local_network_info *)

Definition inet_ntop (a : Z * Z * Z * Z) : string :=
  let '(b0, b1, b2, b3) := a in
  Printf.dotted (b0 mod 256) (b1 mod 256) (b2 mod 256) (b3 mod 256).

(** The walk through the interface list: [local_ip], [network_addr] and
    [netmask] of the first IPv4 interface that is not ["lo"].  With a
    NULL netmask the two last buffers are left as they were. *)
Fixpoint first_interface (l : list ifaddrs)
  : option (string * string * string) :=
  match l with
  | [] => None
  | ifa :: l' =>
      match ifa_addr ifa with
      | None => first_interface l'
      | Some sa_other => first_interface l'
      | Some (sa_inet a0 a1 a2 a3) =>
          if CStr.streq (ifa_name ifa) "lo" then first_interface l'
          else
            let local_ip := inet_ntop (a0, a1, a2, a3) in
            match ifa_netmask ifa with
            | Some (m0, m1, m2, m3) =>
                Some (local_ip,
                      inet_ntop (Z.land a0 m0, Z.land a1 m1,
                                 Z.land a2 m2, Z.land a3 m3),
                      inet_ntop (m0, m1, m2, m3))
            | None => Some (local_ip, indet_str env, indet_str env)
            end
      end
  end.

(** [None] is the return value -1; otherwise [local_ip], [network_addr]
    and [netmask]. *)
Definition get_local_network_info : M (option (string * string * string)) :=
  fun s =>
    (match sys_ifaddrs env (commands s) with
     | None => None
     | Some l => first_interface l
     end, s).

(** *** parse_ip and get_host_bits *)

(** [sscanf] assigns the octets it could read and leaves the others. *)
Definition parse_ip (ip : string) (octets : int4) : int4 :=
  let '(o0, o1, o2, o3) := octets in
  match sscanf fmt_ip ip with
  | [v_int a] => (a, o1, o2, o3)
  | [v_int a; v_int b] => (a, b, o2, o3)
  | [v_int a; v_int b; v_int c] => (a, b, c, o3)
  | [v_int a; v_int b; v_int c; v_int d] => (a, b, c, d)
  | _ => octets
  end.

(** [(unsigned int) ((o0 << 24) | (o1 << 16) | (o2 << 8) | o3)] *)
Definition mask_word (octets : int4) : Z :=
  let '(o0, o1, o2, o3) := octets in
  (Z.lor (Z.lor (Z.lor (CInt.shl o0 24) (CInt.shl o1 16)) (CInt.shl o2 8)) o3)
  mod 2 ^ 32.

(** [while ((mask & test) == 0 && host_bits < 32)]: at most 32 rounds. *)
Fixpoint host_bits_loop (fuel : nat) (mask test host_bits : Z) : Z :=
  match fuel with
  | O => host_bits
  | S fuel' =>
      if (Z.land mask test =? 0) && (host_bits <? 32)
      then host_bits_loop fuel' mask ((test * 2) mod 2 ^ 32) (host_bits + 1)
      else host_bits
  end.

Definition get_host_bits (netmask : string) : Z :=
  host_bits_loop 33 (mask_word (parse_ip netmask (indet env))) 1 0.

(** [max_hosts = (1 << host_bits) - 2; if (max_hosts > 254) max_hosts =
    254;] *)
Definition max_hosts_of (host_bits : Z) : Z :=
  let max_hosts := CInt.sub (CInt.shl 1 host_bits) 2 in
  if max_hosts >? 254 then 254 else max_hosts.

(** The value [return discovered_count;] returns. *)
Definition get_count : M Z :=
  fun s => (Z.of_nat (discovered_count s), s).

Definition when (b : bool) (m : M unit) : M unit :=
  if b then m else ret tt.

(** *** discover_network *)

(** The target of round [i] of the sweep of [discover_network]. *)
Definition network_target (net_octets mask_octets : int4)
  (host_bits i : Z) : string :=
  let '(n0, n1, n2, n3) := net_octets in
  let '(_, _, _, m3) := mask_octets in
  let t2 :=
    if host_bits >? 8 then CInt.add n2 (CInt.div (i - 1) 256) else n2 in
  let t3 :=
    if host_bits >? 8
    then CInt.add (CInt.add (Z.land n3 m3) (CInt.rem (i - 1) 256)) 1
    else CInt.add (Z.land n3 m3) i in
  CStr.bounded MAX_IP_LEN (Printf.dotted n0 n1 t2 t3).

(** [progress_step = max_hosts / 20; if (progress_step < 1) progress_step
    = 1;] *)
Definition progress_step_of (max_hosts : Z) : Z :=
  let step := CInt.div max_hosts 20 in
  if step <? 1 then 1 else step.

(** The body of the loop of [discover_network]: the host is stored
    without a search of the registry. *)
Definition network_body (net_octets mask_octets : int4)
  (host_bits progress_step : Z) (i : Z) (_ : unit) : M unit :=
  let target_ip := network_target net_octets mask_octets host_bits i in
  response_time <- ping_host_system target_ip ;;
  when (response_time >? 0) (add_host target_ip response_time) ;;
  when (CInt.rem i progress_step =? 0) (print out_tick).

Definition discover_network : M Z :=
  reset_hosts ;;
  info <- get_local_network_info ;;
  match info with
  | None => ret (-1)
  | Some (local_ip, network_addr, netmask) =>
      let net_octets := parse_ip network_addr (indet env) in
      let mask_octets := parse_ip netmask (indet env) in
      let host_bits := get_host_bits netmask in
      let max_hosts := max_hosts_of host_bits in
      for_each has_room
        (network_body net_octets mask_octets host_bits
           (progress_step_of max_hosts))
        (upto max_hosts) tt ;;
      get_count
  end.

(** *** discover_network_quick *)

Definition quick_targets : list Z :=
  [1; 2; 3; 4; 5; 6; 7; 8; 9; 10;
   11; 12; 13; 14; 15; 16; 17; 18; 19; 20;
   100; 200; 254].

(** [ping_host_system] followed by the insertion without a search. *)
Definition probe_and_add (ip : string) : M unit :=
  response_time <- ping_host_system ip ;;
  when (response_time >? 0) (add_host ip response_time).

Definition discover_network_quick : M Z :=
  reset_hosts ;;
  info <- get_local_network_info ;;
  match info with
  | None => ret (-1)
  | Some (local_ip, network_addr, netmask) =>
      let '(n0, n1, n2, _) := parse_ip network_addr (indet env) in
      probe_and_add "127.0.0.1" ;;
      probe_and_add local_ip ;;
      for_each has_room
        (fun target _ =>
           let target_ip :=
             CStr.bounded MAX_IP_LEN (Printf.dotted n0 n1 n2 target) in
           if CStr.streq target_ip local_ip then ret tt
           else probe_and_add target_ip)
        quick_targets tt ;;
      get_count
  end.

(** *** traceroute_discover *)

Definition traceroute_command (target_ip : string) : string :=
  CStr.bounded 256
    ("traceroute -n -m " ++ Printf.fmt_d (Z.of_nat MAX_HOPS) ++ " -w 1 "
     ++ target_ip ++ " 2>/dev/null").

Definition traceroute_line (result : string) (gateways : list string)
  : M (list string) :=
  match sscanf fmt_hop result with
  | [v_int hop_num; v_str ip] =>
      if validate_ip_string (Some ip) =? 0 then ret gateways
      else ret (gateways ++ [CStr.bounded MAX_IP_LEN ip])%list
  | _ => ret gateways
  end.

(** The return value and the gateways stored. *)
Definition traceroute_discover (target_ip : string)
  : M (Z * list string) :=
  if validate_ip_string (Some target_ip) =? 0 then ret (-1, [])
  else
    fp <- popen (traceroute_command target_ip) ;;
    match fp with
    | None => ret (-1, [])
    | Some text =>
        gateways <-
          for_each
            (fun gateways _ => (List.length gateways <? MAX_HOPS)%nat)
            traceroute_line (CStr.fgets_all 512 text) [] ;;
        ret (Z.of_nat (List.length gateways), gateways)
    end.

(** *** scan_subnet *)

(** The target of round [i] of the sweep of [scan_subnet]. *)
Definition subnet_target (net_octets : int4) (host_bits i : Z) : string :=
  let '(n0, n1, n2, _) := net_octets in
  let t2 :=
    if host_bits >? 8 then CInt.add n2 (CInt.div (i - 1) 256) else n2 in
  let t3 :=
    if host_bits >? 8 then CInt.rem (i - 1) 256 + 1 else i in
  CStr.bounded MAX_IP_LEN (Printf.dotted n0 n1 t2 t3).

(** The insertion after the search of the registry; the result tells
    whether the host was new. *)
Definition add_if_new (ip : string) (response_time : Z) : M bool :=
  hosts <- get_hosts ;;
  if already_found ip hosts then ret false
  else add_host ip response_time ;; ret true.

(** The body of the loop of [scan_subnet]. *)
Definition scan_body (net_octets : int4) (host_bits max_hosts : Z)
  (i hosts_found : Z) : M Z :=
  let target_ip := subnet_target net_octets host_bits i in
  response_time <- ping_host_system target_ip ;;
  hosts_found' <-
    (if response_time >? 0 then
       new <- add_if_new target_ip response_time ;;
       ret (if new : bool then hosts_found + 1 else hosts_found)
     else ret hosts_found) ;;
  when (CInt.rem i 50 =? 0) (print (out_progress i max_hosts)) ;;
  ret hosts_found'.

Definition scan_subnet (network_addr : string) (prefix_len : Z) : M Z :=
  let net_octets := parse_ip network_addr (indet env) in
  let host_bits := CInt.sub 32 prefix_len in
  let max_hosts := max_hosts_of host_bits in
  if max_hosts <=? 0 then ret 0
  else
    for_each has_room (scan_body net_octets host_bits max_hosts)
      (upto max_hosts) 0.

(** *** discover_multi_subnet *)

(** [while (mask_val & 0x80000000) { local_prefix++; mask_val <<= 1; }]
    on an [unsigned int]: at most 32 rounds. *)
Fixpoint prefix_loop (fuel : nat) (mask_val local_prefix : Z) : Z :=
  match fuel with
  | O => local_prefix
  | S fuel' =>
      if Z.land mask_val (2 ^ 31) =? 0 then local_prefix
      else prefix_loop fuel' ((mask_val * 2) mod 2 ^ 32) (local_prefix + 1)
  end.

(** The test of the three private ranges on the two first octets. *)
Definition is_private (octets : int4) : bool :=
  let '(o0, o1, _, _) := octets in
  (o0 =? 10)
  || ((o0 =? 172) && (o1 >=? 16) && (o1 <=? 31))
  || ((o0 =? 192) && (o1 =? 168)).

(** The body of the loop over the five first hops. *)
Definition scan_gateway (network_addr gateway : string) (total_found : Z)
  : M Z :=
  let gw_octets := parse_ip gateway (indet env) in
  let '(g0, g1, g2, _) := gw_octets in
  let gw_network :=
    CStr.bounded MAX_IP_LEN
      (Printf.fmt_d g0 ++ "." ++ Printf.fmt_d g1 ++ "."
       ++ Printf.fmt_d g2 ++ ".0") in
  if is_private gw_octets then
    let '(l0, l1, l2, _) := parse_ip network_addr (indet env) in
    if (l0 =? g0) && (l1 =? g1) && (l2 =? g2) then ret total_found
    else
      found <- scan_subnet gw_network 24 ;;
      ret (CInt.add total_found found)
  else ret total_found.

Definition common_gateways : list string := ["8.8.8.8"; "1.1.1.1"].

(** The loop over [common_gateways], left at the first traceroute that
    finds a hop. *)
Fixpoint trace_and_scan (network_addr : string) (targets : list string)
  (total_found : Z) : M Z :=
  match targets with
  | [] => ret total_found
  | target :: targets' =>
      r <- traceroute_discover target ;;
      let '(n, gateways) := r in
      if n >? 0 then
        for_each (fun _ _ => true) (scan_gateway network_addr)
          (firstn 5 gateways) total_found
      else trace_and_scan network_addr targets' total_found
  end.

Definition discover_multi_subnet : M Z :=
  reset_hosts ;;
  info <- get_local_network_info ;;
  match info with
  | None => ret (-1)
  | Some (local_ip, network_addr, netmask) =>
      let mask_val := mask_word (parse_ip netmask (indet env)) in
      let local_prefix := prefix_loop 33 mask_val 0 in
      found <- scan_subnet network_addr local_prefix ;;
      trace_and_scan network_addr common_gateways found ;;
      get_count
  end.

(** *** discover_arp_cache *)

Definition neigh_command : string :=
  "ip neigh show 2>/dev/null || arp -a 2>/dev/null".

Definition valid_ip (ip : string) : bool :=
  negb (validate_ip_string (Some ip) =? 0).

(** The body of the loop of [discover_arp_cache]; [state] is set to the
    empty string in every round, and the host is stored without a search
    of the registry. *)
Definition arp_cache_line (result : string) (_ : unit) : M unit :=
  match sscanf fmt_neigh result with
  | v_str ip :: v_str iface :: v_str mac :: more =>
      let state := match more with v_str st :: _ => st | _ => "" end in
      when (valid_ip ip && negb (CStr.streq state "FAILED"))
        (add_host ip 0)
  | _ =>
      match sscanf fmt_arp result with
      | [v_str ip; v_str mac] =>
          when (valid_ip ip && negb (CStr.streq mac "<incomplete>"))
            (add_host ip 0)
      | _ => ret tt
      end
  end.

Definition discover_arp_cache : M Z :=
  reset_hosts ;;
  fp <- popen neigh_command ;;
  match fp with
  | None => ret (-1)
  | Some text =>
      for_each has_room arp_cache_line (CStr.fgets_all 512 text) tt ;;
      get_count
  end.

(** *** discover_snmp_arp *)

Definition is_community_char (c : ascii) : bool :=
  ((("a" <=? c) && (c <=? "z")) || (("A" <=? c) && (c <=? "Z"))
   || (("0" <=? c) && (c <=? "9")) || (c =? "_") || (c =? "-"))%char.

Fixpoint community_chars_ok (p : string) : bool :=
  match p with
  | "" => true
  | String c p' => if is_community_char c then community_chars_ok p' else false
  end.

(** The address that a line of snmpwalk output yields: the token after
    ["IpAddress:"] when it passes [validate_ip_string]. *)
Definition snmp_address (result : string) : option string :=
  match CStr.strstr result "IpAddress:" with
  | None => None
  | Some ip_start =>
      match sscanf fmt_tok (CStr.skip_blanks (CStr.drop 10 ip_start)) with
      | [v_str ip] => if valid_ip ip then Some ip else None
      | _ => None
      end
  end.

(** The body of the loops that store the addresses of an ARP table read
    over SNMP. *)
Definition snmp_arp_line (result : string) (hosts_found : Z) : M Z :=
  match snmp_address result with
  | Some ip =>
      new <- add_if_new ip 0 ;;
      ret (if new : bool then hosts_found + 1 else hosts_found)
  | None => ret hosts_found
  end.

Definition snmp_arp_command (router_ip community : string) : string :=
  CStr.bounded 512
    ("snmpwalk -v2c -c " ++ community ++ " " ++ router_ip
     ++ " 1.3.6.1.2.1.4.22.1.3 2>/dev/null").

Definition discover_snmp_arp (router_ip community : string) : M Z :=
  if validate_ip_string (Some router_ip) =? 0 then ret (-1)
  else if negb (community_chars_ok community) then ret (-1)
  else
    fp <- popen (snmp_arp_command router_ip community) ;;
    match fp with
    | None => ret (-1)
    | Some text =>
        for_each has_room snmp_arp_line (CStr.fgets_all 512 text) 0
    end.

(** *** discover_netstat *)

Definition conn_command : string :=
  "ss -tn state established 2>/dev/null || netstat -tn 2>/dev/null | grep ESTABLISHED".

(** The remote address of a line of the connection table, when the line
    has one that is to be stored. *)
Definition conn_address (result : string) : option string :=
  match sscanf fmt_conn result with
  | [v_str local_addr; v_str remote_addr] =>
      match CStr.split_last ":" remote_addr with
      | Some (ip, port) =>
          let ip :=
            if CStr.has_prefix "::ffff:" ip then CStr.drop 7 ip else ip in
          if valid_ip ip && negb (CStr.streq ip "127.0.0.1")
          then Some ip else None
      | None => None
      end
  | _ => None
  end.

Definition conn_line (result : string) (_ : unit) : M unit :=
  match conn_address result with
  | Some ip => _ <- add_if_new ip 0 ;; ret tt
  | None => ret tt
  end.

Definition discover_netstat : M Z :=
  reset_hosts ;;
  fp <- popen conn_command ;;
  match fp with
  | None => ret (-1)
  | Some text =>
      for_each has_room conn_line (CStr.fgets_all 512 text) tt ;;
      get_count
  end.

(** *** discover_efficient *)

Definition route_command : string :=
  "ip route | grep default | awk '{print $3}' 2>/dev/null || route -n | grep '^0.0.0.0' | awk '{print $2}'".

(** [if (len > 0 && gateway [len - 1] == '\n') gateway [len - 1] = 0;] *)
Fixpoint chomp (s : string) : string :=
  match s with
  | "" => ""
  | String c "" => if (c =? "010")%char then "" else s
  | String c s' => String c (chomp s')
  end.

(** Step 3 of [discover_efficient]: the gateway is stored after the
    search, with no test of [discovered_count]. *)
Definition efficient_gateway (text : string) : M unit :=
  match CStr.fgets MAX_IP_LEN text with
  | None => ret tt
  | Some (line, _) =>
      let gateway := chomp line in
      if valid_ip gateway then _ <- add_if_new gateway 0 ;; ret tt
      else ret tt
  end.

Definition discover_efficient : M Z :=
  reset_hosts ;;
  _ <- discover_arp_cache ;;
  fp <- popen conn_command ;;
  match fp with
  | None => ret tt
  | Some text => for_each has_room conn_line (CStr.fgets_all 512 text) tt
  end ;;
  fp <- popen route_command ;;
  match fp with
  | None => ret tt
  | Some text => efficient_gateway text
  end ;;
  get_count.

(** *** get_default_gateway *)

(** The return value and the contents of [gateway]. *)
Definition get_default_gateway : M (Z * string) :=
  fp <- popen route_command ;;
  match fp with
  | None => ret (0, indet_str env)
  | Some text =>
      match CStr.fgets MAX_IP_LEN text with
      | None => ret (0, indet_str env)
      | Some (line, _) =>
          let gateway := chomp line in
          ret (validate_ip_string (Some gateway), gateway)
      end
  end.

(** *** validate_community_string *)

Definition validate_community_string (community : option string) : Z :=
  match community with
  | None => 0
  | Some "" => 0
  | Some s => if community_chars_ok s then 1 else 0
  end.

(** *** try_snmp_community *)

Definition snmpwalk_command (router_ip community oid : string) : string :=
  CStr.bounded 512
    ("timeout 3 snmpwalk -v2c -c " ++ community ++ " " ++ router_ip
     ++ " " ++ oid ++ " 2>/dev/null").

Definition try_snmp_community (router_ip community : string) : M Z :=
  if validate_ip_string (Some router_ip) =? 0 then ret 0
  else if validate_community_string (Some community) =? 0 then ret 0
  else
    fp <- popen (snmpwalk_command router_ip community "1.3.6.1.2.1.4.22.1.3") ;;
    match fp with
    | None => ret 0
    | Some text =>
        for_each has_room snmp_arp_line (CStr.fgets_all 512 text) 0
    end.

(** *** discover_nexthop_routers *)

(** The body of the loop: the [continue] statements leave [nexthops] as
    it is. *)
Definition nexthop_line (router_ip result : string)
  (nexthops : list string) : M (list string) :=
  ret
    match snmp_address result with
    | Some ip =>
        if CStr.streq ip "0.0.0.0" then nexthops
        else if negb (is_private (parse_ip ip (indet env))) then nexthops
        else if CStr.streq ip router_ip then nexthops
        else if in_list ip nexthops then nexthops
        else (nexthops ++ [CStr.bounded MAX_IP_LEN ip])%list
    | None => nexthops
    end.

(** The array [nexthops [0 .. *nexthop_count - 1]]; the return value is
    its length. *)
Definition discover_nexthop_routers (router_ip community : string)
  (max_nexthops : nat) : M (list string) :=
  if (validate_ip_string (Some router_ip) =? 0)
     || (validate_community_string (Some community) =? 0)
  then ret []
  else
    fp <- popen (snmpwalk_command router_ip community "1.3.6.1.2.1.4.21.1.7") ;;
    match fp with
    | None => ret []
    | Some text =>
        for_each
          (fun nexthops _ => (List.length nexthops <? max_nexthops)%nat)
          (nexthop_line router_ip) (CStr.fgets_all 512 text) []
    end.

(** *** discover_router_interfaces *)

Definition interface_line (result : string) (interfaces : list string)
  : M (list string) :=
  ret
    match snmp_address result with
    | Some ip =>
        if CStr.has_prefix "127." ip then interfaces
        else if in_list ip interfaces then interfaces
        else (interfaces ++ [CStr.bounded MAX_IP_LEN ip])%list
    | None => interfaces
    end.

Definition discover_router_interfaces (router_ip community : string)
  (max_ifaces : nat) : M (list string) :=
  if (validate_ip_string (Some router_ip) =? 0)
     || (validate_community_string (Some community) =? 0)
  then ret []
  else
    fp <- popen (snmpwalk_command router_ip community "1.3.6.1.2.1.4.20.1.1") ;;
    match fp with
    | None => ret []
    | Some text =>
        for_each
          (fun interfaces _ => (List.length interfaces <? max_ifaces)%nat)
          interface_line (CStr.fgets_all 512 text) []
    end.

(** *** discover_automatic *)

Definition communities : list string :=
  ["abc"; "public"; "private"; "community"; "cisco"].

(** The body of the loop over [nexthops]: the next hop joins
    [routers_to_query] when it is not in it and there is room, and joins
    the registry when it is not in it and there is room. *)
Definition add_nexthop (nexthop : string) (routers_to_query : list string)
  : M (list string) :=
  let routers_to_query' :=
    if negb (in_list nexthop routers_to_query)
       && (List.length routers_to_query <? MAX_HOPS)%nat
    then (routers_to_query ++ [CStr.bounded MAX_IP_LEN nexthop])%list
    else routers_to_query in
  hosts <- get_hosts ;;
  when (negb (already_found nexthop hosts)
        && (List.length hosts <? MAX_DISCOVERED_HOSTS)%nat)
    (add_host nexthop 0) ;;
  ret routers_to_query'.

(** The loop over [communities] for one router, left at the first
    community for which the router reports an interface.  The result is
    [routers_to_query] and [found_community]. *)
Fixpoint try_communities (current_router : string) (cs : list string)
  (routers_to_query : list string) : M (list string * bool) :=
  match cs with
  | [] => ret (routers_to_query, false)
  | community :: cs' =>
      interfaces <-
        discover_router_interfaces current_router community MAX_HOPS ;;
      if (0 <? List.length interfaces)%nat then
        for_each has_room
          (fun iface _ => _ <- add_if_new iface 0 ;; ret tt)
          interfaces tt ;;
        nexthops <-
          discover_nexthop_routers current_router community MAX_HOPS ;;
        routers_to_query' <-
          for_each (fun _ _ => true) add_nexthop nexthops routers_to_query ;;
        _ <- try_snmp_community current_router community ;;
        ret (routers_to_query', true)
      else try_communities current_router cs' routers_to_query
  end.

(** The local variables of the walk. *)
Record walk : Type := {
  routers_to_query : list string;
  routers_queried : nat;
  snmp_success : bool
}.

(** [while (routers_queried < routers_to_check && routers_queried <
    MAX_HOPS)]; [routers_to_check] is the length of [routers_to_query].
    Every round increments [routers_queried], so [MAX_HOPS] rounds are
    enough ([walk_routers_done]). *)
Fixpoint walk_routers (fuel : nat) (w : walk) : M walk :=
  match fuel with
  | O => ret w
  | S fuel' =>
      if (routers_queried w <? List.length (routers_to_query w))%nat
         && (routers_queried w <? MAX_HOPS)%nat
      then
        let current_router :=
          nth (routers_queried w) (routers_to_query w) "" in
        print (out_router (Z.of_nat (routers_queried w) + 1) current_router) ;;
        r <- try_communities current_router communities
               (routers_to_query w) ;;
        walk_routers fuel'
          {| routers_to_query := fst r;
             routers_queried := S (routers_queried w);
             snmp_success := snmp_success w || snd r |}
      else ret w
  end.

(** The body of the loop over the local ARP cache; the buffer [state]
    is declared outside the loop and keeps its contents from one round to
    the next. *)
Definition auto_arp_line (result : string) (state : string) : M string :=
  match sscanf fmt_neigh result with
  | v_str ip :: v_str iface :: v_str mac :: more =>
      let state := match more with v_str st :: _ => st | _ => state end in
      (if valid_ip ip && negb (CStr.streq state "FAILED")
       then _ <- add_if_new ip 0 ;; ret tt
       else ret tt) ;;
      ret state
  | _ =>
      match sscanf fmt_arp result with
      | [v_str ip; v_str mac] =>
          (if valid_ip ip && negb (CStr.streq mac "<incomplete>")
           then _ <- add_if_new ip 0 ;; ret tt
           else ret tt) ;;
          ret state
      | _ => ret state
      end
  end.

(** Steps 1 and 2: the gateway seeds [routers_to_query] and the
    registry, then the routers are walked.  Without a gateway the
    function jumps to [arp_fallback]. *)
Definition automatic_snmp : M walk :=
  g <- get_default_gateway ;;
  let '(ok, gateway) := g in
  if ok =? 0 then
    ret {| routers_to_query := []; routers_queried := 0;
           snmp_success := false |}
  else
    add_host gateway 0 ;;
    walk_routers MAX_HOPS
      {| routers_to_query := [CStr.bounded MAX_IP_LEN gateway];
         routers_queried := 0; snmp_success := false |}.

(** Steps 3 and 4, from the label [arp_fallback] on. *)
Definition automatic_local : M unit :=
  fp <- popen neigh_command ;;
  match fp with
  | None => ret tt
  | Some text =>
      _ <- for_each has_room auto_arp_line (CStr.fgets_all 512 text) "" ;;
      ret tt
  end ;;
  fp <- popen conn_command ;;
  match fp with
  | None => ret tt
  | Some text => for_each has_room conn_line (CStr.fgets_all 512 text) tt
  end.

Definition discover_automatic : M Z :=
  reset_hosts ;;
  _ <- automatic_snmp ;;
  automatic_local ;;
  get_count.

(** *** discover_custom_subnet *)

(** [strchr (s, c)] as a split of [s] around the first [c]. *)
Fixpoint split_first (c : ascii) (s : string) : option (string * string) :=
  match s with
  | "" => None
  | String a s' =>
      if (a =? c)%char then Some ("", s')
      else match split_first c s' with
           | Some (l, r) => Some (String a l, r)
           | None => None
           end
  end.

(** [strtol (s, &endptr, 10)]: the value and the text at [endptr]. *)
Definition strtol (s : string) : Z * string :=
  let s' := skip_space s in
  let '(neg, body) :=
    match s' with
    | String "-" b => (true, b)
    | String "+" b => (false, b)
    | _ => (false, s')
    end in
  if starts_with_digit body then
    let (n, rest) := digits 0 body in
    (Z.max CInt.LONG_MIN (Z.min CInt.LONG_MAX (if neg then - n else n)),
     rest)
  else (0, s).

(** [*endptr] is the end of the string, a newline or a blank. *)
Definition at_end (endptr : string) : bool :=
  match endptr with
  | "" => true
  | String c _ => (c =? "010")%char || (c =? " ")%char
  end.

Definition discover_custom_subnet (subnet_cidr : string) : M Z :=
  reset_hosts ;;
  let scan (network : string) (prefix_len : Z) : M Z :=
    if validate_ip_string (Some network) =? 0 then ret (-1)
    else scan_subnet network prefix_len in
  match split_first "/" subnet_cidr with
  | Some (before, after) =>
      let network := CStr.bounded MAX_IP_LEN before in
      let (parsed_prefix, endptr) := strtol after in
      if negb (at_end endptr) then ret (-1)
      else
        let prefix_len := CInt.wrap parsed_prefix in
        if (prefix_len <? 16) || (prefix_len >? 30) then ret (-1)
        else scan network prefix_len
  | None => scan (CStr.bounded MAX_IP_LEN subnet_cidr) 24
  end.

End Discovery.

(** ** The accessors of the registry *)

(** *** get_discovered_count and get_discovered_host *)

Definition get_discovered_count : M Z :=
  fun s => (Z.of_nat (discovered_count s), s).

(** The value of an index that the accessor does not read: the test of
    the index comes first. *)
Definition no_host : discovered_host_t :=
  {| ip_address := ""; response_time_ms := 0; is_reachable := 0 |}.

(** The return value and the contents of [*ip] and of [*response_time]
    after the call.  The arguments [ip] and [response_time] are their
    contents before it, [None] for a NULL pointer. *)
Definition get_discovered_host (index : Z) (ip : option string)
  (response_time : option Z) : M (Z * option string * option Z) :=
  fun s =>
    if (index <? 0) || (index >=? Z.of_nat (discovered_count s))
    then ((-1, ip, response_time), s)
    else
      let h := nth (Z.to_nat index) (discovered_hosts s) no_host in
      ((0,
        match ip with
        | Some _ => Some (CStr.bounded MAX_IP_LEN (ip_address h))
        | None => None
        end,
        match response_time with
        | Some _ => Some (response_time_ms h)
        | None => None
        end), s).

(** * Core functions (src/src/utils/core.c) *)

Definition NETMON_SUCCESS : Z := 0.
Definition NETMON_VERSION_MAJOR : Z := 1.
Definition NETMON_VERSION_MINOR : Z := 0.
Definition NETMON_VERSION_PATCH : Z := 0.

(** [init_netmon] prints a line and returns [NETMON_SUCCESS];
    [cleanup_netmon] prints a line. *)
Definition init_netmon : Z := NETMON_SUCCESS.

(** [snprintf (version, sizeof (version), "%d.%d.%d", ...)] *)
Definition get_version : string :=
  CStr.bounded 32
    (Printf.fmt_d NETMON_VERSION_MAJOR ++ "."
     ++ Printf.fmt_d NETMON_VERSION_MINOR ++ "."
     ++ Printf.fmt_d NETMON_VERSION_PATCH).

(** The enumerators of [device_status_t] and of [alert_severity_t]. *)
Definition DEVICE_STATUS_UNKNOWN : Z := 0.
Definition DEVICE_STATUS_UP : Z := 1.
Definition DEVICE_STATUS_DOWN : Z := 2.
Definition DEVICE_STATUS_WARNING : Z := 3.

Definition ALERT_INFO : Z := 0.
Definition ALERT_WARNING : Z := 1.
Definition ALERT_ERROR : Z := 2.
Definition ALERT_CRITICAL : Z := 3.

(** The [switch] of [status_to_string].  The value of an enumeration is
    an integer; the label [default], which stands beside
    [DEVICE_STATUS_UNKNOWN], takes the values that are no enumerator. *)
Definition status_to_string (status : Z) : string :=
  if status =? DEVICE_STATUS_UP then "UP"
  else if status =? DEVICE_STATUS_DOWN then "DOWN"
  else if status =? DEVICE_STATUS_WARNING then "WARNING"
  else "UNKNOWN".

Definition severity_to_string (severity : Z) : string :=
  if severity =? ALERT_INFO then "INFO"
  else if severity =? ALERT_WARNING then "WARNING"
  else if severity =? ALERT_ERROR then "ERROR"
  else if severity =? ALERT_CRITICAL then "CRITICAL"
  else "UNKNOWN".

(** * The menu (src/src/main.c) *)

Definition EXIT_SUCCESS : Z := 0.
Definition EXIT_FAILURE : Z := 1.
Definition EOF : Z := -1.

(** Standard input is a finite text.  [getchar ()]: the character read
    and the text left; at the end of the text it returns [EOF], at every
    call. *)
Definition getchar (input : string) : Z * string :=
  match input with
  | "" => (EOF, "")
  | String c rest => (Z.of_N (N_of_ascii c), rest)
  end.

(** [while (getchar () != '\n');]: the text after the first newline.
    When no newline is left, [getchar] returns [EOF] at every call and the
    loop does not end: [None]. *)
Fixpoint skip_line (input : string) : option string :=
  match input with
  | "" => None
  | String c rest => if (c =? "010")%char then Some rest else skip_line rest
  end.

(** [scanf ("%d", &choice)]: the number stored, [None] when the result
    is not 1, and the text left unread.  White space before the number is
    consumed in any case, and so is a sign that no digit follows. *)
Definition scanf_d (input : string) : option Z * string :=
  let s := skip_space input in
  let '(neg, body) :=
    match s with
    | String "-" b => (true, b)
    | String "+" b => (false, b)
    | _ => (false, s)
    end in
  if starts_with_digit body then
    let (n, rest) := digits 0 body in
    (Some (to_int (if neg then - n else n)), rest)
  else (None, body).

(** What a run of the program holds: the text of standard input that is
    still unread and the state of the discovery module. *)
Record session : Type := {
  stdin : string;
  net : State
}.

(** How a run ends: it returns, it loops for ever, or the model ran out
    of fuel (which, with the fuel that [main] gives, does not happen). *)
Inductive outcome (A : Type) : Type :=
| returns (a : A)
| never_returns
| out_of_fuel.

Arguments returns {A} a.
Arguments never_returns {A}.
Arguments out_of_fuel {A}.

Section Menu.

Variable env : Env.

(** [getchar ();] after "Press Enter ...". *)
Definition press_enter (p : session) : session :=
  {| stdin := snd (getchar (stdin p)); net := net p |}.

(** [clear_screen] runs [system ("clear")], which writes to the terminal
    only, like [display_menu] and the calls of [printf]. *)
Definition discover_automatic_menu (p : session) : session :=
  let (found, s) := discover_automatic env (net p) in
  press_enter {| stdin := stdin p; net := s |}.

Definition view_statistics (p : session) : session := press_enter p.

Definition configure_devices (p : session) : session := press_enter p.

Definition handle_menu_choice (choice : Z) (p : session) : session :=
  if choice =? 1 then discover_automatic_menu p
  else if choice =? 2 then view_statistics p
  else if choice =? 3 then configure_devices p
  else press_enter p.

(** The loop [while (running)].  Every round reads a line of input, so
    the loop has at most one round more than the input has characters. *)
Fixpoint main_loop (fuel : nat) (p : session) : outcome session :=
  match fuel with
  | O => out_of_fuel
  | S fuel' =>
      let (choice, rest) := scanf_d (stdin p) in
      match skip_line rest with
      | None => never_returns
      | Some rest' =>
          let p' := {| stdin := rest'; net := net p |} in
          match choice with
          | None => main_loop fuel' p'
          | Some c =>
              if c =? 0 then returns p'
              else main_loop fuel' (handle_menu_choice c p')
          end
      end
  end.

(** The exit status and the session at the end. *)
Definition main (input : string) (s : State) : outcome (Z * session) :=
  if negb (init_netmon =? 0) then
    returns (EXIT_FAILURE, {| stdin := input; net := s |})
  else
    match main_loop (S (String.length input))
            {| stdin := input; net := s |} with
    | returns p => returns (EXIT_SUCCESS, p)
    | never_returns => never_returns
    | out_of_fuel => out_of_fuel
    end.

End Menu.

(** * The vocabulary of the properties *)

(** ** Specifications of state-passing code *)

(** [hoare P m Q]: from a state that satisfies [P], [m] returns a result
    and a state that satisfy [Q].  Every [M A] is a function, so [m] always
    returns. *)
Definition hoare {A : Type} (P : State -> Prop) (m : M A)
  (Q : A -> State -> Prop) : Prop :=
  forall s, P s -> Q (fst (m s)) (snd (m s)).

(** [m] keeps the invariant [I]. *)
Definition preserves {A : Type} (I : State -> Prop) (m : M A) : Prop :=
  hoare I m (fun _ => I).

(** An invariant that only reads the registry is kept by the operations
    that leave the registry alone. *)
Definition on_hosts (I : State -> Prop) : Prop :=
  forall s s', discovered_hosts s' = discovered_hosts s -> I s -> I s'.

(** An invariant that only reads the list of commands is kept by the
    operations that give no command. *)
Definition on_commands (I : State -> Prop) : Prop :=
  forall s s', commands s' = commands s -> I s -> I s'.

(** An invariant that only reads stdout is kept by the operations that
    print nothing. *)
Definition on_stdout (I : State -> Prop) : Prop :=
  forall s s', stdout s' = stdout s -> I s -> I s'.

(** ** The registry *)

(** The characters an address may contain. *)
Definition ip_charset : list ascii := list_ascii_of_string "0123456789.".

(** Every address of the registry passes [validate_ip_string]. *)
Definition registry_valid (s : State) : Prop :=
  Forall (fun h => valid_ip (ip_address h) = true) (discovered_hosts s).

(** Every address of a list passes [validate_ip_string]. *)
Definition all_valid (l : list string) : Prop :=
  Forall (fun ip => valid_ip ip = true) l.

(** A string that came out of a buffer of [MAX_IP_LEN] characters. *)
Definition fits (ip : string) : Prop := CStr.bounded MAX_IP_LEN ip = ip.

(** [discovered_count <= n] *)
Definition le_count (n : nat) (s : State) : Prop :=
  (discovered_count s <= n)%nat.

(** [m] stores at most one host. *)
Definition adds_one {A : Type} (m : M A) : Prop :=
  forall n, hoare (le_count n) m (fun _ => le_count (S n)).

(** [m] stores no host. *)
Definition adds_none {A : Type} (m : M A) : Prop :=
  forall n, preserves (le_count n) m.

(** The registry fits the array. *)
Definition registry_bounded : State -> Prop := le_count MAX_DISCOVERED_HOSTS.

(** ** Sequences of calls *)

(** The functions that netmon.h declares for this module and that touch
    the state. *)
Inductive call : Type :=
| call_discover_network
| call_discover_network_quick
| call_discover_multi_subnet
| call_discover_custom_subnet (subnet_cidr : string)
| call_discover_arp_cache
| call_discover_snmp_arp (router_ip community : string)
| call_discover_netstat
| call_discover_efficient
| call_discover_automatic
| call_traceroute_discover (target_ip : string)
| call_scan_subnet (network_addr : string) (prefix_len : Z).

(** The state after one call; the value returned is dropped. *)
Definition run_call (env : Env) (c : call) (s : State) : State :=
  match c with
  | call_discover_network => snd (discover_network env s)
  | call_discover_network_quick => snd (discover_network_quick env s)
  | call_discover_multi_subnet => snd (discover_multi_subnet env s)
  | call_discover_custom_subnet cidr => snd (discover_custom_subnet env cidr s)
  | call_discover_arp_cache => snd (discover_arp_cache env s)
  | call_discover_snmp_arp r c => snd (discover_snmp_arp env r c s)
  | call_discover_netstat => snd (discover_netstat env s)
  | call_discover_efficient => snd (discover_efficient env s)
  | call_discover_automatic => snd (discover_automatic env s)
  | call_traceroute_discover t => snd (traceroute_discover env t s)
  | call_scan_subnet n p => snd (scan_subnet env n p s)
  end.

(** The state after a sequence of calls, in order. *)
Definition run_calls (env : Env) (cs : list call) (s : State) : State :=
  fold_left (fun s c => run_call env c s) cs s.

(** ** Commands and progress lines *)

(** The log of commands extends [L]. *)
Definition log_from (L : list string) (s : State) : Prop :=
  exists X, commands s = (L ++ X)%list.

(** The routers named by the lines "Querying Router n: router", which
    the walk prints once at the start of every round. *)
Definition queried_routers (out : list output) : list string :=
  flat_map (fun o => match o with out_router _ r => [r] | _ => [] end) out.

(** The number of marks for a sweep of [max_hosts] candidates. *)
Definition tick_count (max_hosts : Z) : Z :=
  if max_hosts <=? 0 then 0 else max_hosts / progress_step_of max_hosts.

(** ** The router walk *)

(** [routers_to_query] holds distinct addresses and fits its array. *)
Definition frontier_ok (l : list string) : Prop :=
  NoDup l /\ (List.length l <= MAX_HOPS)%nat.

(** [l'] is [l] followed by addresses that satisfy [Q]. *)
Definition grows (Q : string -> Prop) (l l' : list string) : Prop :=
  exists ext, l' = (l ++ ext)%list /\ Forall Q ext.

(** The test of the [while] loop. *)
Definition walk_goes_on (w : walk) : bool :=
  (routers_queried w <? List.length (routers_to_query w))%nat
  && (routers_queried w <? MAX_HOPS)%nat.

(** What the loop of [discover_nexthop_routers] asks of an address before
    it stores it. *)
Definition nexthop_ok (env : Env) (router_ip ip : string) : Prop :=
  valid_ip ip = true
  /\ ip <> "0.0.0.0"
  /\ ip <> router_ip
  /\ is_private (parse_ip ip (indet env)) = true.

(** The three private ranges, on the two first octets of an address. *)
Definition in_private_ranges (a b : Z) : Prop :=
  a = 10 \/ (a = 172 /\ 16 <= b <= 31) \/ (a = 192 /\ b = 168).

(** ** Decimal numbers and dotted quads *)

(** A string of decimal digits. *)
Fixpoint all_digits (s : string) : bool :=
  match s with
  | "" => true
  | String c s' => CStr.is_digit c && all_digits s'
  end.

(** The value of a string of digits read after the value [v]. *)
Fixpoint digits_value (v : Z) (s : string) : Z :=
  match s with
  | "" => v
  | String c s' => digits_value (10 * v + digit_val c) s'
  end.

(** The word of an address, most significant octet first. *)
Definition addr_word (o : int4) : Z :=
  let '(a, b, c, d) := o in a * 2 ^ 24 + b * 2 ^ 16 + c * 2 ^ 8 + d.

(** The four octets of a word. *)
Definition word_octets (w : Z) : int4 :=
  ((w / 2 ^ 24) mod 256, (w / 2 ^ 16) mod 256, (w / 2 ^ 8) mod 256,
   w mod 256).

(** The dotted quad of four octets, as [inet_ntop] and [snprintf] print
    it. *)
Definition format_ip (o : int4) : string :=
  let '(a, b, c, d) := o in Printf.dotted a b c d.

(** The four numbers are octets. *)
Definition octets_ok (o : int4) : Prop :=
  let '(a, b, c, d) := o in
  0 <= a <= 255 /\ 0 <= b <= 255 /\ 0 <= c <= 255 /\ 0 <= d <= 255.

(** [o] is the network address of a subnet with this prefix length: its
    host bits are zero. *)
Definition is_network_address (o : int4) (prefix_len : Z) : Prop :=
  octets_ok o /\ addr_word o mod 2 ^ (32 - prefix_len) = 0.

(** The broadcast address of the subnet: all host bits are one. *)
Definition broadcast_of (o : int4) (prefix_len : Z) : int4 :=
  word_octets (addr_word o + 2 ^ (32 - prefix_len) - 1).

(** The number of candidates the specification gives. *)
Definition candidate_count (prefix_len : Z) : Z :=
  Z.min (2 ^ (32 - prefix_len) - 2) 254.

(** ** The filter of next hops *)

(** [sscanf] with [%d.%d.%d.%d] assigns [a] to the first element of the
    array, whatever the array held before. *)
Definition first_number (ip : string) (a : Z) : Prop :=
  forall o, exists b c d, parse_ip ip o = (a, b, c, d).

(** [sscanf] assigns [a] and [b] to the two first elements. *)
Definition first_two_numbers (ip : string) (a b : Z) : Prop :=
  forall o, exists c d, parse_ip ip o = (a, b, c, d).

(** An address in one of the private ranges 10/8, 172.16/12 and
    192.168/16: the dotted quad of four octets of which the two first are
    in a range. *)
Definition private_address (ip : string) : Prop :=
  exists a b c d,
    octets_ok (a, b, c, d)
    /\ ip = Printf.dotted a b c d
    /\ in_private_ranges a b.

(** An address that passed the filter of [discover_nexthop_routers]: it
    passes [validate_ip_string], it is not 0.0.0.0 and not 8.8.8.8, the
    numbers that [sscanf] reads from it pass the test of the private ranges
    (the first one alone when no second is read), and when it is a dotted
    quad [a.b.c.d] it lies in 10/8, 172.16/12 or 192.168/16.  Nothing is
    said of the elements of the array that [sscanf] does not assign. *)
Definition filtered (ip : string) : Prop :=
  validate_ip_string (Some ip) = 1
  /\ ip <> "0.0.0.0"
  /\ ip <> "8.8.8.8"
  /\ (forall a, first_number ip a -> a = 10 \/ a = 172 \/ a = 192)
  /\ (forall a b, first_two_numbers ip a b -> in_private_ranges a b)
  /\ (forall a b c d,
         octets_ok (a, b, c, d) ->
         ip = Printf.dotted a b c d -> in_private_ranges a b).

(** ** Environments *)

(** An environment in which every command fails or prints nothing. *)
Definition silent (env : Env) : Prop :=
  forall history cmd,
    popen_stdout env history cmd = None
    \/ popen_stdout env history cmd = Some "".

(** An environment in which [popen] always fails. *)
Definition dead_env : Env :=
  {| popen_stdout := fun _ _ => None;
     sys_ifaddrs := fun _ => None;
     scan_float := fun _ => None;
     indet := (0, 0, 0, 0);
     indet_str := "" |}.

(** A concrete environment: a gateway 192.168.1.1 that answers SNMP under
    the community "public" with two interfaces and three next hops, an ARP
    cache with one neighbour, a host 192.168.1.7 that answers a ping in
    12.5 ms and other hosts that answer in 0.345 ms. *)
Module Sample.

Definition nl : string := String "010" "".

(** A reader of decimal numbers for [%f]: digits, then a dot and
    digits. *)
Definition read_decimal (s : string) : option Q :=
  let s := skip_space s in
  if starts_with_digit s then
    let (n, rest) := digits 0 s in
    match rest with
    | String "." frac =>
        let (f, rest') := digits 0 frac in
        let k := (String.length frac - String.length rest')%nat in
        Some (Qred (inject_Z n + (f # Pos.of_nat (10 ^ k))))%Q
    | _ => Some (inject_Z n)
    end
  else None.

Definition answer (history : list string) (cmd : string)
  : option string :=
  if String.eqb cmd route_command then Some ("192.168.1.1" ++ nl)
  else if String.eqb cmd
            (snmpwalk_command "192.168.1.1" "public" "1.3.6.1.2.1.4.20.1.1")
  then Some ("IP-MIB::ipAdEntAddr.192.168.1.1 = IpAddress: 192.168.1.1" ++ nl
             ++ "IP-MIB::ipAdEntAddr.10.0.0.1 = IpAddress: 10.0.0.1" ++ nl)
  else if String.eqb cmd
            (snmpwalk_command "192.168.1.1" "public" "1.3.6.1.2.1.4.21.1.7")
  then Some ("RFC1213-MIB::ipRouteNextHop.10.0.1.0 = IpAddress: 10.0.0.2" ++ nl
             ++ "RFC1213-MIB::ipRouteNextHop.0.0.0.0 = IpAddress: 8.8.8.8" ++ nl
             ++ "RFC1213-MIB::ipRouteNextHop.10.0.0.0 = IpAddress: 0.0.0.0" ++ nl)
  else if String.eqb cmd neigh_command
  then Some ("192.168.1.7 dev eth0 lladdr aa:bb:cc:dd:ee:ff REACHABLE" ++ nl)
  else if String.eqb cmd "ping -c 1 -W 1 192.168.1.7 2>/dev/null"
  then Some ("PING 192.168.1.7 (192.168.1.7) 56(84) bytes of data." ++ nl
             ++ "64 bytes from 192.168.1.7: icmp_seq=1 ttl=64 time=12.5 ms"
             ++ nl)
  else if CStr.has_prefix "ping" cmd
  then Some ("64 bytes from host: icmp_seq=1 ttl=64 time=0.345 ms" ++ nl)
  else Some "".

Definition env : Env :=
  {| popen_stdout := answer;
     sys_ifaddrs := fun _ =>
       Some [ {| ifa_name := "lo"; ifa_addr := Some (sa_inet 127 0 0 1);
                 ifa_netmask := Some (255, 0, 0, 0) |};
              {| ifa_name := "eth0"; ifa_addr := Some (sa_inet 192 168 1 10);
                 ifa_netmask := Some (255, 255, 255, 0) |} ];
     scan_float := read_decimal;
     indet := (0, 0, 0, 0);
     indet_str := "" |}.

End Sample.

(** A concrete environment with a crowded ARP cache: 1024 neighbours
    10.0.0.0 ... 10.0.3.255, a default gateway 192.168.1.1, and hosts that
    answer every ping. *)
Module Crowded.

Definition neighbour (k : nat) : string :=
  Printf.dotted 10 0 (Z.of_nat k / 256) (Z.of_nat k mod 256)
  ++ " dev eth0 lladdr 00:11:22:33:44:55 REACHABLE" ++ Sample.nl.

Definition arp_cache : string :=
  fold_right (fun k text => neighbour k ++ text) "" (seq 0 1024).

Definition answer (history : list string) (cmd : string) : option string :=
  if String.eqb cmd neigh_command then Some arp_cache
  else if String.eqb cmd route_command then Some ("192.168.1.1" ++ Sample.nl)
  else if CStr.has_prefix "ping" cmd
  then Some ("64 bytes from host: icmp_seq=1 ttl=64 time=0.345 ms"
             ++ Sample.nl)
  else Some "".

Definition env : Env :=
  {| popen_stdout := answer;
     sys_ifaddrs := fun _ => None;
     scan_float := Sample.read_decimal;
     indet := (0, 0, 0, 0);
     indet_str := "" |}.

End Crowded.

(** A concrete environment in which the ARP cache lists the neighbour
    192.168.1.1 on two interfaces, as [ip neigh show] does for a host that
    is reachable over two links. *)
Module TwoLinks.

Definition arp_cache : string :=
  "192.168.1.1 dev eth0 lladdr aa:bb:cc:dd:ee:ff REACHABLE" ++ Sample.nl
  ++ "192.168.1.1 dev wlan0 lladdr aa:bb:cc:dd:ee:ff STALE" ++ Sample.nl.

Definition answer (history : list string) (cmd : string) : option string :=
  if String.eqb cmd neigh_command then Some arp_cache else Some "".

Definition env : Env :=
  {| popen_stdout := answer;
     sys_ifaddrs := fun _ => None;
     scan_float := Sample.read_decimal;
     indet := (0, 0, 0, 0);
     indet_str := "" |}.

End TwoLinks.

(** The environment [Sample] with a gateway that reports a next hop that
    is no address: 10.999.0.1. *)
Module Garbled.

Definition answer (history : list string) (cmd : string) : option string :=
  if String.eqb cmd
       (snmpwalk_command "192.168.1.1" "public" "1.3.6.1.2.1.4.21.1.7")
  then Some ("RFC1213-MIB::ipRouteNextHop.10.0.1.0 = IpAddress: 10.999.0.1"
             ++ Sample.nl)
  else Sample.answer history cmd.

Definition env : Env :=
  {| popen_stdout := answer;
     sys_ifaddrs := fun _ => None;
     scan_float := Sample.read_decimal;
     indet := (0, 0, 0, 0);
     indet_str := "" |}.

End Garbled.

(** ** Entries of the registry *)

(** An entry as the collectors write it: an address of at most 15
    characters, a response time that is not negative, and the flag
    [is_reachable] set. *)
Definition entry_ok (h : discovered_host_t) : Prop :=
  (String.length (ip_address h) <= 15)%nat
  /\ 0 <= response_time_ms h < 2 ^ 31
  /\ is_reachable h = 1.

Definition registry_entries_ok (s : State) : Prop :=
  Forall entry_ok (discovered_hosts s).

(** The registry is [L] followed by further entries. *)
Definition registry_from (L : list discovered_host_t) (s : State) : Prop :=
  exists ext, discovered_hosts s = (L ++ ext)%list.

(** The registry is [L] followed by [n] further entries, which all
    satisfy [P]. *)
Definition appended (P : discovered_host_t -> Prop)
  (L : list discovered_host_t) (n : Z) (s : State) : Prop :=
  exists ext,
    discovered_hosts s = (L ++ ext)%list
    /\ n = Z.of_nat (List.length ext) /\ Forall P ext.

(** No two entries of the registry have the same address. *)
Definition registry_nodup (s : State) : Prop :=
  NoDup (map ip_address (discovered_hosts s)).

(** An address that passed [validate_ip_string] and fits a buffer of
    [MAX_IP_LEN] characters. *)
Definition stored_address (ip : string) : Prop :=
  validate_ip_string (Some ip) = 1 /\ (String.length ip <= 15)%nat.

(** ** Commands *)

(** The characters a community may contain. *)
Definition community_charset : list ascii :=
  list_ascii_of_string
    "abcdefghijklmnopqrstuvwxyzABCDEFGHIJKLMNOPQRSTUVWXYZ0123456789_-".

(** The object identifiers that the router queries walk. *)
Definition snmp_oids : list string :=
  ["1.3.6.1.2.1.4.22.1.3"; "1.3.6.1.2.1.4.21.1.7"; "1.3.6.1.2.1.4.20.1.1"].

(** The commands the module may hand to the shell: the three fixed
    commands, and the templates of ping, traceroute and snmpwalk filled
    with an address that passed [validate_ip_string] and a community made
    of the characters the code allows. *)
Inductive command_ok : string -> Prop :=
| ok_neigh : command_ok neigh_command
| ok_conn : command_ok conn_command
| ok_route : command_ok route_command
| ok_ping (ip : string) :
    validate_ip_string (Some ip) = 1 -> command_ok (ping_command ip)
| ok_traceroute (ip : string) :
    validate_ip_string (Some ip) = 1 -> command_ok (traceroute_command ip)
| ok_snmp_arp (router_ip community : string) :
    validate_ip_string (Some router_ip) = 1 ->
    community_chars_ok community = true ->
    command_ok (snmp_arp_command router_ip community)
| ok_snmpwalk (router_ip community oid : string) :
    validate_ip_string (Some router_ip) = 1 ->
    validate_community_string (Some community) = 1 ->
    In oid snmp_oids ->
    command_ok (snmpwalk_command router_ip community oid).

Definition commands_ok (s : State) : Prop := Forall command_ok (commands s).

(** Characters with which a shell ends a command, starts another one or
    expands a pattern, and which none of the command templates contains:
    semicolon, ampersand, backquote, the two parentheses, less-than,
    newline, carriage return, NUL, the double quote, backslash, star,
    question mark, exclamation mark, hash, tilde and the two square
    brackets. *)
Definition shell_breakers : list ascii :=
  [";"; "&"; "`"; "("; ")"; "<"; "010"; "013"; "000"; "034"; "\"; "*";
   "?"; "!"; "#"; "~"; "["; "]"]%char.

Definition clean_char (c : ascii) : bool :=
  negb (existsb (Ascii.eqb c) shell_breakers).

(** No character of [s] is one of [shell_breakers]. *)
Definition clean (s : string) : bool :=
  forallb clean_char (list_ascii_of_string s).

(** [m] gives at most [k] commands to [popen]. *)
Definition issues {A : Type} (k : nat) (m : M A) : Prop :=
  forall s,
    (List.length (commands (snd (m s))) <= List.length (commands s) + k)%nat.

(** The number of external commands that one call may run: one ping for
    each of at most 254 candidates of a sweep, 25 pings for the quick scan,
    two traceroutes and five more sweeps for the scan of several subnets,
    and for the automatic discovery the route command, seven queries for
    each of at most [MAX_HOPS] routers and the two local commands. *)
Definition budget (c : call) : nat :=
  match c with
  | call_discover_network => 254
  | call_discover_network_quick => 25
  | call_discover_multi_subnet => 254 + 2 + 5 * 254
  | call_discover_custom_subnet _ => 254
  | call_discover_arp_cache => 1
  | call_discover_snmp_arp _ _ => 1
  | call_discover_netstat => 1
  | call_discover_efficient => 3
  | call_discover_automatic => 1 + MAX_HOPS * (5 + 2) + 2
  | call_traceroute_discover _ => 1
  | call_scan_subnet _ _ => 254
  end.

(** ** Netmasks and interfaces *)

(** The netmask of a prefix length: [p] ones followed by zeros. *)
Definition mask_of_prefix (p : Z) : int4 :=
  word_octets (2 ^ 32 - 2 ^ (32 - p)).

(** The bitwise AND of two addresses, octet by octet. *)
Definition octets_and (a m : int4) : int4 :=
  let '(a0, a1, a2, a3) := a in
  let '(m0, m1, m2, m3) := m in
  (Z.land a0 m0, Z.land a1 m1, Z.land a2 m2, Z.land a3 m3).

(** The bytes of an address as [inet_ntop] reads them. *)
Definition octets_mod (a : int4) : int4 :=
  let '(a0, a1, a2, a3) := a in
  (a0 mod 256, a1 mod 256, a2 mod 256, a3 mod 256).

(** An interface that [get_local_network_info] does not skip: it has an
    IPv4 address and is not named "lo". *)
Definition usable (ifa : ifaddrs) : bool :=
  match ifa_addr ifa with
  | Some (sa_inet _ _ _ _) => negb (CStr.streq (ifa_name ifa) "lo")
  | _ => false
  end.

(** * Reasoning about state-passing code *)

Lemma bind_snd {A B : Type} (m : M A) (k : A -> M B) (s : State) :
  snd (bind m k s) = snd (k (fst (m s)) (snd (m s))).
Proof. unfold bind. destruct (m s). reflexivity. Qed.

Lemma bind_fst {A B : Type} (m : M A) (k : A -> M B) (s : State) :
  fst (bind m k s) = fst (k (fst (m s)) (snd (m s))).
Proof. unfold bind. destruct (m s). reflexivity. Qed.

Lemma hoare_ret {A : Type} (a : A) (P : State -> Prop)
  (Q : A -> State -> Prop) :
  (forall s, P s -> Q a s) -> hoare P (ret a) Q.
Proof. intros H s Hs. apply H, Hs. Qed.

Lemma hoare_bind {A B : Type} (m : M A) (k : A -> M B)
  (P : State -> Prop) (Q : A -> State -> Prop) (R : B -> State -> Prop) :
  hoare P m Q -> (forall a, hoare (Q a) (k a) R) -> hoare P (bind m k) R.
Proof.
  intros Hm Hk s Hs. unfold bind.
  specialize (Hm s Hs). destruct (m s) as [a s']. apply Hk, Hm.
Qed.

Lemma hoare_weaken {A : Type} (m : M A) (P P' : State -> Prop)
  (Q Q' : A -> State -> Prop) :
  hoare P' m Q' -> (forall s, P s -> P' s) ->
  (forall a s, Q' a s -> Q a s) -> hoare P m Q.
Proof. intros H HP HQ s Hs. apply HQ, H, HP, Hs. Qed.

Lemma hoare_for_each {X A : Type} (guard : A -> State -> bool)
  (body : X -> A -> M A) (Inv : A -> State -> Prop) (xs : list X) :
  (forall x a, In x xs -> hoare (Inv a) (body x a) Inv) ->
  forall a, hoare (Inv a) (for_each guard body xs a) Inv.
Proof.
  induction xs as [|x xs IH]; intros Hbody a s Hs; simpl.
  - exact Hs.
  - destruct (guard a s); [|exact Hs].
    pose proof (Hbody x a (or_introl eq_refl) s Hs) as Hx.
    destruct (body x a s) as [a' s']. simpl in Hx.
    apply IH; [|exact Hx].
    intros y b Hy. apply Hbody. right. exact Hy.
Qed.

Lemma preserves_ret {A : Type} (a : A) (I : State -> Prop) :
  preserves I (ret a).
Proof. apply hoare_ret. auto. Qed.

Lemma preserves_bind {A B : Type} (m : M A) (k : A -> M B)
  (I : State -> Prop) :
  preserves I m -> (forall a, preserves I (k a)) -> preserves I (bind m k).
Proof. intros Hm Hk. eapply hoare_bind; [exact Hm|exact Hk]. Qed.

Lemma preserves_for_each {X A : Type} (guard : A -> State -> bool)
  (body : X -> A -> M A) (I : State -> Prop) (xs : list X) (a : A) :
  (forall x b, preserves I (body x b)) ->
  preserves I (for_each guard body xs a).
Proof.
  intros H. apply (hoare_for_each guard body (fun _ => I)). intros; apply H.
Qed.

Lemma preserves_when (b : bool) (m : M unit) (I : State -> Prop) :
  (b = true -> preserves I m) -> preserves I (when b m).
Proof. destruct b; intros H; [apply H; reflexivity|apply preserves_ret]. Qed.

Lemma preserves_popen (env : Env) (cmd : string) (I : State -> Prop) :
  on_hosts I -> preserves I (popen env cmd).
Proof. intros H s Hs. apply (H s); [reflexivity|exact Hs]. Qed.

Lemma preserves_print (o : output) (I : State -> Prop) :
  on_hosts I -> preserves I (print o).
Proof. intros H s Hs. apply (H s); [reflexivity|exact Hs]. Qed.

Lemma preserves_get_hosts (I : State -> Prop) : preserves I get_hosts.
Proof. intros s Hs. exact Hs. Qed.

Lemma preserves_get_count (I : State -> Prop) : preserves I get_count.
Proof. intros s Hs. exact Hs. Qed.

Lemma preserves_get_local_network_info (env : Env) (I : State -> Prop) :
  preserves I (get_local_network_info env).
Proof. intros s Hs. exact Hs. Qed.

(** * The address validator *)

Lemma ip_char_test (c : ascii) :
  ((c <? "0")%char || ("9" <? c)%char) && negb (c =? ".")%char = false
  <-> In c ip_charset.
Proof.
  destruct c as [[] [] [] [] [] [] [] []]; vm_compute;
    split; intros H; try reflexivity; try discriminate;
    try (repeat (destruct H as [H|H]; [discriminate H|]); destruct H);
    repeat (first [left; reflexivity | right]).
Qed.

Lemma ip_chars_ok_1 (s : string) :
  ip_chars_ok s = 1 <->
  (forall c, In c (list_ascii_of_string s) -> In c ip_charset).
Proof.
  induction s as [|a s IH]; simpl.
  - split; [intros _ c []|reflexivity].
  - destruct (((a <? "0")%char || ("9" <? a)%char) && negb (a =? ".")%char)
      eqn:E.
    + split; [discriminate|].
      intros H. exfalso.
      assert (Ha : In a ip_charset) by (apply H; left; reflexivity).
      apply ip_char_test in Ha. congruence.
    + apply ip_char_test in E. rewrite IH. split.
      * intros H c [<-|Hc]; [exact E|apply H, Hc].
      * intros H c Hc. apply H. right. exact Hc.
Qed.

Lemma ip_chars_ok_01 (s : string) : ip_chars_ok s = 1 \/ ip_chars_ok s = 0.
Proof.
  induction s as [|a s IH]; simpl; [left; reflexivity|].
  destruct (_ && _); [right; reflexivity|exact IH].
Qed.

Lemma validate_ip_string_1 (s : string) :
  validate_ip_string (Some s) = 1 <->
  s <> "" /\ (forall c, In c (list_ascii_of_string s) -> In c ip_charset).
Proof.
  destruct s as [|a s].
  - simpl. split; [discriminate|]. intros [H _]. congruence.
  - change (validate_ip_string (Some (String a s)))
      with (ip_chars_ok (String a s)).
    rewrite ip_chars_ok_1. split; [intros H; split; [discriminate|exact H]|].
    intros [_ H]. exact H.
Qed.

Lemma validate_ip_string_01 (s : option string) :
  validate_ip_string s = 1 \/ validate_ip_string s = 0.
Proof.
  destruct s as [[|a s]|]; simpl; try (right; reflexivity).
  apply (ip_chars_ok_01 (String a s)).
Qed.

(** A string with a character outside the set is refused. *)
Lemma validate_ip_string_bad (s : string) (c : ascii) :
  In c (list_ascii_of_string s) -> ~ In c ip_charset ->
  validate_ip_string (Some s) = 0.
Proof.
  intros Hc Hbad.
  destruct (validate_ip_string_01 (Some s)) as [H|H]; [|exact H].
  apply validate_ip_string_1 in H. destruct H as [_ H].
  exfalso. apply Hbad, H, Hc.
Qed.

(** * Rejection of malformed addresses *)

Section Rejection.

Variable env : Env.

Lemma ping_host_system_rejects (ip_addr : string) (s : State) :
  validate_ip_string (Some ip_addr) = 0 ->
  ping_host_system env ip_addr s = (-1, s).
Proof. intros H. unfold ping_host_system. rewrite H. reflexivity. Qed.

Lemma try_snmp_community_rejects (router_ip community : string)
  (s : State) :
  validate_ip_string (Some router_ip) = 0 ->
  try_snmp_community env router_ip community s = (0, s).
Proof. intros H. unfold try_snmp_community. rewrite H. reflexivity. Qed.

Lemma discover_nexthop_routers_rejects (router_ip community : string)
  (n : nat) (s : State) :
  validate_ip_string (Some router_ip) = 0 ->
  discover_nexthop_routers env router_ip community n s = ([], s).
Proof.
  intros H. unfold discover_nexthop_routers. rewrite H. reflexivity.
Qed.

Lemma discover_router_interfaces_rejects (router_ip community : string)
  (n : nat) (s : State) :
  validate_ip_string (Some router_ip) = 0 ->
  discover_router_interfaces env router_ip community n s = ([], s).
Proof.
  intros H. unfold discover_router_interfaces. rewrite H. reflexivity.
Qed.

Lemma discover_snmp_arp_rejects (router_ip community : string)
  (s : State) :
  validate_ip_string (Some router_ip) = 0 ->
  discover_snmp_arp env router_ip community s = (-1, s).
Proof. intros H. unfold discover_snmp_arp. rewrite H. reflexivity. Qed.

End Rejection.

(** * The registry holds validated addresses only *)

Lemma registry_valid_on_hosts : on_hosts registry_valid.
Proof. intros s s' E H. unfold registry_valid in *. rewrite E. exact H. Qed.

Lemma valid_ip_true (ip : string) :
  valid_ip ip = true <-> validate_ip_string (Some ip) = 1.
Proof.
  unfold valid_ip.
  destruct (validate_ip_string_01 (Some ip)) as [E|E]; rewrite E; simpl;
    split; intros H; try reflexivity; discriminate.
Qed.

Lemma take_chars (n : nat) (s : string) (c : ascii) :
  In c (list_ascii_of_string (CStr.take n s)) ->
  In c (list_ascii_of_string s).
Proof.
  revert s. induction n as [|n IH]; intros [|a s]; simpl; try tauto.
  intros [H|H]; [left; exact H|right; apply IH, H].
Qed.

(** A validated address is still valid after [strncpy] into a buffer of
    [MAX_IP_LEN] characters. *)
Lemma valid_ip_bounded (ip : string) :
  valid_ip ip = true -> valid_ip (CStr.bounded MAX_IP_LEN ip) = true.
Proof.
  rewrite !valid_ip_true, !validate_ip_string_1. intros [Hne H]. split.
  - destruct ip; [congruence|discriminate].
  - intros c Hc. apply H. eapply take_chars, Hc.
Qed.

Lemma add_host_valid (ip : string) (rt : Z) :
  valid_ip ip = true -> preserves registry_valid (add_host ip rt).
Proof.
  intros H s Hs. unfold registry_valid in *. simpl.
  apply Forall_app. split; [exact Hs|].
  constructor; [|constructor]. simpl. apply valid_ip_bounded, H.
Qed.

Lemma add_if_new_valid (ip : string) (rt : Z) :
  valid_ip ip = true -> preserves registry_valid (add_if_new ip rt).
Proof.
  intros H. unfold add_if_new.
  apply preserves_bind; [apply preserves_get_hosts|]. intros hosts.
  destruct (already_found ip hosts); [apply preserves_ret|].
  apply preserves_bind; [apply add_host_valid, H|].
  intros _. apply preserves_ret.
Qed.

Lemma reset_hosts_valid (P : State -> Prop) :
  hoare P reset_hosts (fun _ => registry_valid).
Proof. intros s _. constructor. Qed.

(** An entry point that starts with [discovered_count = 0] establishes the
    invariant when the rest of it keeps the invariant. *)
Lemma after_reset {A : Type} (m : M A) (P : State -> Prop) :
  preserves registry_valid m ->
  hoare P (reset_hosts ;; m) (fun _ => registry_valid).
Proof.
  intros Hm. eapply hoare_bind; [apply reset_hosts_valid|].
  intros u. exact Hm.
Qed.

Section RegistryValid.

Variable env : Env.

(** A probe answers with a positive time only for a validated address,
    and leaves the registry as it was. *)
Lemma ping_host_system_valid (ip_addr : string) :
  hoare registry_valid (ping_host_system env ip_addr)
    (fun r s => registry_valid s /\ (r > 0 -> valid_ip ip_addr = true)).
Proof.
  intros s Hs. unfold ping_host_system, valid_ip.
  destruct (validate_ip_string (Some ip_addr) =? 0) eqn:E.
  - simpl. split; [exact Hs|lia].
  - unfold bind, popen.
    destruct (popen_stdout env (commands s) (ping_command ip_addr));
      simpl; (split; [exact Hs|reflexivity]).
Qed.

Lemma probe_and_add_valid (ip : string) :
  preserves registry_valid (probe_and_add env ip).
Proof.
  unfold probe_and_add. eapply hoare_bind.
  - apply ping_host_system_valid.
  - intros r s [Hs Hr]. revert s Hs. apply preserves_when.
    intros Hpos. apply add_host_valid, Hr.
    apply Z.gtb_lt in Hpos. lia.
Qed.

Lemma snmp_address_valid (result ip : string) :
  snmp_address result = Some ip -> valid_ip ip = true.
Proof.
  unfold snmp_address. destruct (CStr.strstr result "IpAddress:"); [|discriminate].
  destruct (sscanf fmt_tok _) as [|[n|tok] [|v l]]; try discriminate.
  destruct (valid_ip tok) eqn:E; [|discriminate].
  intros H. injection H as <-. exact E.
Qed.

Lemma conn_address_valid (result ip : string) :
  conn_address result = Some ip -> valid_ip ip = true.
Proof.
  unfold conn_address.
  destruct (sscanf fmt_conn result) as [|[n|a] [|[m|b] [|v l]]];
    try discriminate.
  destruct (CStr.split_last ":" b) as [[l r]|]; [|discriminate].
  destruct (valid_ip _) eqn:E; simpl; [|discriminate].
  destruct (negb _); [|discriminate].
  intros H. injection H as <-. exact E.
Qed.

Lemma snmp_arp_line_valid (result : string) (n : Z) :
  preserves registry_valid (snmp_arp_line result n).
Proof.
  unfold snmp_arp_line. destruct (snmp_address result) as [ip|] eqn:E;
    [|apply preserves_ret].
  apply preserves_bind; [apply add_if_new_valid, (snmp_address_valid _ _ E)|].
  intros b. apply preserves_ret.
Qed.

Lemma conn_line_valid (result : string) (u : unit) :
  preserves registry_valid (conn_line result u).
Proof.
  unfold conn_line. destruct (conn_address result) as [ip|] eqn:E;
    [|apply preserves_ret].
  apply preserves_bind; [apply add_if_new_valid, (conn_address_valid _ _ E)|].
  intros b. apply preserves_ret.
Qed.

Lemma arp_cache_line_valid (result : string) (u : unit) :
  preserves registry_valid (arp_cache_line result u).
Proof.
  unfold arp_cache_line.
  destruct (sscanf fmt_neigh result) as [|[n1|ip] [|[n2|iface] [|[n3|mac] more]]];
    try (destruct (sscanf fmt_arp result) as [|[n'|ip'] [|[m'|mac'] [|v' l']]];
         try apply preserves_ret;
         apply preserves_when; intros H;
         apply andb_true_iff in H; apply add_host_valid, H).
Qed.

Lemma auto_arp_line_valid (result state : string) :
  preserves registry_valid (auto_arp_line result state).
Proof.
  assert (Hadd : forall ip (b : bool) (st : string),
             preserves registry_valid
               ((if valid_ip ip && b
                 then _ <- add_if_new ip 0 ;; ret tt else ret tt) ;;
                ret st)).
  { intros ip b st. apply preserves_bind; [|intros; apply preserves_ret].
    destruct (valid_ip ip) eqn:E; simpl; [|apply preserves_ret].
    destruct b; [|apply preserves_ret].
    apply preserves_bind; [apply add_if_new_valid, E|].
    intros; apply preserves_ret. }
  unfold auto_arp_line.
  destruct (sscanf fmt_neigh result) as [|[n1|ip] [|[n2|iface] [|[n3|mac] more]]];
    try (destruct (sscanf fmt_arp result) as [|[n'|ip'] [|[m'|mac'] [|v' l']]];
         try apply preserves_ret; apply Hadd).
Qed.

End RegistryValid.

(** The routine steps of a proof that the registry stays valid. *)
Ltac valid_step :=
  first
    [ apply preserves_ret
    | apply preserves_get_hosts
    | apply preserves_get_count
    | apply preserves_get_local_network_info
    | apply preserves_popen; apply registry_valid_on_hosts
    | apply preserves_print; apply registry_valid_on_hosts
    | apply probe_and_add_valid
    | apply snmp_arp_line_valid
    | apply conn_line_valid
    | apply arp_cache_line_valid
    | apply auto_arp_line_valid
    | apply preserves_for_each; intros
    | apply preserves_when; intros
    | apply preserves_bind; [|intros] ].

Section EntryPointsValid.

Variable env : Env.

Lemma probe_then_add_valid (ip : string) (k : M unit) :
  preserves registry_valid k ->
  preserves registry_valid
    (response_time <- ping_host_system env ip ;;
     when (response_time >? 0) (add_host ip response_time) ;; k).
Proof.
  intros Hk. eapply hoare_bind; [apply ping_host_system_valid|].
  intros r s [Hs Hr]. revert s Hs.
  apply preserves_bind; [|intros; exact Hk].
  apply preserves_when. intros Hpos.
  apply add_host_valid, Hr. apply Z.gtb_lt in Hpos. lia.
Qed.

Lemma discover_network_valid (P : State -> Prop) :
  hoare P (discover_network env) (fun _ => registry_valid).
Proof.
  unfold discover_network. apply after_reset.
  apply preserves_bind; [valid_step|]. intros [[[l n] m]|]; [|valid_step].
  apply preserves_bind; [|intros; valid_step].
  apply preserves_for_each. intros i u.
  apply probe_then_add_valid. repeat valid_step.
Qed.

Lemma discover_network_quick_valid (P : State -> Prop) :
  hoare P (discover_network_quick env) (fun _ => registry_valid).
Proof.
  unfold discover_network_quick.
  apply after_reset.
  apply preserves_bind; [valid_step|]. intros [[[l n] m]|]; [|valid_step].
  destruct (parse_ip n (indet env)) as [[[n0 n1] n2] n3].
  repeat valid_step.
  destruct (CStr.streq _ _); repeat valid_step.
Qed.

Lemma traceroute_discover_valid (target_ip : string) :
  preserves registry_valid (traceroute_discover env target_ip).
Proof.
  unfold traceroute_discover.
  destruct (validate_ip_string (Some target_ip) =? 0); [valid_step|].
  apply preserves_bind; [valid_step|]. intros [text|]; [|valid_step].
  repeat valid_step.
  unfold traceroute_line.
  destruct (sscanf fmt_hop x) as [|[n|a] [|[m|ip] [|v l]]];
    try valid_step.
  destruct (validate_ip_string (Some ip) =? 0); valid_step.
Qed.

Lemma scan_subnet_valid (network_addr : string) (prefix_len : Z) :
  preserves registry_valid (scan_subnet env network_addr prefix_len).
Proof.
  unfold scan_subnet. destruct (_ <=? 0); [valid_step|].
  apply preserves_for_each. intros i n.
  eapply hoare_bind; [apply ping_host_system_valid|].
  intros r s [Hs Hr]. revert s Hs.
  apply preserves_bind; [|intros; repeat valid_step].
  destruct (r >? 0) eqn:E; [|valid_step].
  apply preserves_bind; [|intros; valid_step].
  apply add_if_new_valid, Hr. apply Z.gtb_lt in E. lia.
Qed.

Lemma scan_gateway_valid (network_addr gateway : string) (n : Z) :
  preserves registry_valid (scan_gateway env network_addr gateway n).
Proof.
  unfold scan_gateway.
  destruct (parse_ip gateway (indet env)) as [[[g0 g1] g2] g3].
  destruct (is_private _); [|valid_step].
  destruct (parse_ip network_addr (indet env)) as [[[l0 l1] l2] l3].
  destruct (_ && _); [valid_step|].
  apply preserves_bind; [apply scan_subnet_valid|intros; valid_step].
Qed.

Lemma trace_and_scan_valid (network_addr : string) (targets : list string)
  (n : Z) :
  preserves registry_valid (trace_and_scan env network_addr targets n).
Proof.
  induction targets as [|t targets IH]; simpl; [valid_step|].
  apply preserves_bind; [apply traceroute_discover_valid|].
  intros [r gateways]. destruct (r >? 0); [|exact IH].
  apply preserves_for_each. intros. apply scan_gateway_valid.
Qed.

Lemma discover_multi_subnet_valid (P : State -> Prop) :
  hoare P (discover_multi_subnet env) (fun _ => registry_valid).
Proof.
  unfold discover_multi_subnet.
  apply after_reset.
  apply preserves_bind; [valid_step|]. intros [[[l n] m]|]; [|valid_step].
  apply preserves_bind; [apply scan_subnet_valid|]. intros found.
  apply preserves_bind; [apply trace_and_scan_valid|intros; valid_step].
Qed.

Lemma discover_arp_cache_valid (P : State -> Prop) :
  hoare P (discover_arp_cache env) (fun _ => registry_valid).
Proof.
  unfold discover_arp_cache.
  apply after_reset.
  apply preserves_bind; [valid_step|]. intros [text|]; repeat valid_step.
Qed.

Lemma discover_snmp_arp_valid (router_ip community : string) :
  preserves registry_valid (discover_snmp_arp env router_ip community).
Proof.
  unfold discover_snmp_arp.
  destruct (_ =? 0); [valid_step|]. destruct (negb _); [valid_step|].
  apply preserves_bind; [valid_step|]. intros [text|]; repeat valid_step.
Qed.

Lemma discover_netstat_valid (P : State -> Prop) :
  hoare P (discover_netstat env) (fun _ => registry_valid).
Proof.
  unfold discover_netstat.
  apply after_reset.
  apply preserves_bind; [valid_step|]. intros [text|]; repeat valid_step.
Qed.

Lemma efficient_gateway_valid (text : string) :
  preserves registry_valid (efficient_gateway text).
Proof.
  unfold efficient_gateway.
  destruct (CStr.fgets MAX_IP_LEN text) as [[line rest]|]; [|valid_step].
  destruct (valid_ip (chomp line)) eqn:E; [|valid_step].
  apply preserves_bind; [apply add_if_new_valid, E|intros; valid_step].
Qed.

Lemma discover_efficient_valid (P : State -> Prop) :
  hoare P (discover_efficient env) (fun _ => registry_valid).
Proof.
  unfold discover_efficient. apply after_reset.
  apply preserves_bind;
    [intros s _; apply (discover_arp_cache_valid (fun _ => True)), I|].
  intros r.
  apply preserves_bind; [valid_step|]. intros fp.
  apply preserves_bind; [destruct fp; repeat valid_step|]. intros _.
  apply preserves_bind; [valid_step|]. intros fp'.
  apply preserves_bind; [|intros; valid_step].
  destruct fp'; [apply efficient_gateway_valid|valid_step].
Qed.

End EntryPointsValid.

Section AutomaticValid.

Variable env : Env.

Lemma interface_line_valid (result : string) (l : list string) :
  hoare (fun s => registry_valid s /\ all_valid l)
    (interface_line result l)
    (fun l' s => registry_valid s /\ all_valid l').
Proof.
  intros s [Hs Hl]. unfold interface_line. simpl. split; [exact Hs|].
  destruct (snmp_address result) as [ip|] eqn:E; [|exact Hl].
  destruct (CStr.has_prefix _ _); [exact Hl|].
  destruct (in_list _ _); [exact Hl|].
  apply Forall_app. split; [exact Hl|]. constructor; [|constructor].
  apply valid_ip_bounded, (snmp_address_valid _ _ E).
Qed.

Lemma nexthop_line_valid (router_ip result : string) (l : list string) :
  hoare (fun s => registry_valid s /\ all_valid l)
    (nexthop_line env router_ip result l)
    (fun l' s => registry_valid s /\ all_valid l').
Proof.
  intros s [Hs Hl]. unfold nexthop_line. simpl. split; [exact Hs|].
  destruct (snmp_address result) as [ip|] eqn:E; [|exact Hl].
  destruct (CStr.streq ip "0.0.0.0"); [exact Hl|].
  destruct (negb _); [exact Hl|].
  destruct (CStr.streq ip router_ip); [exact Hl|].
  destruct (in_list _ _); [exact Hl|].
  apply Forall_app. split; [exact Hl|]. constructor; [|constructor].
  apply valid_ip_bounded, (snmp_address_valid _ _ E).
Qed.

Lemma discover_router_interfaces_valid (router_ip community : string)
  (n : nat) :
  hoare registry_valid (discover_router_interfaces env router_ip community n)
    (fun l s => registry_valid s /\ all_valid l).
Proof.
  unfold discover_router_interfaces.
  destruct (_ || _);
    [apply hoare_ret; intros s Hs; split; [exact Hs|constructor]|].
  eapply hoare_bind;
    [apply (preserves_popen env _ _ registry_valid_on_hosts)|].
  intros [text|];
    [|apply hoare_ret; intros s Hs; split; [exact Hs|constructor]].
  eapply hoare_weaken;
    [apply (hoare_for_each _ _
              (fun l s => registry_valid s /\ all_valid l))| |].
  - intros x a _. apply interface_line_valid.
  - intros s Hs. split; [exact Hs|constructor].
  - intros a s H. exact H.
Qed.

Lemma discover_nexthop_routers_valid (router_ip community : string)
  (n : nat) :
  hoare registry_valid (discover_nexthop_routers env router_ip community n)
    (fun l s => registry_valid s /\ all_valid l).
Proof.
  unfold discover_nexthop_routers.
  destruct (_ || _);
    [apply hoare_ret; intros s Hs; split; [exact Hs|constructor]|].
  eapply hoare_bind;
    [apply (preserves_popen env _ _ registry_valid_on_hosts)|].
  intros [text|];
    [|apply hoare_ret; intros s Hs; split; [exact Hs|constructor]].
  eapply hoare_weaken;
    [apply (hoare_for_each _ _
              (fun l s => registry_valid s /\ all_valid l))| |].
  - intros x a _. apply nexthop_line_valid.
  - intros s Hs. split; [exact Hs|constructor].
  - intros a s H. exact H.
Qed.

Lemma try_snmp_community_valid (router_ip community : string) :
  preserves registry_valid (try_snmp_community env router_ip community).
Proof.
  unfold try_snmp_community.
  destruct (_ =? 0); [valid_step|]. destruct (_ =? 0); [valid_step|].
  apply preserves_bind; [valid_step|]. intros [text|]; repeat valid_step.
Qed.

(** A loop whose elements are all valid addresses and whose body keeps
    the registry valid for a valid address. *)
Lemma for_each_valid {A : Type} (guard : A -> State -> bool)
  (body : string -> A -> M A) (l : list string) (a : A) :
  all_valid l ->
  (forall ip b, valid_ip ip = true -> preserves registry_valid (body ip b)) ->
  preserves registry_valid (for_each guard body l a).
Proof.
  intros Hl Hbody.
  apply (hoare_for_each guard body (fun _ => registry_valid)).
  intros ip b Hin. apply Hbody.
  unfold all_valid in Hl. rewrite Forall_forall in Hl. apply Hl, Hin.
Qed.

Lemma add_nexthop_valid (nexthop : string) (l : list string) :
  valid_ip nexthop = true -> preserves registry_valid (add_nexthop nexthop l).
Proof.
  intros H. unfold add_nexthop.
  apply preserves_bind; [valid_step|]. intros hosts.
  apply preserves_bind; [|intros; valid_step].
  apply preserves_when. intros _. apply add_host_valid, H.
Qed.

Lemma try_communities_valid (current_router : string) (cs l : list string) :
  preserves registry_valid (try_communities env current_router cs l).
Proof.
  induction cs as [|c cs IH]; simpl; [valid_step|].
  eapply hoare_bind; [apply discover_router_interfaces_valid|].
  intros ifaces s [Hs Hi]. revert s Hs.
  destruct (0 <? Datatypes.length ifaces)%nat; [|exact IH].
  apply preserves_bind.
  { apply for_each_valid; [exact Hi|]. intros ip b Hip.
    apply preserves_bind; [apply add_if_new_valid, Hip|intros; valid_step]. }
  intros u. eapply hoare_bind; [apply discover_nexthop_routers_valid|].
  intros nexthops s [Hs Hn]. revert s Hs.
  apply preserves_bind.
  { apply for_each_valid; [exact Hn|]. intros ip b Hip.
    apply add_nexthop_valid, Hip. }
  intros l'. apply preserves_bind; [apply try_snmp_community_valid|].
  intros; valid_step.
Qed.

Lemma walk_routers_valid (fuel : nat) (w : walk) :
  preserves registry_valid (walk_routers env fuel w).
Proof.
  revert w. induction fuel as [|fuel IH]; intros w; cbn [walk_routers];
    [valid_step|].
  destruct (_ && _); [|valid_step].
  apply preserves_bind; [valid_step|]. intros u.
  apply preserves_bind; [apply try_communities_valid|]. intros r. apply IH.
Qed.

Lemma get_default_gateway_valid :
  hoare registry_valid (get_default_gateway env)
    (fun r s => registry_valid s /\ (fst r <> 0 -> valid_ip (snd r) = true)).
Proof.
  unfold get_default_gateway.
  eapply hoare_bind;
    [apply (preserves_popen env _ _ registry_valid_on_hosts)|].
  intros [text|]; [|apply hoare_ret; intros s Hs; split; [exact Hs|easy]].
  destruct (CStr.fgets MAX_IP_LEN text) as [[line rest]|];
    [|apply hoare_ret; intros s Hs; split; [exact Hs|easy]].
  apply hoare_ret. intros s Hs. split; [exact Hs|]. simpl.
  unfold valid_ip. intros H. apply negb_true_iff, Z.eqb_neq, H.
Qed.

Lemma automatic_snmp_valid : preserves registry_valid (automatic_snmp env).
Proof.
  unfold automatic_snmp.
  eapply hoare_bind; [apply get_default_gateway_valid|].
  intros [ok gateway] s [Hs Hg]. revert s Hs. simpl in Hg.
  destruct (ok =? 0) eqn:E; [valid_step|].
  apply Z.eqb_neq in E.
  apply preserves_bind; [apply add_host_valid, Hg, E|].
  intros u. apply walk_routers_valid.
Qed.

Lemma automatic_local_valid : preserves registry_valid (automatic_local env).
Proof.
  unfold automatic_local.
  apply preserves_bind; [valid_step|]. intros fp.
  apply preserves_bind; [destruct fp; repeat valid_step|]. intros u.
  apply preserves_bind; [valid_step|]. intros [text|]; repeat valid_step.
Qed.

Lemma discover_automatic_valid (P : State -> Prop) :
  hoare P (discover_automatic env) (fun _ => registry_valid).
Proof.
  unfold discover_automatic. apply after_reset.
  apply preserves_bind; [apply automatic_snmp_valid|]. intros w.
  apply preserves_bind; [apply automatic_local_valid|]. intros u.
  valid_step.
Qed.

Lemma discover_custom_subnet_valid (P : State -> Prop)
  (subnet_cidr : string) :
  hoare P (discover_custom_subnet env subnet_cidr)
    (fun _ => registry_valid).
Proof.
  unfold discover_custom_subnet. apply after_reset.
  assert (Hscan : forall network prefix_len,
             preserves registry_valid
               (if validate_ip_string (Some network) =? 0 then ret (-1)
                else scan_subnet env network prefix_len)).
  { intros network prefix_len. destruct (_ =? 0); [valid_step|].
    apply scan_subnet_valid. }
  destruct (split_first "/" subnet_cidr) as [[before after]|];
    [|apply Hscan].
  destruct (strtol after) as [parsed_prefix endptr].
  destruct (negb _); [valid_step|].
  destruct (_ || _); [valid_step|apply Hscan].
Qed.

End AutomaticValid.

(** * Sequences of calls *)

Lemma run_call_valid (env : Env) (c : call) (s : State) :
  registry_valid s -> registry_valid (run_call env c s).
Proof.
  intros Hs. destruct c; simpl.
  - apply (discover_network_valid env registry_valid), Hs.
  - apply (discover_network_quick_valid env registry_valid), Hs.
  - apply (discover_multi_subnet_valid env registry_valid), Hs.
  - apply (discover_custom_subnet_valid env registry_valid), Hs.
  - apply (discover_arp_cache_valid env registry_valid), Hs.
  - apply (discover_snmp_arp_valid env), Hs.
  - apply (discover_netstat_valid env registry_valid), Hs.
  - apply (discover_efficient_valid env registry_valid), Hs.
  - apply (discover_automatic_valid env registry_valid), Hs.
  - apply (traceroute_discover_valid env), Hs.
  - apply (scan_subnet_valid env), Hs.
Qed.

Lemma run_calls_valid (env : Env) (cs : list call) (s : State) :
  registry_valid s -> registry_valid (run_calls env cs s).
Proof.
  revert s. induction cs as [|c cs IH]; intros s Hs; simpl; [exact Hs|].
  apply IH, run_call_valid, Hs.
Qed.

(** * C5 *)

(** C5: an address string with a character other than a decimal digit or
    a dot is refused by the prober [ping_host_system] and by the router
    queries [try_snmp_community], [discover_nexthop_routers],
    [discover_router_interfaces] and [discover_snmp_arp]: each returns its
    failure value and leaves the state as it was, so that no command was
    given to [popen]; and after any sequence of calls of the module, started
    with an empty registry, the string is not in the registry. *)
Theorem malformed_address_rejected :
  forall (env : Env) (ip_addr community : string) (c : ascii) (n : nat)
         (s : State) (calls : list call),
    In c (list_ascii_of_string ip_addr) ->
    ~ In c ip_charset ->
    ping_host_system env ip_addr s = (-1, s)
    /\ try_snmp_community env ip_addr community s = (0, s)
    /\ discover_nexthop_routers env ip_addr community n s = ([], s)
    /\ discover_router_interfaces env ip_addr community n s = ([], s)
    /\ discover_snmp_arp env ip_addr community s = (-1, s)
    /\ ~ In ip_addr
         (map ip_address
            (discovered_hosts (run_calls env calls initial_state))).
Proof.
  intros env ip_addr community c n s calls Hc Hbad.
  pose proof (validate_ip_string_bad ip_addr c Hc Hbad) as H0.
  repeat split.
  - apply ping_host_system_rejects, H0.
  - apply try_snmp_community_rejects, H0.
  - apply discover_nexthop_routers_rejects, H0.
  - apply discover_router_interfaces_rejects, H0.
  - apply discover_snmp_arp_rejects, H0.
  - intros Hin. apply in_map_iff in Hin. destruct Hin as [h [Eh Hin]].
    assert (Hv : registry_valid (run_calls env calls initial_state))
      by (apply run_calls_valid; constructor).
    unfold registry_valid in Hv. rewrite Forall_forall in Hv.
    specialize (Hv h Hin). rewrite Eh in Hv.
    apply valid_ip_true in Hv. congruence.
Qed.

Lemma malformed_address_rejected_witness :
  ping_host_system Sample.env "10.0.0.1;id" initial_state
  = (-1, initial_state)
  /\ try_snmp_community Sample.env "10.0.0.1;id" "public" initial_state
     = (0, initial_state)
  /\ discover_nexthop_routers Sample.env "10.0.0.1;id" "public" 30
       initial_state = ([], initial_state)
  /\ discover_router_interfaces Sample.env "10.0.0.1;id" "public" 30
       initial_state = ([], initial_state)
  /\ discover_snmp_arp Sample.env "10.0.0.1;id" "public" initial_state
     = (-1, initial_state)
  /\ ~ In "10.0.0.1;id"
       (map ip_address
          (discovered_hosts
             (run_calls Sample.env
                [call_discover_automatic; call_scan_subnet "10.0.0.0" 30]
                initial_state))).
Proof.
  apply (malformed_address_rejected Sample.env "10.0.0.1;id" "public" ";"
           30 initial_state
           [call_discover_automatic; call_scan_subnet "10.0.0.0" 30]).
  - vm_compute. tauto.
  - vm_compute. intuition discriminate.
Defined.

(** * The commands given to popen *)

Section Commands.

Variable I : State -> Prop.
Hypothesis HI : on_commands I.

Lemma add_host_commands (ip : string) (rt : Z) : preserves I (add_host ip rt).
Proof. intros s Hs. apply (HI s); [reflexivity|exact Hs]. Qed.

Lemma print_commands (o : output) : preserves I (print o).
Proof. intros s Hs. apply (HI s); [reflexivity|exact Hs]. Qed.

Lemma reset_hosts_commands : preserves I reset_hosts.
Proof. intros s Hs. apply (HI s); [reflexivity|exact Hs]. Qed.

Lemma add_if_new_commands (ip : string) (rt : Z) :
  preserves I (add_if_new ip rt).
Proof.
  unfold add_if_new. apply preserves_bind; [apply preserves_get_hosts|].
  intros hosts. destruct (already_found ip hosts); [apply preserves_ret|].
  apply preserves_bind; [apply add_host_commands|intros; apply preserves_ret].
Qed.

Lemma snmp_arp_line_commands (result : string) (n : Z) :
  preserves I (snmp_arp_line result n).
Proof.
  unfold snmp_arp_line. destruct (snmp_address result); [|apply preserves_ret].
  apply preserves_bind; [apply add_if_new_commands|].
  intros; apply preserves_ret.
Qed.

Lemma conn_line_commands (result : string) (u : unit) :
  preserves I (conn_line result u).
Proof.
  unfold conn_line. destruct (conn_address result); [|apply preserves_ret].
  apply preserves_bind; [apply add_if_new_commands|].
  intros; apply preserves_ret.
Qed.

Lemma auto_arp_line_commands (result state : string) :
  preserves I (auto_arp_line result state).
Proof.
  assert (Hadd : forall ip (b : bool) (st : string),
             preserves I
               ((if b then _ <- add_if_new ip 0 ;; ret tt else ret tt) ;;
                ret st)).
  { intros ip b st. apply preserves_bind; [|intros; apply preserves_ret].
    destruct b; [|apply preserves_ret].
    apply preserves_bind; [apply add_if_new_commands|].
    intros; apply preserves_ret. }
  unfold auto_arp_line.
  destruct (sscanf fmt_neigh result) as [|[n1|ip] [|[n2|iface] [|[n3|mac] more]]];
    try (destruct (sscanf fmt_arp result) as [|[n'|ip'] [|[m'|mac'] [|v' l']]];
         try apply preserves_ret; apply Hadd).
Qed.

End Commands.

(** [commands s = X] reads the commands only. *)
Lemma logged_on_commands (X : list string) :
  on_commands (fun s => commands s = X).
Proof. intros s s' E H. congruence. Qed.

Section Acceptance.

Variable env : Env.

(** A validated address reaches [popen]. *)
Lemma ping_host_system_command (ip_addr : string) (s : State) :
  validate_ip_string (Some ip_addr) = 1 ->
  commands (snd (ping_host_system env ip_addr s))
  = (commands s ++ [ping_command ip_addr])%list.
Proof.
  intros H. unfold ping_host_system. rewrite H. simpl.
  unfold bind, popen.
  destruct (popen_stdout env (commands s) (ping_command ip_addr));
    reflexivity.
Qed.

(** A query that gives one command and then only reads its output. *)
Lemma one_command {A B : Type} (cmd : string) (k : option string -> M A)
  (s : State) :
  (forall fp X, preserves (fun s => commands s = X) (k fp)) ->
  commands (snd (bind (popen env cmd) k s)) = (commands s ++ [cmd])%list.
Proof.
  intros Hk. unfold bind, popen. apply Hk. reflexivity.
Qed.

Lemma try_snmp_community_command (router_ip community : string)
  (s : State) :
  validate_ip_string (Some router_ip) = 1 ->
  validate_community_string (Some community) = 1 ->
  commands (snd (try_snmp_community env router_ip community s))
  = (commands s
     ++ [snmpwalk_command router_ip community "1.3.6.1.2.1.4.22.1.3"])%list.
Proof.
  intros H1 H2. unfold try_snmp_community. rewrite H1, H2. simpl.
  apply (one_command (B := unit)). intros [text|] X; [|apply preserves_ret].
  apply preserves_for_each. intros.
  apply snmp_arp_line_commands, logged_on_commands.
Qed.

Lemma discover_snmp_arp_command (router_ip community : string)
  (s : State) :
  validate_ip_string (Some router_ip) = 1 ->
  community_chars_ok community = true ->
  commands (snd (discover_snmp_arp env router_ip community s))
  = (commands s ++ [snmp_arp_command router_ip community])%list.
Proof.
  intros H1 H2. unfold discover_snmp_arp. rewrite H1, H2. simpl.
  apply (one_command (B := unit)). intros [text|] X; [|apply preserves_ret].
  apply preserves_for_each. intros.
  apply snmp_arp_line_commands, logged_on_commands.
Qed.

Lemma discover_nexthop_routers_command (router_ip community : string)
  (n : nat) (s : State) :
  validate_ip_string (Some router_ip) = 1 ->
  validate_community_string (Some community) = 1 ->
  commands (snd (discover_nexthop_routers env router_ip community n s))
  = (commands s
     ++ [snmpwalk_command router_ip community "1.3.6.1.2.1.4.21.1.7"])%list.
Proof.
  intros H1 H2. unfold discover_nexthop_routers. rewrite H1, H2. simpl.
  apply (one_command (B := unit)). intros [text|] X; [|apply preserves_ret].
  apply preserves_for_each. intros. apply preserves_ret.
Qed.

Lemma discover_router_interfaces_command (router_ip community : string)
  (n : nat) (s : State) :
  validate_ip_string (Some router_ip) = 1 ->
  validate_community_string (Some community) = 1 ->
  commands (snd (discover_router_interfaces env router_ip community n s))
  = (commands s
     ++ [snmpwalk_command router_ip community "1.3.6.1.2.1.4.20.1.1"])%list.
Proof.
  intros H1 H2. unfold discover_router_interfaces. rewrite H1, H2. simpl.
  apply (one_command (B := unit)). intros [text|] X; [|apply preserves_ret].
  apply preserves_for_each. intros. apply preserves_ret.
Qed.

End Acceptance.

(** * C10 *)

(** C10: [validate_ip_string] returns 1 exactly for the non-empty strings
    made of decimal digits and dots, and 0 for every other string and for
    the NULL pointer.  It asks for no dotted-quad structure: the strings
    "999.999.999.999", "1..2" and "...." are accepted, and the prober and the
    router queries give their command to [popen] with each of them. *)
Theorem validate_ip_string_charset :
  (forall s : string,
      (validate_ip_string (Some s) = 1 <->
       s <> "" /\
       (forall c, In c (list_ascii_of_string s) -> In c ip_charset))
      /\ (validate_ip_string (Some s) = 1 \/ validate_ip_string (Some s) = 0))
  /\ validate_ip_string None = 0
  /\ (forall (env : Env) (st : State) (n : nat) (ip : string),
         In ip ["999.999.999.999"; "1..2"; "...."] ->
         validate_ip_string (Some ip) = 1
         /\ commands (snd (ping_host_system env ip st))
            = (commands st ++ [ping_command ip])%list
         /\ commands (snd (try_snmp_community env ip "public" st))
            = (commands st
               ++ [snmpwalk_command ip "public" "1.3.6.1.2.1.4.22.1.3"])%list
         /\ commands (snd (discover_nexthop_routers env ip "public" n st))
            = (commands st
               ++ [snmpwalk_command ip "public" "1.3.6.1.2.1.4.21.1.7"])%list
         /\ commands (snd (discover_router_interfaces env ip "public" n st))
            = (commands st
               ++ [snmpwalk_command ip "public" "1.3.6.1.2.1.4.20.1.1"])%list
         /\ commands (snd (discover_snmp_arp env ip "public" st))
            = (commands st ++ [snmp_arp_command ip "public"])%list).
Proof.
  split; [|split; [reflexivity|]].
  - intros s. split; [apply validate_ip_string_1|apply validate_ip_string_01].
  - intros env st n ip Hip.
    assert (Hv : validate_ip_string (Some ip) = 1).
    { destruct Hip as [<-|[<-|[<-|[]]]]; reflexivity. }
    split; [exact Hv|]. split; [apply ping_host_system_command, Hv|].
    split; [apply try_snmp_community_command; [exact Hv|reflexivity]|].
    split; [apply discover_nexthop_routers_command; [exact Hv|reflexivity]|].
    split; [apply discover_router_interfaces_command; [exact Hv|reflexivity]|].
    apply discover_snmp_arp_command; [exact Hv|reflexivity].
Qed.

(** * The latency a probe records *)

Section Latency.

Variable env : Env.

(** The conversion [(int) (time_ms + 0.5)] of a time that is not
    negative and fits an [int]. *)
Lemma of_double_half (t : Q) :
  (0 <= t)%Q -> (t < 2147483647)%Q ->
  CInt.of_double (t + (1 # 2)) = Qfloor (t + (1 # 2))
  /\ 0 <= Qfloor (t + (1 # 2)).
Proof.
  intros H0 H1. unfold CInt.of_double.
  assert (Hle : Qle_bool 0 (t + (1 # 2)) = true)
    by (apply Qle_bool_iff; lra).
  rewrite Hle.
  assert (Hlo : 0 <= Qfloor (t + (1 # 2))).
  { change 0 with (Qfloor (inject_Z 0)). apply Qfloor_resp_le.
    change (inject_Z 0) with 0%Q. lra. }
  assert (Hhi : Qfloor (t + (1 # 2)) <= 2147483647).
  { pose proof (Qfloor_le (t + (1 # 2))) as Hf.
    assert (Hlt : Qfloor (t + (1 # 2)) < 2147483648).
    { rewrite Zlt_Qlt. change (inject_Z 2147483648) with 2147483648%Q.
      lra. }
    lia. }
  split; [|exact Hlo].
  unfold CInt.INT_MIN, CInt.INT_MAX.
  destruct (_ <=? Qfloor _) eqn:E1; [|apply Z.leb_gt in E1; lia].
  destruct (Qfloor _ <=? _) eqn:E2; [reflexivity|].
  apply Z.leb_gt in E2. lia.
Qed.

Lemma round_time_nearest (t : Q) :
  (0 <= t)%Q -> (t < 2147483647)%Q ->
  let r := Qfloor (t + (1 # 2)) in
  (inject_Z r - (1 # 2) <= t)%Q /\ (t < inject_Z r + (1 # 2))%Q
  /\ round_time t = (if r =? 0 then 1 else r).
Proof.
  intros H0 H1 r.
  pose proof (Qfloor_le (t + (1 # 2))) as Hlo.
  pose proof (Qlt_floor (t + (1 # 2))) as Hhi.
  rewrite inject_Z_plus in Hhi. change (inject_Z 1) with 1%Q in Hhi.
  fold r in Hlo, Hhi.
  split; [lra|]. split; [lra|].
  unfold round_time.
  destruct (of_double_half t H0 H1) as [E Hr]. rewrite E. fold r in Hr |- *.
  destruct (r =? 0) eqn:E0.
  - apply Z.eqb_eq in E0. rewrite E0. reflexivity.
  - apply Z.eqb_neq in E0. destruct (r <? 1) eqn:E1; [|reflexivity].
    apply Z.ltb_lt in E1. lia.
Qed.

(** The recorded latency is never 0 and never below -1. *)
Lemma round_time_pos (t : Q) : 1 <= round_time t.
Proof.
  unfold round_time. destruct (_ <? 1) eqn:E; [lia|].
  apply Z.ltb_ge in E. exact E.
Qed.

Lemma ping_reply_range (lines : list string) :
  ping_reply env lines = -1 \/ 1 <= ping_reply env lines.
Proof.
  induction lines as [|l lines IH]; simpl; [left; reflexivity|].
  destruct (CStr.strstr l "time="); [|exact IH].
  destruct (scan_float env _); [right; apply round_time_pos|left; reflexivity].
Qed.

Lemma ping_reply_silent (lines : list string) :
  (forall l, In l lines -> CStr.strstr l "time=" = None) ->
  ping_reply env lines = -1.
Proof.
  induction lines as [|l lines IH]; intros H; simpl; [reflexivity|].
  rewrite (H l (or_introl eq_refl)). apply IH.
  intros l' Hl'. apply H. right. exact Hl'.
Qed.

Lemma ping_reply_first (pre post : list string) (line p : string) :
  (forall l, In l pre -> CStr.strstr l "time=" = None) ->
  CStr.strstr line "time=" = Some p ->
  ping_reply env (pre ++ line :: post)
  = match scan_float env (CStr.drop 5 p) with
    | Some time_ms => round_time time_ms
    | None => -1
    end.
Proof.
  induction pre as [|l pre IH]; intros H Hp; simpl.
  - rewrite Hp. reflexivity.
  - rewrite (H l (or_introl eq_refl)). apply IH; [|exact Hp].
    intros l' Hl'. apply H. right. exact Hl'.
Qed.

Lemma ping_host_system_result (ip_addr : string) (s : State) :
  fst (ping_host_system env ip_addr s)
  = if validate_ip_string (Some ip_addr) =? 0 then -1
    else match popen_stdout env (commands s) (ping_command ip_addr) with
         | Some text => ping_reply env (CStr.fgets_all 256 text)
         | None => -1
         end.
Proof.
  unfold ping_host_system.
  destruct (validate_ip_string (Some ip_addr) =? 0); [reflexivity|].
  unfold bind, popen.
  destruct (popen_stdout env (commands s) (ping_command ip_addr));
    reflexivity.
Qed.

End Latency.

(** * C8 *)

(** C8: when the output of ping reports a round-trip time [t] (the first
    buffer with "time=" has the number [t] behind it), with [t] not negative
    and within the range of [int], the prober returns [t] rounded to the
    nearest integer [r] (at distance at most one half, halves rounded up),
    and 1 when [r] is 0.  A probe that fails returns the sentinel -1: when
    the address is refused, when [popen] fails, when no buffer reports a
    time, and when the number behind "time=" cannot be read.  No other
    value is ever returned: the result is -1 or at least 1. *)
Theorem ping_latency_rounding :
  (forall (env : Env) (ip_addr : string) (s : State) (text : string)
          (pre post : list string) (line p : string) (t : Q),
      validate_ip_string (Some ip_addr) = 1 ->
      popen_stdout env (commands s) (ping_command ip_addr) = Some text ->
      CStr.fgets_all 256 text = (pre ++ line :: post)%list ->
      (forall l, In l pre -> CStr.strstr l "time=" = None) ->
      CStr.strstr line "time=" = Some p ->
      scan_float env (CStr.drop 5 p) = Some t ->
      (0 <= t)%Q -> (t < 2147483647)%Q ->
      let r := Qfloor (t + (1 # 2)) in
      (inject_Z r - (1 # 2) <= t)%Q /\ (t < inject_Z r + (1 # 2))%Q
      /\ fst (ping_host_system env ip_addr s) = (if r =? 0 then 1 else r))
  /\ (forall (env : Env) (ip_addr : string) (s : State),
         (fst (ping_host_system env ip_addr s) = -1
          \/ 1 <= fst (ping_host_system env ip_addr s))
         /\ (validate_ip_string (Some ip_addr) = 0 ->
             fst (ping_host_system env ip_addr s) = -1)
         /\ (popen_stdout env (commands s) (ping_command ip_addr) = None ->
             fst (ping_host_system env ip_addr s) = -1)
         /\ (forall text,
                popen_stdout env (commands s) (ping_command ip_addr)
                = Some text ->
                (forall l, In l (CStr.fgets_all 256 text) ->
                           CStr.strstr l "time=" = None) ->
                fst (ping_host_system env ip_addr s) = -1)
         /\ (forall text pre post line p,
                popen_stdout env (commands s) (ping_command ip_addr)
                = Some text ->
                CStr.fgets_all 256 text = (pre ++ line :: post)%list ->
                (forall l, In l pre -> CStr.strstr l "time=" = None) ->
                CStr.strstr line "time=" = Some p ->
                scan_float env (CStr.drop 5 p) = None ->
                fst (ping_host_system env ip_addr s) = -1)).
Proof.
  split.
  - intros env ip_addr s text pre post line p t Hv Hp Hl Hpre Hline Ht H0 H1 r.
    destruct (round_time_nearest t H0 H1) as [Ha [Hb Hc]].
    split; [exact Ha|]. split; [exact Hb|].
    rewrite ping_host_system_result, Hv, Hp, Hl. simpl.
    rewrite (ping_reply_first env pre post line p Hpre Hline), Ht.
    exact Hc.
  - intros env ip_addr s. rewrite ping_host_system_result.
    split; [|split; [|split; [|split]]].
    + destruct (_ =? 0); [left; reflexivity|].
      destruct (popen_stdout _ _ _); [apply ping_reply_range|left; reflexivity].
    + intros H. rewrite H. reflexivity.
    + intros H. rewrite H. destruct (_ =? 0); reflexivity.
    + intros text H Hl. rewrite H. destruct (_ =? 0); [reflexivity|].
      apply ping_reply_silent, Hl.
    + intros text pre post line p H Hl Hpre Hline Hf. rewrite H, Hl.
      destruct (_ =? 0); [reflexivity|].
      rewrite (ping_reply_first env pre post line p Hpre Hline), Hf.
      reflexivity.
Qed.

Lemma ping_latency_rounding_witness :
  let r := Qfloor ((25 # 2) + (1 # 2)) in
  (inject_Z r - (1 # 2) <= 25 # 2)%Q /\ (25 # 2 < inject_Z r + (1 # 2))%Q
  /\ fst (ping_host_system Sample.env "192.168.1.7" initial_state)
     = (if r =? 0 then 1 else r).
Proof.
  apply (proj1 ping_latency_rounding Sample.env "192.168.1.7" initial_state
           ("PING 192.168.1.7 (192.168.1.7) 56(84) bytes of data." ++ Sample.nl
            ++ "64 bytes from 192.168.1.7: icmp_seq=1 ttl=64 time=12.5 ms"
            ++ Sample.nl)
           ["PING 192.168.1.7 (192.168.1.7) 56(84) bytes of data." ++ Sample.nl]
           []
           ("64 bytes from 192.168.1.7: icmp_seq=1 ttl=64 time=12.5 ms"
            ++ Sample.nl)
           ("time=12.5 ms" ++ Sample.nl) (25 # 2)%Q).
  - reflexivity.
  - reflexivity.
  - reflexivity.
  - intros l [<-|[]]. reflexivity.
  - reflexivity.
  - reflexivity.
  - vm_compute. discriminate.
  - vm_compute. reflexivity.
Defined.

(** * The run of discover_automatic *)

Lemma log_from_on_commands (L : list string) : on_commands (log_from L).
Proof. intros s s' E [X H]. exists X. congruence. Qed.

Lemma log_from_popen (env : Env) (L : list string) (cmd : string) :
  preserves (log_from L) (popen env cmd).
Proof.
  intros s [X H]. exists (X ++ [cmd])%list. simpl.
  rewrite H, app_assoc. reflexivity.
Qed.

Section LogGrows.

Variable env : Env.
Variable L : list string.

Let I := log_from L.

Ltac log_step :=
  first
    [ apply preserves_ret
    | apply preserves_get_hosts
    | apply log_from_popen
    | apply add_host_commands; apply log_from_on_commands
    | apply add_if_new_commands; apply log_from_on_commands
    | apply print_commands; apply log_from_on_commands
    | apply snmp_arp_line_commands; apply log_from_on_commands
    | apply preserves_for_each; intros
    | apply preserves_when; intros
    | apply preserves_bind; [|intros] ].

Lemma discover_router_interfaces_log (router_ip community : string)
  (n : nat) :
  preserves I (discover_router_interfaces env router_ip community n).
Proof.
  unfold discover_router_interfaces. destruct (_ || _); [log_step|].
  apply preserves_bind; [log_step|]. intros [text|]; repeat log_step.
Qed.

Lemma discover_nexthop_routers_log (router_ip community : string)
  (n : nat) :
  preserves I (discover_nexthop_routers env router_ip community n).
Proof.
  unfold discover_nexthop_routers. destruct (_ || _); [log_step|].
  apply preserves_bind; [log_step|]. intros [text|]; repeat log_step.
Qed.

Lemma try_snmp_community_log (router_ip community : string) :
  preserves I (try_snmp_community env router_ip community).
Proof.
  unfold try_snmp_community.
  destruct (_ =? 0); [log_step|]. destruct (_ =? 0); [log_step|].
  apply preserves_bind; [log_step|]. intros [text|]; repeat log_step.
Qed.

Lemma add_nexthop_log (nexthop : string) (l : list string) :
  preserves I (add_nexthop nexthop l).
Proof. unfold add_nexthop. repeat log_step. Qed.

Lemma try_communities_log (current_router : string) (cs l : list string) :
  preserves I (try_communities env current_router cs l).
Proof.
  induction cs as [|c cs IH]; cbn [try_communities]; [log_step|].
  apply preserves_bind; [apply discover_router_interfaces_log|].
  intros ifaces. destruct (0 <? _)%nat; [|exact IH].
  apply preserves_bind; [repeat log_step|]. intros u.
  apply preserves_bind; [apply discover_nexthop_routers_log|]. intros nh.
  apply preserves_bind;
    [apply preserves_for_each; intros; apply add_nexthop_log|].
  intros l'.
  apply preserves_bind; [apply try_snmp_community_log|intros; log_step].
Qed.

Lemma walk_routers_log (fuel : nat) (w : walk) :
  preserves I (walk_routers env fuel w).
Proof.
  revert w. induction fuel as [|fuel IH]; intros w; cbn [walk_routers];
    [log_step|].
  destruct (_ && _); [|log_step].
  apply preserves_bind; [log_step|]. intros u.
  apply preserves_bind; [apply try_communities_log|]. intros r. apply IH.
Qed.

End LogGrows.

Section Automatic.

Variable env : Env.

(** Steps 1 and 2 start with the command that asks for the default
    route. *)
Lemma automatic_snmp_log (s : State) :
  log_from (commands s ++ [route_command])
    (snd (automatic_snmp env s)).
Proof.
  unfold automatic_snmp, get_default_gateway.
  set (L := (commands s ++ [route_command])%list).
  assert (H : forall k : option string -> M walk,
             (forall fp, preserves (log_from L) (k fp)) ->
             log_from L (snd (bind (popen env route_command) k s))).
  { intros k Hk. unfold bind, popen. apply Hk.
    exists []. simpl. rewrite app_nil_r. reflexivity. }
  unfold bind at 1.
  change (log_from L
            (snd (bind (popen env route_command)
                    (fun fp =>
                       bind
                         match fp with
                         | Some text =>
                             match CStr.fgets MAX_IP_LEN text with
                             | Some (line, _) =>
                                 ret (validate_ip_string (Some (chomp line)),
                                      chomp line)
                             | None => ret (0, indet_str env)
                             end
                         | None => ret (0, indet_str env)
                         end
                         (fun g =>
                            let '(ok, gateway) := g in
                            if ok =? 0
                            then ret {| routers_to_query := [];
                                        routers_queried := 0;
                                        snmp_success := false |}
                            else
                              add_host gateway 0 ;;
                              walk_routers env MAX_HOPS
                                {| routers_to_query :=
                                     [CStr.bounded MAX_IP_LEN gateway];
                                   routers_queried := 0;
                                   snmp_success := false |})) s))).
  apply H. intros fp.
  apply preserves_bind.
  - destruct fp as [text|]; [|apply preserves_ret].
    destruct (CStr.fgets MAX_IP_LEN text) as [[line rest]|];
      apply preserves_ret.
  - intros [ok gateway]. destruct (ok =? 0); [apply preserves_ret|].
    apply preserves_bind;
      [apply add_host_commands, log_from_on_commands|].
    intros u. apply walk_routers_log.
Qed.

(** Steps 3 and 4 give exactly the two commands of the passive
    collectors, whatever the state they start from. *)
Lemma automatic_local_log (s : State) :
  commands (snd (automatic_local env s))
  = (commands s ++ [neigh_command; conn_command])%list.
Proof.
  unfold automatic_local.
  rewrite bind_snd. cbv beta. rewrite bind_snd. cbv beta.
  rewrite (one_command env (B := unit)).
  - match goal with
    | |- (commands (snd (?m _)) ++ _)%list = _ =>
        assert (H : preserves
                      (fun st => commands st
                                 = (commands s ++ [neigh_command])%list) m)
    end.
    { destruct (fst (popen env neigh_command s)) as [text|];
        [|apply preserves_ret].
      apply preserves_bind; [|intros; apply preserves_ret].
      apply preserves_for_each. intros.
      apply auto_arp_line_commands, logged_on_commands. }
    rewrite H; [|reflexivity]. rewrite <- app_assoc. reflexivity.
  - intros [text|] X; [|apply preserves_ret].
    apply preserves_for_each. intros.
    apply conn_line_commands, logged_on_commands.
Qed.

End Automatic.

(** * The size of the registry *)

Lemma le_count_on_hosts (n : nat) : on_hosts (le_count n).
Proof.
  intros s s' E H. unfold le_count, discovered_count in *. rewrite E. exact H.
Qed.

Lemma adds_none_one {A : Type} (m : M A) : adds_none m -> adds_one m.
Proof.
  intros H n s Hs. specialize (H n s Hs). unfold le_count in *. lia.
Qed.

Lemma adds_none_bind {A B : Type} (m : M A) (k : A -> M B) :
  adds_none m -> (forall a, adds_none (k a)) -> adds_none (bind m k).
Proof. intros Hm Hk n. apply preserves_bind; [apply Hm|intros; apply Hk]. Qed.

Lemma adds_one_bind_l {A B : Type} (m : M A) (k : A -> M B) :
  adds_one m -> (forall a, adds_none (k a)) -> adds_one (bind m k).
Proof. intros Hm Hk n. eapply hoare_bind; [apply Hm|intros; apply Hk]. Qed.

Lemma adds_one_bind_r {A B : Type} (m : M A) (k : A -> M B) :
  adds_none m -> (forall a, adds_one (k a)) -> adds_one (bind m k).
Proof. intros Hm Hk n. eapply hoare_bind; [apply Hm|intros; apply Hk]. Qed.

Lemma adds_none_ret {A : Type} (a : A) : adds_none (ret a).
Proof. intros n. apply preserves_ret. Qed.

Lemma adds_none_popen (env : Env) (cmd : string) : adds_none (popen env cmd).
Proof. intros n. apply preserves_popen, le_count_on_hosts. Qed.

Lemma adds_none_print (o : output) : adds_none (print o).
Proof. intros n. apply preserves_print, le_count_on_hosts. Qed.

Lemma adds_none_get_hosts : adds_none get_hosts.
Proof. intros n. apply preserves_get_hosts. Qed.

Lemma adds_none_get_count : adds_none get_count.
Proof. intros n. apply preserves_get_count. Qed.

Lemma adds_none_when (b : bool) (m : M unit) :
  adds_none m -> adds_none (when b m).
Proof. destruct b; intros H; [exact H|apply adds_none_ret]. Qed.

Lemma adds_one_add_host (ip : string) (rt : Z) : adds_one (add_host ip rt).
Proof.
  intros n s Hs. unfold le_count, discovered_count in *. simpl.
  rewrite length_app. simpl. lia.
Qed.

Lemma adds_one_add_if_new (ip : string) (rt : Z) :
  adds_one (add_if_new ip rt).
Proof.
  unfold add_if_new. apply adds_one_bind_r; [apply adds_none_get_hosts|].
  intros hosts. destruct (already_found ip hosts).
  - apply adds_none_one, adds_none_ret.
  - apply adds_one_bind_l; [apply adds_one_add_host|].
    intros; apply adds_none_ret.
Qed.

Lemma adds_none_for_each {X A : Type} (guard : A -> State -> bool)
  (body : X -> A -> M A) (xs : list X) (a : A) :
  (forall x b, adds_none (body x b)) -> adds_none (for_each guard body xs a).
Proof. intros H n. apply preserves_for_each. intros; apply H. Qed.

(** A loop guarded by [discovered_count < MAX_DISCOVERED_HOSTS] whose body
    stores at most one host keeps the registry within the array. *)
Lemma for_each_has_room {X A : Type} (body : X -> A -> M A) (xs : list X)
  (a : A) :
  (forall x b, adds_one (body x b)) ->
  preserves (le_count MAX_DISCOVERED_HOSTS) (for_each has_room body xs a).
Proof.
  intros Hbody. revert a.
  induction xs as [|x xs IH]; intros a s Hs; simpl; [exact Hs|].
  unfold has_room at 1. destruct (_ <? _)%nat eqn:E; [|exact Hs].
  apply Nat.ltb_lt in E.
  assert (Hx : le_count MAX_DISCOVERED_HOSTS (snd (body x a s))).
  { apply (Hbody x a (MAX_DISCOVERED_HOSTS - 1)%nat).
    unfold le_count. unfold MAX_DISCOVERED_HOSTS in *. lia. }
  destruct (body x a s) as [a' s']. apply IH, Hx.
Qed.

Section Bounded.

Variable env : Env.

Lemma adds_none_ping (ip_addr : string) :
  adds_none (ping_host_system env ip_addr).
Proof.
  unfold ping_host_system. destruct (_ =? 0); [apply adds_none_ret|].
  apply adds_none_bind; [apply adds_none_popen|].
  intros [text|]; apply adds_none_ret.
Qed.

Lemma adds_one_probe_and_add (ip : string) : adds_one (probe_and_add env ip).
Proof.
  unfold probe_and_add. apply adds_one_bind_r; [apply adds_none_ping|].
  intros r. destruct (r >? 0); [apply adds_one_add_host|].
  apply adds_none_one, adds_none_ret.
Qed.

Lemma adds_one_snmp_arp_line (result : string) (n : Z) :
  adds_one (snmp_arp_line result n).
Proof.
  unfold snmp_arp_line.
  destruct (snmp_address result); [|apply adds_none_one, adds_none_ret].
  apply adds_one_bind_l; [apply adds_one_add_if_new|].
  intros; apply adds_none_ret.
Qed.

Lemma adds_one_conn_line (result : string) (u : unit) :
  adds_one (conn_line result u).
Proof.
  unfold conn_line.
  destruct (conn_address result); [|apply adds_none_one, adds_none_ret].
  apply adds_one_bind_l; [apply adds_one_add_if_new|].
  intros; apply adds_none_ret.
Qed.

Lemma adds_one_when_add_host (b : bool) (ip : string) (rt : Z) :
  adds_one (when b (add_host ip rt)).
Proof.
  destruct b; [apply adds_one_add_host|apply adds_none_one, adds_none_ret].
Qed.

Lemma adds_one_arp_cache_line (result : string) (u : unit) :
  adds_one (arp_cache_line result u).
Proof.
  unfold arp_cache_line.
  destruct (sscanf fmt_neigh result) as [|[n1|ip] [|[n2|iface] [|[n3|mac] more]]];
    try apply adds_one_when_add_host;
    destruct (sscanf fmt_arp result) as [|[n'|ip'] [|[m'|mac'] [|v' l']]];
    first [apply adds_one_when_add_host
          |apply adds_none_one, adds_none_ret].
Qed.

Lemma adds_one_auto_arp_line (result state : string) :
  adds_one (auto_arp_line result state).
Proof.
  assert (Hadd : forall ip (b : bool) (st : string),
             adds_one
               ((if b then _ <- add_if_new ip 0 ;; ret tt else ret tt) ;;
                ret st)).
  { intros ip b st. apply adds_one_bind_l; [|intros; apply adds_none_ret].
    destruct b; [|apply adds_none_one, adds_none_ret].
    apply adds_one_bind_l; [apply adds_one_add_if_new|].
    intros; apply adds_none_ret. }
  unfold auto_arp_line.
  destruct (sscanf fmt_neigh result) as [|[n1|ip] [|[n2|iface] [|[n3|mac] more]]];
    try (destruct (sscanf fmt_arp result) as [|[n'|ip'] [|[m'|mac'] [|v' l']]];
         try apply adds_none_one, adds_none_ret; apply Hadd).
Qed.

Lemma adds_none_traceroute (target_ip : string) :
  adds_none (traceroute_discover env target_ip).
Proof.
  unfold traceroute_discover. destruct (_ =? 0); [apply adds_none_ret|].
  apply adds_none_bind; [apply adds_none_popen|].
  intros [text|]; [|apply adds_none_ret].
  apply adds_none_bind; [|intros; apply adds_none_ret].
  apply adds_none_for_each. intros x b. unfold traceroute_line.
  destruct (sscanf fmt_hop x) as [|[n|a] [|[m|ip] [|v l]]];
    try apply adds_none_ret.
  destruct (_ =? 0); apply adds_none_ret.
Qed.

Lemma scan_subnet_bounded (network_addr : string) (prefix_len : Z) :
  preserves registry_bounded (scan_subnet env network_addr prefix_len).
Proof.
  unfold scan_subnet. destruct (_ <=? 0); [apply preserves_ret|].
  apply for_each_has_room. intros i n.
  apply adds_one_bind_r; [apply adds_none_ping|]. intros r.
  apply adds_one_bind_l.
  - destruct (r >? 0); [|apply adds_none_one, adds_none_ret].
    apply adds_one_bind_l; [apply adds_one_add_if_new|].
    intros; apply adds_none_ret.
  - intros n'. apply adds_none_bind; [|intros; apply adds_none_ret].
    apply adds_none_when, adds_none_print.
Qed.

End Bounded.

Lemma le_count_weaken (n m : nat) (s : State) :
  (n <= m)%nat -> le_count n s -> le_count m s.
Proof. unfold le_count. lia. Qed.

(** An entry point that starts with [discovered_count = 0]. *)
Lemma after_reset_bounded {A : Type} (m : M A) (P : State -> Prop) :
  hoare (le_count 0) m (fun _ => registry_bounded) ->
  hoare P (reset_hosts ;; m) (fun _ => registry_bounded).
Proof.
  intros Hm. eapply hoare_bind with (Q := fun _ => le_count 0).
  - intros s _. unfold le_count, discovered_count. simpl. lia.
  - intros u. exact Hm.
Qed.

Lemma from_empty {A : Type} (m : M A) :
  preserves registry_bounded m ->
  hoare (le_count 0) m (fun _ => registry_bounded).
Proof.
  intros H s Hs. apply H. eapply le_count_weaken; [|exact Hs].
  unfold MAX_DISCOVERED_HOSTS. lia.
Qed.

Lemma adds_none_bounded {A : Type} (m : M A) :
  adds_none m -> preserves registry_bounded m.
Proof. intros H. apply H. Qed.

Section EntryPointsBounded.

Variable env : Env.

Lemma discover_network_bounded (P : State -> Prop) :
  hoare P (discover_network env) (fun _ => registry_bounded).
Proof.
  unfold discover_network. apply after_reset_bounded, from_empty.
  apply preserves_bind; [apply preserves_get_local_network_info|].
  intros [[[l n] m]|]; [|apply preserves_ret].
  apply preserves_bind; [|intros; apply preserves_get_count].
  apply for_each_has_room. intros i u.
  apply adds_one_bind_r; [apply adds_none_ping|]. intros r.
  apply adds_one_bind_l; [apply adds_one_when_add_host|].
  intros u'. apply adds_none_when, adds_none_print.
Qed.

Lemma discover_network_quick_bounded (P : State -> Prop) :
  hoare P (discover_network_quick env) (fun _ => registry_bounded).
Proof.
  unfold discover_network_quick. apply after_reset_bounded.
  eapply hoare_bind; [apply preserves_get_local_network_info|].
  intros [[[l n] m]|];
    [|apply hoare_ret; intros s Hs; eapply le_count_weaken; [|exact Hs];
      unfold MAX_DISCOVERED_HOSTS; lia].
  destruct (parse_ip n (indet env)) as [[[n0 n1] n2] n3].
  eapply hoare_bind; [apply adds_one_probe_and_add|]. intros u.
  eapply hoare_bind; [apply adds_one_probe_and_add|]. intros u'.
  eapply hoare_weaken with (P' := registry_bounded)
                           (Q' := fun _ => registry_bounded);
    [|intros s Hs; eapply le_count_weaken; [|exact Hs];
      unfold MAX_DISCOVERED_HOSTS; lia|auto].
  apply preserves_bind; [|intros; apply preserves_get_count].
  apply for_each_has_room. intros t x.
  destruct (CStr.streq _ _); [apply adds_none_one, adds_none_ret|].
  apply adds_one_probe_and_add.
Qed.

Lemma scan_gateway_bounded (network_addr gateway : string) (n : Z) :
  preserves registry_bounded (scan_gateway env network_addr gateway n).
Proof.
  unfold scan_gateway.
  destruct (parse_ip gateway (indet env)) as [[[g0 g1] g2] g3].
  destruct (is_private _); [|apply preserves_ret].
  destruct (parse_ip network_addr (indet env)) as [[[l0 l1] l2] l3].
  destruct (_ && _); [apply preserves_ret|].
  apply preserves_bind; [apply scan_subnet_bounded|].
  intros; apply preserves_ret.
Qed.

Lemma trace_and_scan_bounded (network_addr : string)
  (targets : list string) (n : Z) :
  preserves registry_bounded (trace_and_scan env network_addr targets n).
Proof.
  induction targets as [|t targets IH]; simpl; [apply preserves_ret|].
  apply preserves_bind; [apply adds_none_bounded, adds_none_traceroute|].
  intros [r gateways]. destruct (r >? 0); [|exact IH].
  apply preserves_for_each. intros. apply scan_gateway_bounded.
Qed.

Lemma discover_multi_subnet_bounded (P : State -> Prop) :
  hoare P (discover_multi_subnet env) (fun _ => registry_bounded).
Proof.
  unfold discover_multi_subnet. apply after_reset_bounded, from_empty.
  apply preserves_bind; [apply preserves_get_local_network_info|].
  intros [[[l n] m]|]; [|apply preserves_ret].
  apply preserves_bind; [apply scan_subnet_bounded|]. intros found.
  apply preserves_bind; [apply trace_and_scan_bounded|].
  intros; apply preserves_get_count.
Qed.

Lemma discover_arp_cache_bounded (P : State -> Prop) :
  hoare P (discover_arp_cache env) (fun _ => registry_bounded).
Proof.
  unfold discover_arp_cache. apply after_reset_bounded, from_empty.
  apply preserves_bind; [apply adds_none_bounded, adds_none_popen|].
  intros [text|]; [|apply preserves_ret].
  apply preserves_bind; [|intros; apply preserves_get_count].
  apply for_each_has_room. intros. apply adds_one_arp_cache_line.
Qed.

Lemma discover_snmp_arp_bounded (router_ip community : string) :
  preserves registry_bounded (discover_snmp_arp env router_ip community).
Proof.
  unfold discover_snmp_arp.
  destruct (_ =? 0); [apply preserves_ret|].
  destruct (negb _); [apply preserves_ret|].
  apply preserves_bind; [apply adds_none_bounded, adds_none_popen|].
  intros [text|]; [|apply preserves_ret].
  apply for_each_has_room. intros. apply adds_one_snmp_arp_line.
Qed.

Lemma discover_netstat_bounded (P : State -> Prop) :
  hoare P (discover_netstat env) (fun _ => registry_bounded).
Proof.
  unfold discover_netstat. apply after_reset_bounded, from_empty.
  apply preserves_bind; [apply adds_none_bounded, adds_none_popen|].
  intros [text|]; [|apply preserves_ret].
  apply preserves_bind; [|intros; apply preserves_get_count].
  apply for_each_has_room. intros. apply adds_one_conn_line.
Qed.

Lemma try_snmp_community_bounded (router_ip community : string) :
  preserves registry_bounded (try_snmp_community env router_ip community).
Proof.
  unfold try_snmp_community.
  destruct (_ =? 0); [apply preserves_ret|].
  destruct (_ =? 0); [apply preserves_ret|].
  apply preserves_bind; [apply adds_none_bounded, adds_none_popen|].
  intros [text|]; [|apply preserves_ret].
  apply for_each_has_room. intros. apply adds_one_snmp_arp_line.
Qed.

Lemma adds_none_interfaces (router_ip community : string) (n : nat) :
  adds_none (discover_router_interfaces env router_ip community n).
Proof.
  unfold discover_router_interfaces.
  destruct (_ || _); [apply adds_none_ret|].
  apply adds_none_bind; [apply adds_none_popen|].
  intros [text|]; [|apply adds_none_ret].
  apply adds_none_for_each. intros. apply adds_none_ret.
Qed.

Lemma adds_none_nexthops (router_ip community : string) (n : nat) :
  adds_none (discover_nexthop_routers env router_ip community n).
Proof.
  unfold discover_nexthop_routers.
  destruct (_ || _); [apply adds_none_ret|].
  apply adds_none_bind; [apply adds_none_popen|].
  intros [text|]; [|apply adds_none_ret].
  apply adds_none_for_each. intros. apply adds_none_ret.
Qed.

(** The insertion of a next hop tests [discovered_count] itself. *)
Lemma add_nexthop_bounded (nexthop : string) (l : list string) :
  preserves registry_bounded (add_nexthop nexthop l).
Proof.
  intros s Hs. unfold add_nexthop, bind, get_hosts.
  destruct (negb (already_found nexthop (discovered_hosts s))); simpl;
    [|exact Hs].
  destruct (_ <? _)%nat eqn:E; simpl; [|exact Hs].
  apply Nat.ltb_lt in E.
  unfold registry_bounded, le_count, discovered_count. simpl.
  rewrite length_app. simpl. lia.
Qed.

Lemma try_communities_bounded (current_router : string)
  (cs l : list string) :
  preserves registry_bounded (try_communities env current_router cs l).
Proof.
  induction cs as [|c cs IH]; cbn [try_communities]; [apply preserves_ret|].
  apply preserves_bind; [apply adds_none_bounded, adds_none_interfaces|].
  intros ifaces. destruct (0 <? _)%nat; [|exact IH].
  apply preserves_bind.
  { apply for_each_has_room. intros ip u.
    apply adds_one_bind_l; [apply adds_one_add_if_new|].
    intros; apply adds_none_ret. }
  intros u.
  apply preserves_bind; [apply adds_none_bounded, adds_none_nexthops|].
  intros nh. apply preserves_bind.
  { apply preserves_for_each. intros. apply add_nexthop_bounded. }
  intros l'. apply preserves_bind; [apply try_snmp_community_bounded|].
  intros; apply preserves_ret.
Qed.

Lemma walk_routers_bounded (fuel : nat) (w : walk) :
  preserves registry_bounded (walk_routers env fuel w).
Proof.
  revert w. induction fuel as [|fuel IH]; intros w; cbn [walk_routers];
    [apply preserves_ret|].
  destruct (_ && _); [|apply preserves_ret].
  apply preserves_bind; [apply adds_none_bounded, adds_none_print|].
  intros u.
  apply preserves_bind; [apply try_communities_bounded|]. intros r. apply IH.
Qed.

Lemma automatic_snmp_bounded :
  hoare (le_count 0) (automatic_snmp env) (fun _ => registry_bounded).
Proof.
  unfold automatic_snmp, get_default_gateway.
  eapply hoare_bind with (Q := fun _ => le_count 0).
  - apply preserves_bind; [apply adds_none_popen|].
    intros [text|]; [|apply preserves_ret].
    destruct (CStr.fgets MAX_IP_LEN text) as [[line rest]|];
      apply preserves_ret.
  - intros [ok gateway]. destruct (ok =? 0); [apply from_empty, preserves_ret|].
    eapply hoare_bind; [apply adds_one_add_host|]. intros u.
    eapply hoare_weaken; [apply walk_routers_bounded| |auto].
    intros s Hs. eapply le_count_weaken; [|exact Hs].
    unfold MAX_DISCOVERED_HOSTS. lia.
Qed.

Lemma automatic_local_bounded :
  preserves registry_bounded (automatic_local env).
Proof.
  unfold automatic_local.
  apply preserves_bind; [apply adds_none_bounded, adds_none_popen|].
  intros fp. apply preserves_bind.
  { destruct fp as [text|]; [|apply preserves_ret].
    apply preserves_bind; [|intros; apply preserves_ret].
    apply for_each_has_room. intros. apply adds_one_auto_arp_line. }
  intros u.
  apply preserves_bind; [apply adds_none_bounded, adds_none_popen|].
  intros [text|]; [|apply preserves_ret].
  apply for_each_has_room. intros. apply adds_one_conn_line.
Qed.

Lemma discover_automatic_bounded (P : State -> Prop) :
  hoare P (discover_automatic env) (fun _ => registry_bounded).
Proof.
  unfold discover_automatic. apply after_reset_bounded.
  eapply hoare_bind; [apply automatic_snmp_bounded|]. intros w.
  apply preserves_bind; [apply automatic_local_bounded|].
  intros; apply preserves_get_count.
Qed.

Lemma discover_custom_subnet_bounded (P : State -> Prop)
  (subnet_cidr : string) :
  hoare P (discover_custom_subnet env subnet_cidr)
    (fun _ => registry_bounded).
Proof.
  unfold discover_custom_subnet. apply after_reset_bounded, from_empty.
  assert (Hscan : forall network prefix_len,
             preserves registry_bounded
               (if validate_ip_string (Some network) =? 0 then ret (-1)
                else scan_subnet env network prefix_len)).
  { intros network prefix_len. destruct (_ =? 0); [apply preserves_ret|].
    apply scan_subnet_bounded. }
  destruct (split_first "/" subnet_cidr) as [[before after]|];
    [|apply Hscan].
  destruct (strtol after) as [parsed_prefix endptr].
  destruct (negb _); [apply preserves_ret|].
  destruct (_ || _); [apply preserves_ret|apply Hscan].
Qed.

End EntryPointsBounded.

(** * C6 *)

Lemma discover_automatic_silent (env : Env) (s : State) :
  silent env -> discovered_hosts (snd (discover_automatic env s)) = [].
Proof.
  intros H.
  unfold discover_automatic, automatic_snmp, get_default_gateway,
    automatic_local, bind, popen, reset_hosts, get_count.
  cbn [commands discovered_hosts stdout].
  destruct (H (commands s) route_command) as [E|E]; rewrite E;
    cbn -[walk_routers];
    (destruct (H (commands s ++ [route_command])%list neigh_command)
      as [E1|E1]; rewrite E1; cbn -[walk_routers];
     destruct (H ((commands s ++ [route_command]) ++ [neigh_command])%list
                 conn_command) as [E2|E2]; rewrite E2; reflexivity).
Qed.

Lemma discover_automatic_count (env : Env) (s : State) :
  fst (discover_automatic env s)
  = Z.of_nat (discovered_count (snd (discover_automatic env s))).
Proof.
  unfold discover_automatic.
  rewrite bind_fst, bind_snd. cbv beta.
  rewrite bind_fst, bind_snd. cbv beta.
  rewrite bind_fst, bind_snd. cbv beta.
  reflexivity.
Qed.

Lemma discover_automatic_log (env : Env) (s : State) :
  exists X,
    commands (snd (discover_automatic env s))
    = (commands s ++ route_command :: X ++ [neigh_command; conn_command])%list.
Proof.
  unfold discover_automatic.
  rewrite bind_snd. cbv beta. rewrite bind_snd. cbv beta.
  rewrite bind_snd. cbv beta.
  change (snd (get_count ?st)) with st.
  rewrite automatic_local_log.
  set (s0 := snd (reset_hosts s)).
  destruct (automatic_snmp_log env s0) as [X HX].
  exists X. rewrite HX. subst s0. simpl.
  rewrite <- !app_assoc. reflexivity.
Qed.

(** C6: [discover_automatic] returns, in every environment, the number of
    hosts in the registry: an integer between 0 and [MAX_DISCOVERED_HOSTS],
    never the error value -1.  Whatever the queries answer, the run starts
    with the command that asks for the default route and ends with the two
    commands of the passive collectors, so no failed query ends it early.
    When every command fails or prints nothing, the registry is empty and
    the result is 0. *)
Theorem discover_automatic_never_fails :
  forall (env : Env) (s : State),
    let r := discover_automatic env s in
    fst r = Z.of_nat (discovered_count (snd r))
    /\ 0 <= fst r <= Z.of_nat MAX_DISCOVERED_HOSTS
    /\ (exists X,
           commands (snd r)
           = (commands s
              ++ route_command :: X ++ [neigh_command; conn_command])%list)
    /\ (silent env -> discovered_hosts (snd r) = [] /\ fst r = 0).
Proof.
  intros env s r. subst r.
  pose proof (discover_automatic_count env s) as Hc.
  pose proof (discover_automatic_bounded env (fun _ => True) s I) as Hb.
  unfold registry_bounded, le_count in Hb. cbv beta in Hb.
  split; [exact Hc|]. split; [rewrite Hc; lia|].
  split; [apply discover_automatic_log|].
  intros H. pose proof (discover_automatic_silent env s H) as E.
  split; [exact E|]. rewrite Hc. unfold discovered_count. rewrite E.
  reflexivity.
Qed.

Lemma discover_automatic_never_fails_witness :
  discovered_hosts (snd (discover_automatic dead_env initial_state)) = []
  /\ fst (discover_automatic dead_env initial_state) = 0.
Proof.
  apply (proj2 (proj2 (proj2
           (discover_automatic_never_fails dead_env initial_state)))).
  intros history cmd. left. reflexivity.
Defined.

(** * Printing and reading decimal numbers *)

Section Decimal.

Lemma digit_char_ok (d : Z) :
  0 <= d < 10 ->
  CStr.is_digit (Printf.digit_char d) = true
  /\ digit_val (Printf.digit_char d) = d.
Proof.
  intros H.
  assert (E : d = 0 \/ d = 1 \/ d = 2 \/ d = 3 \/ d = 4 \/ d = 5 \/ d = 6
              \/ d = 7 \/ d = 8 \/ d = 9) by lia.
  repeat (destruct E as [E|E]; [subst d; split; reflexivity|]).
  subst d; split; reflexivity.
Qed.

Lemma all_digits_app (a b : string) :
  all_digits (a ++ b) = all_digits a && all_digits b.
Proof.
  induction a as [|c a IH]; simpl; [reflexivity|].
  rewrite IH, andb_assoc. reflexivity.
Qed.

Lemma digits_value_app (v : Z) (a b : string) :
  digits_value v (a ++ b) = digits_value (digits_value v a) b.
Proof.
  revert v. induction a as [|c a IH]; intros v; simpl; [reflexivity|].
  apply IH.
Qed.

Lemma append_assoc (a b c : string) : (a ++ b) ++ c = a ++ (b ++ c).
Proof.
  induction a as [|x a IH]; simpl; [reflexivity|]. rewrite IH. reflexivity.
Qed.

(** [dec_fuel] with enough fuel prints a non-empty string of digits whose
    value is the number. *)
Lemma dec_fuel_spec (fuel : nat) :
  forall (n : Z) (acc : string),
    0 <= n < 10 ^ Z.of_nat (S fuel) ->
    exists ds,
      Printf.dec_fuel (S fuel) n acc = ds ++ acc
      /\ ds <> "" /\ all_digits ds = true /\ digits_value 0 ds = n.
Proof.
  induction fuel as [|fuel IH]; intros n acc Hn.
  - change (10 ^ Z.of_nat 1) with 10 in Hn. simpl.
    assert (E : (n <? 10) = true) by (apply Z.ltb_lt; lia). rewrite E.
    rewrite Z.mod_small by lia.
    destruct (digit_char_ok n Hn) as [Hd Hv].
    exists (String (Printf.digit_char n) ""). simpl.
    rewrite Hd, Hv. repeat split; try reflexivity; try discriminate.
  - change (Printf.dec_fuel (S (S fuel)) n acc)
      with (let acc' := String (Printf.digit_char (n mod 10)) acc in
            if n <? 10 then acc' else Printf.dec_fuel (S fuel) (n / 10) acc').
    cbv zeta.
    assert (Hm : 0 <= n mod 10 < 10) by (apply Z.mod_pos_bound; lia).
    destruct (digit_char_ok (n mod 10) Hm) as [Hd Hv].
    destruct (n <? 10) eqn:E.
    + apply Z.ltb_lt in E. rewrite Z.mod_small in * by lia.
      exists (String (Printf.digit_char n) ""). simpl.
      rewrite Hd, Hv. repeat split; try reflexivity; try discriminate.
    + apply Z.ltb_ge in E.
      assert (Hq : 0 <= n / 10 < 10 ^ Z.of_nat (S fuel)).
      { split; [apply Z.div_pos; lia|].
        apply Z.div_lt_upper_bound; [lia|].
        replace (Z.of_nat (S (S fuel))) with (Z.succ (Z.of_nat (S fuel)))
          in Hn by lia.
        rewrite Z.pow_succ_r in Hn by lia. lia. }
      destruct (IH (n / 10) (String (Printf.digit_char (n mod 10)) acc) Hq)
        as [ds [E1 [E2 [E3 E4]]]].
      exists (ds ++ String (Printf.digit_char (n mod 10)) "").
      rewrite E1, append_assoc. simpl.
      split; [reflexivity|]. split; [destruct ds; [congruence|discriminate]|].
      rewrite all_digits_app, digits_value_app, E3, E4. simpl.
      rewrite Hd, Hv. split; [reflexivity|].
      rewrite (Z.div_mod n 10) at 3 by lia. reflexivity.
Qed.

(** The digits that [%d] prints for a number that is not negative. *)
Lemma dec_spec (n : Z) :
  0 <= n < 2 ^ 31 ->
  Printf.dec n <> "" /\ all_digits (Printf.dec n) = true
  /\ digits_value 0 (Printf.dec n) = n.
Proof.
  intros H. destruct (dec_fuel_spec 9 n "") as [ds [E1 [E2 [E3 E4]]]].
  { change (10 ^ Z.of_nat 10) with 10000000000.
    change (2 ^ 31) with 2147483648 in H. lia. }
  unfold Printf.dec. rewrite E1.
  assert (Ea : ds ++ "" = ds).
  { clear. induction ds as [|c ds IH]; simpl; [reflexivity|].
    rewrite IH. reflexivity. }
  rewrite Ea. auto.
Qed.

(** [digits] reads a string of digits up to the first character that is
    not a digit. *)
Lemma digits_app (ds rest : string) (v : Z) :
  all_digits ds = true -> starts_with_digit rest = false ->
  digits v (ds ++ rest) = (digits_value v ds, rest).
Proof.
  revert v.
  induction ds as [|c ds IH]; intros v Hd Hr; cbn [append digits digits_value].
  - destruct rest as [|c rest]; [reflexivity|].
    cbn [starts_with_digit] in Hr. cbn [digits]. rewrite Hr. reflexivity.
  - cbn [all_digits] in Hd. apply andb_true_iff in Hd.
    destruct Hd as [Hc Hd]. rewrite Hc. apply IH; assumption.
Qed.

Lemma to_int_small (n : Z) : 0 <= n < 2 ^ 31 -> to_int n = n.
Proof.
  intros H. unfold to_int, CInt.wrap, CInt.LONG_MIN, CInt.LONG_MAX.
  change (2 ^ 31) with 2147483648 in *. change (2 ^ 32) with 4294967296.
  change (2 ^ 63) with 9223372036854775808.
  rewrite Z.min_r by lia. rewrite Z.max_r by lia.
  rewrite Z.mod_small by lia. lia.
Qed.

(** [%d] reads back what [%d] printed. *)
Lemma scan_int_fmt_d (n : Z) (rest : string) :
  0 <= n < 2 ^ 31 -> starts_with_digit rest = false ->
  scan_int (Printf.fmt_d n ++ rest) = Some (n, rest).
Proof.
  intros Hn Hr. destruct (dec_spec n Hn) as [Hne [Hd Hv]].
  unfold Printf.fmt_d.
  assert (E : (n <? 0) = false) by (apply Z.ltb_ge; lia). rewrite E.
  destruct (Printf.dec n) as [|c ds] eqn:Ed; [congruence|].
  simpl in Hd. apply andb_true_iff in Hd. destruct Hd as [Hc Hd].
  unfold scan_int.
  assert (Hs : CStr.is_space c = false).
  { clear - Hc. destruct c as [[] [] [] [] [] [] [] []];
      vm_compute in Hc |- *; congruence. }
  assert (Hm : c <> "-"%char /\ c <> "+"%char).
  { clear - Hc. split; intros ->; vm_compute in Hc; discriminate. }
  simpl. rewrite Hs.
  assert (Hbody : (let '(neg, body) :=
                     match String c (ds ++ rest) with
                     | String "-" s' => (true, s')
                     | String "+" s' => (false, s')
                     | _ => (false, String c (ds ++ rest))
                     end in
                   if starts_with_digit body then
                     let (m, r) := digits 0 body in
                     Some (to_int (if neg : bool then - m else m), r)
                   else None)
                  = (if starts_with_digit (String c (ds ++ rest)) then
                       let (m, r) := digits 0 (String c (ds ++ rest)) in
                       Some (to_int m, r)
                     else None)).
  { destruct Hm as [H1 H2].
    destruct c as [[] [] [] [] [] [] [] []]; try reflexivity;
      exfalso; [apply H2|apply H1]; reflexivity. }
  rewrite Hbody. simpl starts_with_digit. rewrite Hc.
  change (String c (ds ++ rest)) with (String c ds ++ rest).
  rewrite digits_app; [|simpl; rewrite Hc, Hd; reflexivity|exact Hr].
  rewrite Hv, to_int_small by exact Hn. reflexivity.
Qed.

End Decimal.

(** * The router walk *)

Lemma queried_routers_app (a b : list output) :
  queried_routers (a ++ b) = (queried_routers a ++ queried_routers b)%list.
Proof. apply flat_map_app. Qed.

Section Quiet.

Variable env : Env.
Variable I : State -> Prop.
Hypothesis HI : on_stdout I.

Lemma popen_quiet (cmd : string) : preserves I (popen env cmd).
Proof. intros s Hs. apply (HI s); [reflexivity|exact Hs]. Qed.

Lemma add_host_quiet (ip : string) (rt : Z) : preserves I (add_host ip rt).
Proof. intros s Hs. apply (HI s); [reflexivity|exact Hs]. Qed.

Ltac quiet_step :=
  match goal with
  | |- preserves _ (ret _) => apply preserves_ret
  | |- preserves _ get_hosts => apply preserves_get_hosts
  | |- preserves _ (popen _ _) => apply popen_quiet
  | |- preserves _ (add_host _ _) => apply add_host_quiet
  | |- preserves _ (bind _ _) => apply preserves_bind; [|intros]
  | |- preserves _ (for_each _ _ _ _) => apply preserves_for_each; intros
  | |- preserves _ (when _ _) => apply preserves_when; intros
  | |- preserves _ (if ?b then _ else _) => destruct b
  | |- preserves _ (match ?x with Some _ => _ | None => _ end) => destruct x
  | |- preserves _ (add_if_new _ _) => unfold add_if_new
  | |- preserves _ (snmp_arp_line _ _) => unfold snmp_arp_line
  | |- preserves _ (interface_line _ _) => unfold interface_line
  | |- preserves _ (nexthop_line _ _ _ _) => unfold nexthop_line
  | |- preserves _ (add_nexthop _ _) => unfold add_nexthop
  | |- preserves _ (try_snmp_community _ _ _) => unfold try_snmp_community
  | |- preserves _ (discover_router_interfaces _ _ _ _) =>
      unfold discover_router_interfaces
  | |- preserves _ (discover_nexthop_routers _ _ _ _) =>
      unfold discover_nexthop_routers
  | |- preserves _ (conn_line _ _) => unfold conn_line
  end.

Lemma try_communities_quiet (current_router : string) (cs l : list string) :
  preserves I (try_communities env current_router cs l).
Proof.
  induction cs as [|c cs IH]; cbn [try_communities]; [apply preserves_ret|].
  apply preserves_bind; [repeat quiet_step|].
  intros ifaces. destruct (0 <? _)%nat; [|exact IH].
  repeat quiet_step.
Qed.

Lemma auto_arp_line_quiet (result state : string) :
  preserves I (auto_arp_line result state).
Proof.
  unfold auto_arp_line.
  destruct (sscanf fmt_neigh result) as [|[n1|ip] [|[n2|iface] [|[n3|mac] more]]];
    try (destruct (sscanf fmt_arp result) as [|[n'|ip'] [|[m'|mac'] [|v' l']]]);
    repeat quiet_step.
Qed.

Lemma automatic_local_quiet : preserves I (automatic_local env).
Proof.
  unfold automatic_local. repeat quiet_step; apply auto_arp_line_quiet.
Qed.

Lemma get_default_gateway_quiet : preserves I (get_default_gateway env).
Proof.
  unfold get_default_gateway.
  apply preserves_bind; [apply popen_quiet|].
  intros [text|]; [|apply preserves_ret].
  destruct (CStr.fgets MAX_IP_LEN text) as [[line rest]|];
    apply preserves_ret.
Qed.

Lemma reset_hosts_quiet : preserves I reset_hosts.
Proof. intros s Hs. apply (HI s); [reflexivity|exact Hs]. Qed.

End Quiet.

Lemma in_list_false (x : string) (l : list string) :
  in_list x l = false -> ~ In x l.
Proof.
  unfold in_list. intros H Hin.
  assert (E : existsb (fun y => CStr.streq y x) l = true).
  { apply existsb_exists. exists x. split; [exact Hin|].
    apply String.eqb_refl. }
  congruence.
Qed.

Lemma take_idem (n : nat) (s : string) :
  CStr.take n (CStr.take n s) = CStr.take n s.
Proof.
  revert s. induction n as [|n IH]; intros [|a s]; simpl; try reflexivity.
  rewrite IH. reflexivity.
Qed.

Lemma fits_bounded (ip : string) : fits (CStr.bounded MAX_IP_LEN ip).
Proof. apply take_idem. Qed.

Section Walk.

Variable env : Env.

(** A property of the addresses that [discover_nexthop_routers]
    returns. *)
Variable Q : string -> Prop.
Hypothesis HQ :
  forall router_ip community n s,
    Forall Q (fst (discover_nexthop_routers env router_ip community n s)).

Lemma grows_refl (l : list string) : grows Q l l.
Proof. exists []. rewrite app_nil_r. split; [reflexivity|constructor]. Qed.

Lemma grows_trans (a b c : list string) :
  grows Q a b -> grows Q b c -> grows Q a c.
Proof.
  intros [e1 [E1 H1]] [e2 [E2 H2]]. exists (e1 ++ e2)%list.
  rewrite E2, E1, app_assoc. split; [reflexivity|].
  apply Forall_app. split; assumption.
Qed.

Lemma nexthops_fit (router_ip community : string) (n : nat) (s : State) :
  Forall fits (fst (discover_nexthop_routers env router_ip community n s)).
Proof.
  unfold discover_nexthop_routers.
  destruct (_ || _); [constructor|].
  rewrite bind_fst. cbv beta.
  destruct (fst (popen env _ s)) as [text|]; [|constructor].
  apply (hoare_for_each _ (nexthop_line env router_ip)
           (fun l _ => Forall fits l) (CStr.fgets_all 512 text));
    [|constructor].
  intros x a _ s' Ha. unfold nexthop_line. simpl.
  destruct (snmp_address x) as [ip|]; [|exact Ha].
  destruct (CStr.streq ip "0.0.0.0"); [exact Ha|].
  destruct (negb _); [exact Ha|].
  destruct (CStr.streq ip router_ip); [exact Ha|].
  destruct (in_list _ _); [exact Ha|].
  apply Forall_app. split; [exact Ha|].
  constructor; [apply fits_bounded|constructor].
Qed.

(** The frontier after [add_nexthop]. *)
Lemma add_nexthop_frontier (nexthop : string) (l : list string)
  (s : State) :
  fits nexthop -> Q nexthop -> frontier_ok l ->
  frontier_ok (fst (add_nexthop nexthop l s))
  /\ grows Q l (fst (add_nexthop nexthop l s)).
Proof.
  intros Hfit HQn [Hnd Hlen]. unfold add_nexthop.
  rewrite bind_fst. cbv beta. rewrite bind_fst. cbv beta.
  change (fst (ret ?a ?st)) with a.
  destruct (negb (in_list nexthop l)) eqn:E1; simpl;
    [|split; [split; assumption|apply grows_refl]].
  destruct (_ <? _)%nat eqn:E2;
    [|split; [split; assumption|apply grows_refl]].
  apply negb_true_iff, in_list_false in E1. apply Nat.ltb_lt in E2.
  rewrite Hfit. split.
  - split.
    + apply NoDup_app; [exact Hnd|constructor; [easy|constructor]|].
      intros x Hx [<-|[]]. exact (E1 Hx).
    + rewrite length_app. simpl. lia.
  - exists [nexthop]. split; [reflexivity|]. constructor; [exact HQn|constructor].
Qed.

Lemma add_nexthops_frontier (nexthops l : list string) (s : State) :
  Forall fits nexthops -> Forall Q nexthops -> frontier_ok l ->
  frontier_ok
    (fst (for_each (fun _ _ => true) add_nexthop nexthops l s))
  /\ grows Q l
       (fst (for_each (fun _ _ => true) add_nexthop nexthops l s)).
Proof.
  intros Hfit. revert l s.
  induction Hfit as [|nh nexthops Hnh Hfit IH]; intros l s HQs Hl; simpl.
  - split; [exact Hl|apply grows_refl].
  - inversion HQs as [|? ? HQn HQr]; subst.
    destruct (add_nexthop_frontier nh l s Hnh HQn Hl) as [Hok Hg1].
    destruct (add_nexthop nh l s) as [l1 s1]. simpl in Hok, Hg1.
    destruct (IH l1 s1 HQr Hok) as [Hok' Hg2].
    split; [exact Hok'|]. eapply grows_trans; eassumption.
Qed.

Lemma try_communities_frontier (current_router : string)
  (cs l : list string) (s : State) :
  frontier_ok l ->
  frontier_ok (fst (fst (try_communities env current_router cs l s)))
  /\ grows Q l (fst (fst (try_communities env current_router cs l s))).
Proof.
  intros Hl. revert s.
  induction cs as [|c cs IH]; intros s; cbn [try_communities].
  - split; [exact Hl|apply grows_refl].
  - rewrite bind_fst. cbv beta.
    destruct (0 <? _)%nat; [|apply IH].
    rewrite bind_fst. cbv beta. rewrite bind_fst. cbv beta.
    rewrite bind_fst. cbv beta. rewrite bind_fst. cbv beta.
    change (fst (fst (ret ?a ?st))) with (fst a). cbn [fst].
    apply add_nexthops_frontier; [apply nexthops_fit|apply HQ|exact Hl].
Qed.

End Walk.

Lemma skipn_cons_nth {A : Type} (i : nat) (l : list A) (d : A) :
  (i < List.length l)%nat -> skipn i l = nth i l d :: skipn (S i) l.
Proof.
  revert l. induction i as [|i IH]; intros [|a l] H; simpl in *; try lia.
  - reflexivity.
  - apply IH. lia.
Qed.

Lemma NoDup_skipn {A : Type} (i : nat) (l : list A) :
  NoDup l -> NoDup (skipn i l).
Proof.
  revert l. induction i as [|i IH]; intros [|a l] H; simpl; try exact H.
  apply IH. inversion H; assumption.
Qed.

Lemma NoDup_firstn {A : Type} (i : nat) (l : list A) :
  NoDup l -> NoDup (firstn i l).
Proof.
  revert l. induction i as [|i IH]; intros [|a l] H; simpl;
    try constructor.
  - inversion H as [|? ? Hnin Hnd]; subst. intros Hin. apply Hnin.
    rewrite <- (firstn_skipn i l). apply in_or_app. left. exact Hin.
  - apply IH. inversion H; assumption.
Qed.

Section WalkTrace.

Variable env : Env.
Variable Q : string -> Prop.
Hypothesis HQ :
  forall router_ip community n s,
    Forall Q (fst (discover_nexthop_routers env router_ip community n s)).

Lemma walk_routers_S (fuel : nat) (w : walk) :
  walk_routers env (S fuel) w
  = if walk_goes_on w then
      let current_router :=
        nth (routers_queried w) (routers_to_query w) "" in
      print (out_router (Z.of_nat (routers_queried w) + 1) current_router) ;;
      r <- try_communities env current_router communities
             (routers_to_query w) ;;
      walk_routers env fuel
        {| routers_to_query := fst r;
           routers_queried := S (routers_queried w);
           snmp_success := snmp_success w || snd r |}
    else ret w.
Proof. reflexivity. Qed.

(** What a walk of [fuel] rounds at most does: the frontier only grows, by
    addresses that [discover_nexthop_routers] returned, and stays
    duplicate-free and within [MAX_HOPS]; the routers named on stdout are
    the entries of the frontier from the old value of [routers_queried] to
    the new one; and with enough fuel the walk stops because the test of
    the loop fails. *)
Lemma walk_routers_trace (fuel : nat) :
  forall (w : walk) (s : State),
    frontier_ok (routers_to_query w) ->
    (routers_queried w <= List.length (routers_to_query w))%nat ->
    let w' := fst (walk_routers env fuel w s) in
    let s' := snd (walk_routers env fuel w s) in
    frontier_ok (routers_to_query w')
    /\ grows Q (routers_to_query w) (routers_to_query w')
    /\ (routers_queried w <= routers_queried w'
        <= List.length (routers_to_query w'))%nat
    /\ queried_routers (stdout s')
       = (queried_routers (stdout s)
          ++ firstn (routers_queried w' - routers_queried w)
               (skipn (routers_queried w) (routers_to_query w')))%list
    /\ ((MAX_HOPS - routers_queried w <= fuel)%nat ->
        walk_goes_on w' = false).
Proof.
  induction fuel as [|fuel IH]; intros w s Hok Hq.
  - cbn [walk_routers ret fst snd]. split; [exact Hok|].
    split; [apply grows_refl|].
    split; [lia|]. rewrite Nat.sub_diag. cbn [firstn]. rewrite app_nil_r.
    split; [reflexivity|]. intros Hf. unfold walk_goes_on.
    apply andb_false_iff. right. apply Nat.ltb_ge. lia.
  - rewrite walk_routers_S. destruct (walk_goes_on w) eqn:E.
    + cbv beta iota zeta.
      repeat first [rewrite bind_fst | rewrite bind_snd]. cbv beta.
      unfold walk_goes_on in E. apply andb_true_iff in E.
      destruct E as [E1 E2]. apply Nat.ltb_lt in E1, E2.
      set (cur := nth (routers_queried w) (routers_to_query w) "").
      set (s0 := snd (print (out_router (Z.of_nat (routers_queried w) + 1)
                               cur) s)).
      destruct (try_communities_frontier env Q HQ cur communities
                  (routers_to_query w) s0 Hok) as [Hok1 Hg1].
      assert (Hout : stdout (snd (try_communities env cur communities
                                    (routers_to_query w) s0))
                     = stdout s0).
      { apply (try_communities_quiet env (fun st => stdout st = stdout s0));
          [intros a b Eab Ha; congruence|reflexivity]. }
      set (r := try_communities env cur communities (routers_to_query w) s0)
        in *.
      set (w1 := {| routers_to_query := fst (fst r);
                    routers_queried := S (routers_queried w);
                    snmp_success := snmp_success w || snd (fst r) |}).
      assert (Hq1 : (routers_queried w1
                     <= List.length (routers_to_query w1))%nat).
      { unfold w1. cbn [routers_to_query routers_queried].
        destruct Hg1 as [ext1 [Hext1 _]]. rewrite Hext1, length_app. lia. }
      destruct (IH w1 (snd r) Hok1 Hq1) as [Ha [Hb [Hc [Hd He]]]].
      cbv zeta in Hb, Hc, Hd, He.
      set (w2 := fst (walk_routers env fuel w1 (snd r))) in *.
      unfold w1 in Hb, Hc, Hd, He |- *.
      cbn [routers_to_query routers_queried] in Hb, Hc, Hd, He.
      split; [exact Ha|].
      split; [eapply grows_trans; eassumption|].
      split; [lia|]. split; [|intros Hf; apply He; lia].
      rewrite Hd, Hout. subst s0. simpl.
      rewrite queried_routers_app. simpl. rewrite <- app_assoc. f_equal.
      assert (Hlt : (routers_queried w
                     < List.length (routers_to_query w2))%nat) by lia.
      rewrite (skipn_cons_nth _ _ "" Hlt).
      replace (routers_queried w2 - routers_queried w)%nat
        with (S (routers_queried w2 - S (routers_queried w))) by lia.
      simpl. f_equal. subst cur.
      destruct Hg1 as [ext1 [Hext1 _]]. destruct Hb as [ext2 [Hext2 _]].
      rewrite Hext2, Hext1, <- app_assoc. symmetry. apply app_nth1. exact E1.
    + cbn [ret fst snd]. split; [exact Hok|].
      split; [apply grows_refl|].
      split; [lia|]. rewrite Nat.sub_diag. cbn [firstn]. rewrite app_nil_r.
      split; [reflexivity|]. intros _. exact E.
Qed.

Lemma stdout_on_stdout (X : list output) :
  on_stdout (fun s => stdout s = X).
Proof. intros a b E H. congruence. Qed.

(** The routers that steps 1 and 2 visit: a duplicate-free list of at
    most [MAX_HOPS] addresses, the first entries of the final frontier;
    the walk ends because the test of its loop fails; and every entry of
    the frontier behind the first one was returned by
    [discover_nexthop_routers]. *)
Lemma automatic_snmp_trace (s : State) :
  let w := fst (automatic_snmp env s) in
  frontier_ok (routers_to_query w)
  /\ (routers_queried w <= List.length (routers_to_query w))%nat
  /\ walk_goes_on w = false
  /\ queried_routers (stdout (snd (automatic_snmp env s)))
     = (queried_routers (stdout s)
        ++ firstn (routers_queried w) (routers_to_query w))%list
  /\ Forall Q (tl (routers_to_query w)).
Proof.
  unfold automatic_snmp. rewrite bind_fst, bind_snd. cbv beta.
  assert (Hg : stdout (snd (get_default_gateway env s)) = stdout s)
    by (apply (get_default_gateway_quiet env _ (stdout_on_stdout _));
        reflexivity).
  destruct (get_default_gateway env s) as [[ok gateway] s1].
  cbn [fst snd] in *. destruct (ok =? 0).
  - cbn [ret fst snd routers_to_query routers_queried].
    split; [split; [constructor|cbn; lia]|]. split; [cbn; lia|].
    split; [reflexivity|]. cbn [firstn]. rewrite app_nil_r, Hg.
    split; [reflexivity|constructor].
  - rewrite bind_fst, bind_snd. cbv beta.
    set (s2 := snd (add_host gateway 0 s1)).
    set (w0 := {| routers_to_query := [CStr.bounded MAX_IP_LEN gateway];
                  routers_queried := 0; snmp_success := false |}).
    assert (Hok : frontier_ok (routers_to_query w0)).
    { split; [constructor; [easy|constructor]|].
      cbn. unfold MAX_HOPS. lia. }
    assert (Hq : (routers_queried w0
                  <= List.length (routers_to_query w0))%nat) by (cbn; lia).
    destruct (walk_routers_trace MAX_HOPS w0 s2 Hok Hq)
      as [Ha [[ext [Hb HQext]] [Hc [Hd He]]]].
    split; [exact Ha|]. split; [apply Hc|].
    split; [apply He; unfold w0, MAX_HOPS; cbn; lia|].
    split.
    + rewrite Hd. cbn [routers_queried w0]. rewrite Nat.sub_0_r.
      cbn [skipn]. subst s2. cbn [add_host snd stdout]. rewrite Hg.
      reflexivity.
    + rewrite Hb. exact HQext.
Qed.

End WalkTrace.

(** The trivial property of next hops. *)
Lemma nexthops_any (env : Env) (router_ip community : string) (n : nat)
  (s : State) :
  Forall (fun _ => True)
    (fst (discover_nexthop_routers env router_ip community n s)).
Proof. apply Forall_forall. intros; exact I. Qed.

(** * C3 *)

(** C3: in one run of [discover_automatic] the routers that the walk
    queries, in the order of the lines "Querying Router n: router" that
    each round of the loop prints, are pairwise distinct and at most
    [MAX_HOPS] = 30.  They are the first [routers_queried] entries of
    [routers_to_query], and the loop ends because its test fails, not
    because the model ran out of rounds. *)
Theorem router_walk_visits_once :
  forall (env : Env) (s : State),
    exists visited : list string,
      queried_routers (stdout (snd (discover_automatic env s)))
      = (queried_routers (stdout s) ++ visited)%list
      /\ NoDup visited
      /\ (List.length visited <= MAX_HOPS)%nat
      /\ MAX_HOPS = 30%nat
      /\ (let w := fst (automatic_snmp env (snd (reset_hosts s))) in
          visited = firstn (routers_queried w) (routers_to_query w)
          /\ walk_goes_on w = false).
Proof.
  intros env s.
  set (s0 := snd (reset_hosts s)).
  destruct (automatic_snmp_trace env _ (nexthops_any env) s0)
    as [[Hnd Hlen] [Hq [Hdone [Hout _]]]].
  set (w := fst (automatic_snmp env s0)) in *.
  exists (firstn (routers_queried w) (routers_to_query w)).
  split; [|split; [apply NoDup_firstn, Hnd|split; [|split; [reflexivity|]]]].
  - unfold discover_automatic.
    rewrite bind_snd. cbv beta. rewrite bind_snd. cbv beta.
    rewrite bind_snd. cbv beta.
    change (snd (get_count ?st)) with st.
    rewrite (automatic_local_quiet env _ (stdout_on_stdout _)
               (snd (automatic_snmp env (snd (reset_hosts s)))) eq_refl).
    fold s0. rewrite Hout. reflexivity.
  - rewrite length_firstn. lia.
  - split; [reflexivity|exact Hdone].
Qed.

(** The run of the sample environment: the gateway answers under the
    second community, reports two interfaces and one private next hop; the
    walk visits the gateway and the next hop, and the registry ends with
    four hosts. *)
Example discover_automatic_sample :
  fst (discover_automatic Sample.env initial_state) = 4
  /\ map ip_address
       (discovered_hosts (snd (discover_automatic Sample.env initial_state)))
     = ["192.168.1.1"; "10.0.0.1"; "10.0.0.2"; "192.168.1.7"]
  /\ queried_routers
       (stdout (snd (discover_automatic Sample.env initial_state)))
     = ["192.168.1.1"; "10.0.0.2"].
Proof. vm_compute. repeat split. Qed.

(** * The filter of next hops *)

Lemma span_length (p : ascii -> bool) (w : nat) (s : string) :
  (String.length (fst (span p w s)) <= w)%nat.
Proof.
  revert s. induction w as [|w IH]; intros [|c s]; simpl; try lia.
  destruct (p c); simpl; [|lia].
  specialize (IH s). destruct (span p w s) as [l r]. simpl in *. lia.
Qed.

Lemma scan_str_length (w : nat) (s tok rest : string) :
  scan_str w s = Some (tok, rest) -> (String.length tok <= w)%nat.
Proof.
  unfold scan_str. intros H.
  pose proof (span_length (fun c => negb (CStr.is_space c)) w (skip_space s))
    as Hl.
  destruct (span _ w (skip_space s)) as [[|c l] r]; [discriminate|].
  injection H as <- _. exact Hl.
Qed.

Lemma take_all (n : nat) (s : string) :
  (String.length s <= n)%nat -> CStr.take n s = s.
Proof.
  revert s. induction n as [|n IH]; intros [|c s] H; simpl in *;
    try reflexivity; try lia.
  rewrite IH by lia. reflexivity.
Qed.

(** The token of a line of snmpwalk output fits a buffer of [MAX_IP_LEN]
    characters. *)
Lemma snmp_address_fits (result ip : string) :
  snmp_address result = Some ip -> fits ip.
Proof.
  unfold snmp_address.
  destruct (CStr.strstr result "IpAddress:") as [ip_start|]; [|discriminate].
  unfold fmt_tok. cbn [sscanf].
  destruct (scan_str 15 _) as [[tok rest]|] eqn:E; [|discriminate].
  destruct (valid_ip tok); [|discriminate].
  intros H. injection H as <-.
  apply take_all. apply scan_str_length in E. exact E.
Qed.

Section NextHops.

Variable env : Env.

Lemma streq_false (a b : string) : CStr.streq a b = false -> a <> b.
Proof. intros H. apply String.eqb_neq. exact H. Qed.

Lemma nexthops_ok (router_ip community : string) (n : nat) (s : State) :
  Forall (nexthop_ok env router_ip)
    (fst (discover_nexthop_routers env router_ip community n s)).
Proof.
  unfold discover_nexthop_routers.
  destruct (_ || _); [constructor|].
  rewrite bind_fst. cbv beta.
  destruct (fst (popen env _ s)) as [text|]; [|constructor].
  apply (hoare_for_each _ (nexthop_line env router_ip)
           (fun l _ => Forall (nexthop_ok env router_ip) l)
           (CStr.fgets_all 512 text));
    [|constructor].
  intros x a _ s' Ha. unfold nexthop_line. simpl.
  destruct (snmp_address x) as [ip|] eqn:Eip; [|exact Ha].
  destruct (CStr.streq ip "0.0.0.0") eqn:E0; [exact Ha|].
  destruct (is_private (parse_ip ip (indet env))) eqn:Ep; [|exact Ha].
  simpl.
  destruct (CStr.streq ip router_ip) eqn:Er; [exact Ha|].
  destruct (in_list _ _); [exact Ha|].
  apply Forall_app. split; [exact Ha|].
  constructor; [|constructor].
  rewrite (snmp_address_fits _ _ Eip).
  split; [apply (snmp_address_valid _ _ Eip)|].
  split; [apply streq_false, E0|].
  split; [apply streq_false, Er|exact Ep].
Qed.

End NextHops.

Lemma is_private_ranges (a b c d : Z) :
  is_private (a, b, c, d) = true <-> in_private_ranges a b.
Proof.
  unfold is_private, in_private_ranges.
  rewrite !orb_true_iff, !andb_true_iff, !Z.eqb_eq, Z.geb_le, Z.leb_le.
  tauto.
Qed.

Lemma append_nil_r (s : string) : s ++ "" = s.
Proof. induction s as [|c s IH]; simpl; [reflexivity|]. rewrite IH. reflexivity. Qed.

(** [parse_ip] reads back the four numbers of a dotted quad, whatever the
    array held before. *)
Lemma parse_ip_dotted (a b c d : Z) (octets : int4) :
  0 <= a < 2 ^ 31 -> 0 <= b < 2 ^ 31 -> 0 <= c < 2 ^ 31 ->
  0 <= d < 2 ^ 31 ->
  parse_ip (Printf.dotted a b c d) octets = (a, b, c, d).
Proof.
  intros Ha Hb Hc Hd. unfold parse_ip, Printf.dotted, fmt_ip.
  destruct octets as [[[o0 o1] o2] o3].
  cbn [sscanf].
  rewrite (scan_int_fmt_d a) by (auto; reflexivity).
  change ("." ++ ?x) with (String "." x). cbn [sscanf].
  rewrite Ascii.eqb_refl.
  rewrite (scan_int_fmt_d b) by (auto; reflexivity).
  change ("." ++ ?x) with (String "." x). cbn [sscanf].
  rewrite Ascii.eqb_refl.
  rewrite (scan_int_fmt_d c) by (auto; reflexivity).
  change ("." ++ ?x) with (String "." x). cbn [sscanf].
  rewrite Ascii.eqb_refl.
  rewrite <- (append_nil_r (Printf.fmt_d d)).
  rewrite (scan_int_fmt_d d) by (auto; reflexivity).
  reflexivity.
Qed.

Lemma nexthop_ok_filtered (env : Env) (router_ip ip : string) :
  nexthop_ok env router_ip ip -> filtered ip.
Proof.
  intros [Hv [H0 [Hr Hp]]].
  assert (H2 : forall a b, first_two_numbers ip a b -> in_private_ranges a b).
  { intros a b H. destruct (H (indet env)) as [c [d E]].
    rewrite E in Hp. apply is_private_ranges in Hp. exact Hp. }
  assert (Hq : forall a b c d,
             octets_ok (a, b, c, d) ->
             ip = Printf.dotted a b c d -> in_private_ranges a b).
  { intros a b c d [Ha [Hb [Hc Hd]]] ->. apply H2. intros o.
    exists c, d. apply parse_ip_dotted;
      change (2 ^ 31) with 2147483648; lia. }
  split; [apply valid_ip_true, Hv|].
  split; [exact H0|]. split; [|split; [|split; [exact H2|exact Hq]]].
  - intros ->.
    specialize (Hq 8 8 8 8 ltac:(unfold octets_ok; lia) eq_refl).
    unfold in_private_ranges in Hq. lia.
  - intros a H. destruct (H (indet env)) as [b [c [d E]]].
    rewrite E in Hp. apply is_private_ranges in Hp.
    unfold in_private_ranges in Hp. lia.
Qed.

Lemma nexthops_filtered (env : Env) (router_ip community : string) (n : nat)
  (s : State) :
  Forall filtered
    (fst (discover_nexthop_routers env router_ip community n s)).
Proof.
  eapply Forall_impl; [|apply nexthops_ok].
  intros ip. apply (nexthop_ok_filtered env router_ip).
Qed.

(** * C4 *)

(** C4, as the code has it: every address in the list that
    [discover_nexthop_routers] returns passes [validate_ip_string], differs
    from 0.0.0.0, from the address of the queried router and from the
    public address 8.8.8.8, and the numbers that [sscanf] reads from it pass
    the test of the private ranges: the first one is 10, 172 or 192, and
    the two first ones, when two are read, are in a range.  So a dotted
    quad [a.b.c.d] in the list lies in 10/8, 172.16/12 or 192.168/16.  In a
    run of [discover_automatic], every entry of the frontier
    [routers_to_query] behind the gateway that seeds it came out of such a
    list, so an address that the filter drops does not enter the
    frontier. *)
Theorem nexthops_private_only :
  (forall (env : Env) (router_ip community : string) (max_nexthops : nat)
          (s : State) (ip : string),
      In ip (fst (discover_nexthop_routers env router_ip community
                    max_nexthops s)) ->
      ip <> router_ip /\ filtered ip)
  /\ (forall (env : Env) (s : State) (ip : string),
         In ip (tl (routers_to_query
                      (fst (automatic_snmp env (snd (reset_hosts s)))))) ->
         filtered ip).
Proof.
  split.
  - intros env router_ip community n s ip Hin.
    pose proof (nexthops_ok env router_ip community n s) as H.
    rewrite Forall_forall in H. specialize (H ip Hin).
    split; [apply H|]. eapply nexthop_ok_filtered, H.
  - intros env s ip Hin.
    destruct (automatic_snmp_trace env filtered (nexthops_filtered env)
                (snd (reset_hosts s))) as [_ [_ [_ [_ H]]]].
    rewrite Forall_forall in H. apply H, Hin.
Qed.

(** The next hops of the sample gateway: of 10.0.0.2, 8.8.8.8 and 0.0.0.0
    only the first is returned. *)
Example nexthops_sample :
  fst (discover_nexthop_routers Sample.env "192.168.1.1" "public" 30
         initial_state)
  = ["10.0.0.2"].
Proof. vm_compute. reflexivity. Qed.

(** A token that is not a dotted quad is judged on the octets that
    [sscanf] could read from it: "10" has the first octet 10 and passes
    the test. *)
Example parse_ip_partial :
  parse_ip "10" (0, 0, 0, 0) = (10, 0, 0, 0)
  /\ is_private (parse_ip "10" (0, 0, 0, 0)) = true
  /\ parse_ip "8.8.8.8" (10, 0, 0, 0) = (8, 8, 8, 8).
Proof. vm_compute. repeat split. Qed.

(** What [sscanf] reads does not depend on the array: two numbers from
    10.999.0.1, one from "10", none from ".". *)
Example numbers_read :
  first_two_numbers "10.999.0.1" 10 999
  /\ first_number "10" 10
  /\ parse_ip "10" (1, 2, 3, 4) = (10, 2, 3, 4)
  /\ parse_ip "." (1, 2, 3, 4) = (1, 2, 3, 4).
Proof.
  split; [|split; [|split; reflexivity]].
  - intros [[[o0 o1] o2] o3]. exists 0, 1. reflexivity.
  - intros [[[o0 o1] o2] o3]. exists o1, o2, o3. reflexivity.
Qed.

Lemma nexthops_private_only_witness :
  "10.0.0.2" <> "192.168.1.1" /\ filtered "10.0.0.2".
Proof.
  apply (proj1 nexthops_private_only Sample.env "192.168.1.1" "public" 30%nat
           initial_state "10.0.0.2").
  vm_compute. left. reflexivity.
Defined.

(** The claim as it is written fails: the octets of an address are
    checked nowhere, so the next hop 10.999.0.1 that a gateway reports
    passes the test on its first number, is returned and enters the
    frontier, although it is no address of a private range. *)
Lemma nexthop_not_an_address :
  fst (discover_nexthop_routers Garbled.env "192.168.1.1" "public" 30
         initial_state)
  = ["10.999.0.1"]
  /\ routers_to_query
       (fst (automatic_snmp Garbled.env (snd (reset_hosts initial_state))))
     = ["192.168.1.1"; "10.999.0.1"]
  /\ ~ private_address "10.999.0.1".
Proof.
  split; [vm_compute; reflexivity|]. split; [vm_compute; reflexivity|].
  intros [a [b [c [d [[Ha [Hb [Hc Hd]]] [E _]]]]]].
  apply (f_equal (fun ip => parse_ip ip (0, 0, 0, 0))) in E.
  rewrite parse_ip_dotted in E by (change (2 ^ 31) with 2147483648; lia).
  vm_compute in E. injection E as <- <- <- <-. lia.
Qed.

(** * Loops that run to the end *)

(** With room in the registry for one host per round, the test
    [discovered_count < MAX_DISCOVERED_HOSTS] never stops the loop. *)
Lemma for_each_has_room_all {X A : Type} (body : X -> A -> M A)
  (xs : list X) :
  (forall x b, adds_one (body x b)) ->
  forall (a : A) (s : State),
    (discovered_count s + List.length xs <= MAX_DISCOVERED_HOSTS)%nat ->
    for_each has_room body xs a s = for_each (fun _ _ => true) body xs a s.
Proof.
  intros Hbody. induction xs as [|x xs IH]; intros a s Hroom;
    cbn [for_each]; [reflexivity|].
  cbn [List.length] in Hroom.
  assert (E : has_room a s = true).
  { unfold has_room. apply Nat.ltb_lt. lia. }
  rewrite E.
  pose proof (Hbody x a (discovered_count s) s (Nat.le_refl _)) as Hx.
  unfold le_count in Hx.
  destruct (body x a s) as [a' s']. cbn [snd] in Hx.
  apply IH. lia.
Qed.

(** A loop whose every round appends [f x] to a list of the state appends
    their concatenation. *)
Lemma for_each_trace {X A T : Type} (proj : State -> list T)
  (f : X -> list T) (body : X -> A -> M A) (xs : list X) :
  (forall x a s, In x xs -> proj (snd (body x a s)) = (proj s ++ f x)%list) ->
  forall (a : A) (s : State),
    proj (snd (for_each (fun _ _ => true) body xs a s))
    = (proj s ++ flat_map f xs)%list.
Proof.
  induction xs as [|x xs IH]; intros Hbody a s; cbn [for_each flat_map].
  - rewrite app_nil_r. reflexivity.
  - pose proof (Hbody x a s (or_introl eq_refl)) as Hx.
    destruct (body x a s) as [a' s']. cbn [snd] in Hx.
    rewrite IH by (intros; apply Hbody; right; assumption).
    rewrite Hx, <- app_assoc. reflexivity.
Qed.

(** A loop guarded by [discovered_count < MAX_DISCOVERED_HOSTS] runs the
    rounds of a prefix of its list, and stops before the end only with a
    full registry. *)
Lemma for_each_has_room_prefix {X A : Type} (body : X -> A -> M A)
  (xs : list X) (a : A) (s : State) :
  exists k : nat,
    (k <= List.length xs)%nat
    /\ for_each has_room body xs a s
       = for_each (fun _ _ => true) body (firstn k xs) a s
    /\ ((k < List.length xs)%nat ->
        (MAX_DISCOVERED_HOSTS
         <= discovered_count (snd (for_each has_room body xs a s)))%nat).
Proof.
  revert a s. induction xs as [|x xs IH]; intros a s.
  - exists 0%nat. cbn. split; [lia|split; [reflexivity|lia]].
  - cbn [for_each]. unfold has_room at 1 3.
    destruct (_ <? _)%nat eqn:E.
    + destruct (body x a s) as [a' s'] eqn:Eb.
      destruct (IH a' s') as [k [Hk [Hrun Hfull]]].
      exists (S k). cbn [firstn for_each List.length]. rewrite Eb.
      split; [lia|split; [exact Hrun|]]. intros H. apply Hfull. lia.
    + exists 0%nat. cbn [firstn for_each List.length snd].
      apply Nat.ltb_ge in E.
      split; [lia|split; [reflexivity|intros _; exact E]].
Qed.

(** A loop that always goes on runs its last round on the state that the
    rounds before it leave. *)
Lemma for_each_snoc {X A : Type} (body : X -> A -> M A) (xs : list X)
  (x : X) (a : A) (s : State) :
  for_each (fun _ _ => true) body (xs ++ [x]) a s
  = body x (fst (for_each (fun _ _ => true) body xs a s))
      (snd (for_each (fun _ _ => true) body xs a s)).
Proof.
  revert a s. induction xs as [|y xs IH]; intros a s; cbn [for_each app].
  - cbn [fst snd]. destruct (body x a s); reflexivity.
  - destruct (body y a s) as [a' s']. apply IH.
Qed.

Lemma upto_length (n : Z) : List.length (upto n) = Z.to_nat n.
Proof. unfold upto. now rewrite length_map, length_seq. Qed.

Lemma upto_S (k : nat) :
  upto (Z.of_nat (S k)) = (upto (Z.of_nat k) ++ [Z.of_nat (S k)])%list.
Proof. unfold upto. rewrite !Nat2Z.id, seq_S, map_app. reflexivity. Qed.

(** With room for every round, round [k + 1] starts from the state that
    the rounds [1 .. k] leave. *)
Lemma for_each_next_round {A : Type} (body : Z -> A -> M A) (k : nat)
  (a : A) (s : State) :
  (forall x b, adds_one (body x b)) ->
  (discovered_count s + S k <= MAX_DISCOVERED_HOSTS)%nat ->
  for_each has_room body (upto (Z.of_nat (S k))) a s
  = body (Z.of_nat (S k))
      (fst (for_each has_room body (upto (Z.of_nat k)) a s))
      (snd (for_each has_room body (upto (Z.of_nat k)) a s)).
Proof.
  intros Hbody Hroom.
  rewrite !for_each_has_room_all;
    try exact Hbody; try (rewrite upto_length, Nat2Z.id; lia).
  rewrite upto_S. apply for_each_snoc.
Qed.

Lemma firstn_incl {A : Type} (k : nat) (l : list A) (x : A) :
  In x (firstn k l) -> In x l.
Proof.
  revert l. induction k as [|k IH]; intros [|y l] H; cbn in *; try tauto.
  destruct H as [H|H]; [left; exact H|right; apply IH, H].
Qed.

Lemma flat_map_single {A B : Type} (g : A -> B) (l : list A) :
  flat_map (fun x => [g x]) l = map g l.
Proof.
  induction l as [|x l IH]; cbn; [reflexivity|]. rewrite IH. reflexivity.
Qed.

Lemma map_const_repeat {A B : Type} (x : B) (l : list A) :
  map (fun _ => x) l = repeat x (List.length l).
Proof.
  induction l as [|a l IH]; cbn; [reflexivity|]. rewrite IH. reflexivity.
Qed.

Section Sweep.

Variable env : Env.

Lemma ping_host_system_stdout (ip_addr : string) (s : State) :
  stdout (snd (ping_host_system env ip_addr s)) = stdout s.
Proof.
  unfold ping_host_system. destruct (_ =? 0); [reflexivity|].
  unfold bind, popen. destruct (popen_stdout env _ _); reflexivity.
Qed.

Lemma add_if_new_stdout (ip : string) (rt : Z) (s : State) :
  stdout (snd (add_if_new ip rt s)) = stdout s.
Proof.
  unfold add_if_new, bind, get_hosts.
  destruct (already_found ip (discovered_hosts s)); reflexivity.
Qed.

Lemma scan_subnet_unfold (network_addr : string) (prefix_len : Z) :
  scan_subnet env network_addr prefix_len
  = let net_octets := parse_ip network_addr (indet env) in
    let host_bits := CInt.sub 32 prefix_len in
    let max_hosts := max_hosts_of host_bits in
    if max_hosts <=? 0 then ret 0
    else for_each has_room (scan_body env net_octets host_bits max_hosts)
           (upto max_hosts) 0.
Proof. reflexivity. Qed.

Lemma adds_one_scan_body (o : int4) (hb n i found : Z) :
  adds_one (scan_body env o hb n i found).
Proof.
  unfold scan_body.
  apply adds_one_bind_r; [apply adds_none_ping|]. intros r.
  apply adds_one_bind_l.
  - destruct (r >? 0); [|apply adds_none_one, adds_none_ret].
    apply adds_one_bind_l; [apply adds_one_add_if_new|].
    intros; apply adds_none_ret.
  - intros n'. apply adds_none_bind; [|intros; apply adds_none_ret].
    apply adds_none_when, adds_none_print.
Qed.

Lemma scan_body_commands (o : int4) (hb n i found : Z) (s : State) :
  validate_ip_string (Some (subnet_target o hb i)) = 1 ->
  commands (snd (scan_body env o hb n i found s))
  = (commands s ++ [ping_command (subnet_target o hb i)])%list.
Proof.
  intros Hv. unfold scan_body. cbv zeta. rewrite bind_snd. cbv beta.
  match goal with
  | |- commands (snd (?k (snd ?p))) = ?X =>
      assert (H : preserves (fun st => commands st = X) k)
  end.
  { apply preserves_bind.
    - destruct (_ >? 0); [|apply preserves_ret].
      apply preserves_bind;
        [apply add_if_new_commands, logged_on_commands|].
      intros; apply preserves_ret.
    - intros h. apply preserves_bind; [|intros; apply preserves_ret].
      apply preserves_when. intros _.
      apply print_commands, logged_on_commands. }
  apply H. apply ping_host_system_command, Hv.
Qed.

Lemma scan_body_stdout (o : int4) (hb n i found : Z) (s : State) :
  stdout (snd (scan_body env o hb n i found s))
  = (stdout s
     ++ (if CInt.rem i 50 =? 0 then [out_progress i n] else []))%list.
Proof.
  unfold scan_body. cbv zeta.
  rewrite bind_snd. cbv beta. rewrite bind_snd. cbv beta.
  rewrite bind_snd. cbv beta. change (snd (ret ?a ?st)) with st.
  match goal with
  | |- stdout (snd (when _ _ ?st)) = _ =>
      assert (E : stdout st = stdout s)
  end.
  { destruct (_ >? 0); [|cbn [ret snd]; apply ping_host_system_stdout].
    rewrite bind_snd. cbv beta. change (snd (ret ?a ?st)) with st.
    rewrite add_if_new_stdout. apply ping_host_system_stdout. }
  destruct (CInt.rem i 50 =? 0); cbn [when print ret snd stdout];
    rewrite E; [reflexivity|rewrite app_nil_r; reflexivity].
Qed.

End Sweep.

(** * Dotted quads *)

(** A property that holds for the 256 values of an octet. *)
Lemma octet_forall (P : Z -> bool) :
  forallb P (map Z.of_nat (seq 0 256)) = true ->
  forall n, 0 <= n <= 255 -> P n = true.
Proof.
  intros H n Hn. rewrite forallb_forall in H. apply H.
  apply in_map_iff. exists (Z.to_nat n). split; [lia|].
  apply in_seq. lia.
Qed.

Lemma fmt_d_octet_length (n : Z) :
  0 <= n <= 255 -> (String.length (Printf.fmt_d n) <= 3)%nat.
Proof.
  intros H. apply Nat.leb_le.
  apply (octet_forall (fun n => (String.length (Printf.fmt_d n) <=? 3)%nat));
    [vm_compute; reflexivity|exact H].
Qed.

Lemma length_append (a b : string) :
  String.length (a ++ b) = (String.length a + String.length b)%nat.
Proof.
  induction a as [|c a IH]; simpl; [reflexivity|]. rewrite IH. reflexivity.
Qed.

(** A dotted quad of octets fits a buffer of [MAX_IP_LEN] characters. *)
Lemma dotted_fits (a b c d : Z) :
  0 <= a <= 255 -> 0 <= b <= 255 -> 0 <= c <= 255 -> 0 <= d <= 255 ->
  CStr.bounded MAX_IP_LEN (Printf.dotted a b c d) = Printf.dotted a b c d.
Proof.
  intros Ha Hb Hc Hd. apply take_all. unfold Printf.dotted.
  rewrite !length_append.
  pose proof (fmt_d_octet_length a Ha). pose proof (fmt_d_octet_length b Hb).
  pose proof (fmt_d_octet_length c Hc). pose proof (fmt_d_octet_length d Hd).
  change (String.length ".") with 1%nat. unfold MAX_IP_LEN. lia.
Qed.

Lemma ip_chars_ok_app (a b : string) :
  ip_chars_ok a = 1 -> ip_chars_ok b = 1 -> ip_chars_ok (a ++ b) = 1.
Proof.
  intros Ha Hb. induction a as [|c a IH]; simpl in *; [exact Hb|].
  destruct (_ && _); [discriminate|]. apply IH, Ha.
Qed.

Lemma ip_chars_ok_digits (s : string) :
  all_digits s = true -> ip_chars_ok s = 1.
Proof.
  induction s as [|c s IH]; intros H; [reflexivity|].
  cbn [all_digits] in H. apply andb_true_iff in H. destruct H as [Hc Hs].
  cbn [ip_chars_ok]. unfold CStr.is_digit in Hc.
  apply negb_true_iff in Hc. rewrite Hc. cbn [andb]. apply IH, Hs.
Qed.

Lemma fmt_d_chars_ok (n : Z) :
  0 <= n < 2 ^ 31 ->
  ip_chars_ok (Printf.fmt_d n) = 1 /\ Printf.fmt_d n <> "".
Proof.
  intros H. destruct (dec_spec n H) as [Hne [Hd _]].
  unfold Printf.fmt_d.
  assert (E : (n <? 0) = false) by (apply Z.ltb_ge; lia). rewrite E.
  split; [apply ip_chars_ok_digits, Hd|exact Hne].
Qed.

(** A dotted quad passes [validate_ip_string]. *)
Lemma dotted_valid (a b c d : Z) :
  0 <= a < 2 ^ 31 -> 0 <= b < 2 ^ 31 -> 0 <= c < 2 ^ 31 ->
  0 <= d < 2 ^ 31 ->
  validate_ip_string (Some (Printf.dotted a b c d)) = 1.
Proof.
  intros Ha Hb Hc Hd.
  destruct (fmt_d_chars_ok a Ha) as [Ea Na].
  destruct (fmt_d_chars_ok b Hb) as [Eb _].
  destruct (fmt_d_chars_ok c Hc) as [Ec _].
  destruct (fmt_d_chars_ok d Hd) as [Ed _].
  assert (E : ip_chars_ok (Printf.dotted a b c d) = 1).
  { unfold Printf.dotted.
    repeat first [apply ip_chars_ok_app | assumption | reflexivity]. }
  unfold validate_ip_string.
  destruct (Printf.dotted a b c d) as [|x s] eqn:Ex; [|exact E].
  unfold Printf.dotted in Ex. destruct (Printf.fmt_d a); [congruence|].
  discriminate.
Qed.

(** Two dotted quads that are the same string have the same octets. *)
Lemma dotted_inj (a b c d a' b' c' d' : Z) :
  0 <= a <= 255 -> 0 <= b <= 255 -> 0 <= c <= 255 -> 0 <= d <= 255 ->
  0 <= a' <= 255 -> 0 <= b' <= 255 -> 0 <= c' <= 255 -> 0 <= d' <= 255 ->
  Printf.dotted a b c d = Printf.dotted a' b' c' d' ->
  (a, b, c, d) = (a', b', c', d').
Proof.
  intros Ha Hb Hc Hd Ha' Hb' Hc' Hd' E.
  rewrite <- (parse_ip_dotted a b c d (0, 0, 0, 0))
    by (change (2 ^ 31) with 2147483648; lia).
  rewrite <- (parse_ip_dotted a' b' c' d' (0, 0, 0, 0))
    by (change (2 ^ 31) with 2147483648; lia).
  rewrite E. reflexivity.
Qed.

(** * The candidates of a subnet sweep *)

Lemma prefix_cases (p : Z) :
  16 <= p <= 30 ->
  p = 16 \/ p = 17 \/ p = 18 \/ p = 19 \/ p = 20 \/ p = 21 \/ p = 22
  \/ p = 23 \/ p = 24 \/ p = 25 \/ p = 26 \/ p = 27 \/ p = 28 \/ p = 29
  \/ p = 30.
Proof. lia. Qed.

Lemma max_hosts_of_prefix (prefix_len : Z) :
  16 <= prefix_len <= 30 ->
  max_hosts_of (CInt.sub 32 prefix_len) = candidate_count prefix_len
  /\ 2 <= candidate_count prefix_len <= 254.
Proof.
  intros H. apply prefix_cases in H.
  repeat (destruct H as [H|H]; [subst; vm_compute; intuition discriminate|]).
  subst; vm_compute; intuition discriminate.
Qed.

(** The target of round [i] is the network address with [i] as its last
    octet: with at most 254 rounds the carry into the third octet is 0. *)
Lemma subnet_target_dotted (a b c d host_bits i : Z) :
  0 <= a <= 255 -> 0 <= b <= 255 -> 0 <= c <= 255 -> 1 <= i <= 254 ->
  subnet_target (a, b, c, d) host_bits i = Printf.dotted a b c i.
Proof.
  intros Ha Hb Hc Hi. unfold subnet_target.
  assert (E2 : CInt.add c (CInt.div (i - 1) 256) = c).
  { unfold CInt.add, CInt.div, CInt.wrap. rewrite Z.quot_small by lia.
    change (2 ^ 31) with 2147483648. change (2 ^ 32) with 4294967296.
    rewrite Z.mod_small by lia. lia. }
  assert (E3 : CInt.rem (i - 1) 256 + 1 = i).
  { unfold CInt.rem. rewrite Z.rem_small by lia. lia. }
  rewrite E2, E3. destruct (host_bits >? 8); apply dotted_fits; lia.
Qed.

(** No candidate is the network address or the broadcast address. *)
Lemma candidate_not_network (a b c d prefix_len i : Z) :
  16 <= prefix_len <= 30 ->
  is_network_address (a, b, c, d) prefix_len ->
  1 <= i <= candidate_count prefix_len ->
  Printf.dotted a b c i <> format_ip (a, b, c, d)
  /\ Printf.dotted a b c i
     <> format_ip (broadcast_of (a, b, c, d) prefix_len).
Proof.
  intros Hp [[Ha [Hb [Hc Hd]]] Hnet] Hi.
  assert (Hlast : i <> d
                  /\ i <> (addr_word (a, b, c, d)
                           + 2 ^ (32 - prefix_len) - 1) mod 256).
  { unfold addr_word, candidate_count in *.
    apply prefix_cases in Hp.
    repeat (destruct Hp as [Hp|Hp];
            [subst prefix_len; cbn in Hnet, Hi |- *;
             split; Z.div_mod_to_equations; lia|]).
    subst prefix_len; cbn in Hnet, Hi |- *;
      split; Z.div_mod_to_equations; lia. }
  destruct Hlast as [H1 H2].
  assert (Hi' : 0 <= i <= 255).
  { destruct (max_hosts_of_prefix prefix_len Hp) as [_ Hr]. lia. }
  split.
  - intros E. apply dotted_inj in E; try lia. congruence.
  - intros E. unfold broadcast_of, word_octets, format_ip in E.
    apply dotted_inj in E; try lia;
      try (apply Z.mod_pos_bound; lia);
      try (pose proof (Z.mod_pos_bound
                         ((addr_word (a, b, c, d)
                           + 2 ^ (32 - prefix_len) - 1) / 2 ^ 24) 256);
           pose proof (Z.mod_pos_bound
                         ((addr_word (a, b, c, d)
                           + 2 ^ (32 - prefix_len) - 1) / 2 ^ 16) 256);
           pose proof (Z.mod_pos_bound
                         ((addr_word (a, b, c, d)
                           + 2 ^ (32 - prefix_len) - 1) / 2 ^ 8) 256);
           pose proof (Z.mod_pos_bound
                         (addr_word (a, b, c, d)
                          + 2 ^ (32 - prefix_len) - 1) 256);
           lia).
    congruence.
Qed.

Section SubnetSweep.

Variable env : Env.

(** The sweep of [scan_subnet] when the registry has room for every
    candidate: the commands given to [popen] are the pings of the
    candidates, in order, and the progress lines are those of the rounds
    that are multiples of 50. *)
Lemma scan_subnet_sweep (network_addr : string) (prefix_len : Z)
  (a b c d : Z) (s : State) :
  16 <= prefix_len <= 30 ->
  parse_ip network_addr (indet env) = (a, b, c, d) ->
  0 <= a <= 255 -> 0 <= b <= 255 -> 0 <= c <= 255 ->
  (discovered_count s + Z.to_nat (candidate_count prefix_len)
   <= MAX_DISCOVERED_HOSTS)%nat ->
  let n := candidate_count prefix_len in
  commands (snd (scan_subnet env network_addr prefix_len s))
  = (commands s
     ++ map (fun i => ping_command (Printf.dotted a b c i)) (upto n))%list
  /\ stdout (snd (scan_subnet env network_addr prefix_len s))
     = (stdout s
        ++ flat_map
             (fun i => if CInt.rem i 50 =? 0 then [out_progress i n] else [])
             (upto n))%list.
Proof.
  intros Hp Hparse Ha Hb Hc Hroom n.
  destruct (max_hosts_of_prefix prefix_len Hp) as [Hmax Hrange].
  fold n in Hrange, Hroom.
  rewrite scan_subnet_unfold. cbv zeta. rewrite Hparse, Hmax. fold n.
  assert (E : (n <=? 0) = false) by (apply Z.leb_gt; lia). rewrite E.
  rewrite for_each_has_room_all;
    [|intros; apply adds_one_scan_body
     |unfold upto; rewrite length_map, length_seq; exact Hroom].
  assert (Hin : forall i, In i (upto n) -> 1 <= i <= 254).
  { intros i Hi. unfold upto in Hi. apply in_map_iff in Hi.
    destruct Hi as [k [<- Hk]]. apply in_seq in Hk. lia. }
  split.
  - rewrite (for_each_trace commands
               (fun i => [ping_command (Printf.dotted a b c i)])).
    + f_equal.
    + intros i found st Hi. specialize (Hin i Hi).
      rewrite scan_body_commands;
        rewrite (subnet_target_dotted a b c d) by lia; [reflexivity|].
      apply dotted_valid; change (2 ^ 31) with 2147483648; lia.
  - apply for_each_trace. intros i found st Hi. apply scan_body_stdout.
Qed.

End SubnetSweep.

(** * C1 *)

(** C1, as the code has it: for a network address [a.b.c.d] and a prefix
    length in 16..30, the candidates of [scan_subnet] are
    [n = min (2 ^ (32 - prefix) - 2, 254)] addresses, pairwise distinct,
    none of which is the network address or the broadcast address of the
    subnet; when the last octet [d] is 0 they are [a.b.c.1] ... [a.b.c.n].
    When the registry has room for every candidate the sweep probes them
    all, in order (the commands it gives to [popen] are their pings).  In
    every case it probes the [k] first ones, and [k < n] only when it ends
    with a full registry. *)
Theorem subnet_candidates :
  forall (env : Env) (network_addr : string) (prefix_len a b c d : Z)
         (s : State),
    16 <= prefix_len <= 30 ->
    parse_ip network_addr (indet env) = (a, b, c, d) ->
    is_network_address (a, b, c, d) prefix_len ->
    let n := Z.min (2 ^ (32 - prefix_len) - 2) 254 in
    let after := snd (scan_subnet env network_addr prefix_len s) in
    exists candidates : list string,
      Z.of_nat (List.length candidates) = n
      /\ NoDup candidates
      /\ (forall ip,
             In ip candidates ->
             ip <> format_ip (a, b, c, d)
             /\ ip <> format_ip (broadcast_of (a, b, c, d) prefix_len))
      /\ (d = 0 ->
          candidates = map (fun i => Printf.dotted a b c i) (upto n))
      /\ ((discovered_count s + Z.to_nat n <= MAX_DISCOVERED_HOSTS)%nat ->
          commands after = (commands s ++ map ping_command candidates)%list)
      /\ (exists k : nat,
             (k <= List.length candidates)%nat
             /\ commands after
                = (commands s
                   ++ map ping_command (firstn k candidates))%list
             /\ ((k < List.length candidates)%nat ->
                 (MAX_DISCOVERED_HOSTS <= discovered_count after)%nat)).
Proof.
  intros env network_addr prefix_len a b c d s Hp Hparse Hnet n after.
  change n with (candidate_count prefix_len) in *.
  destruct (max_hosts_of_prefix prefix_len Hp) as [Hmax Hrange].
  pose proof Hnet as [[Ha [Hb [Hc Hd]]] _].
  set (n' := candidate_count prefix_len) in *.
  assert (Hin : forall i, In i (upto n') -> 1 <= i <= n').
  { intros i Hi. unfold upto in Hi. apply in_map_iff in Hi.
    destruct Hi as [k [<- Hk]]. apply in_seq in Hk. lia. }
  exists (map (fun i => Printf.dotted a b c i) (upto n')).
  assert (Hrun : scan_subnet env network_addr prefix_len s
                 = for_each has_room
                     (scan_body env (a, b, c, d) (CInt.sub 32 prefix_len) n')
                     (upto n') 0 s).
  { rewrite scan_subnet_unfold. cbv zeta. rewrite Hparse, Hmax. fold n'.
    assert (E : (n' <=? 0) = false) by (apply Z.leb_gt; lia).
    rewrite E. reflexivity. }
  assert (Htrace : forall k found,
             commands
               (snd (for_each (fun _ _ => true)
                       (scan_body env (a, b, c, d) (CInt.sub 32 prefix_len)
                          n')
                       (firstn k (upto n')) found s))
             = (commands s
                ++ map ping_command
                     (firstn k (map (fun i => Printf.dotted a b c i)
                                  (upto n'))))%list).
  { intros k found.
    rewrite (for_each_trace commands
               (fun i => [ping_command (Printf.dotted a b c i)])).
    - f_equal. rewrite firstn_map, map_map.
      apply flat_map_single.
    - intros i f st Hi. apply firstn_incl in Hi. specialize (Hin i Hi).
      rewrite scan_body_commands;
        rewrite (subnet_target_dotted a b c d) by lia; [reflexivity|].
      apply dotted_valid; change (2 ^ 31) with 2147483648; lia. }
  split; [|split; [|split; [|split; [|split]]]].
  - rewrite length_map, upto_length. lia.
  - unfold upto. rewrite map_map.
    apply NoDup_map_NoDup_ForallPairs; [|apply seq_NoDup].
    intros x y Hx Hy E. apply in_seq in Hx, Hy.
    apply dotted_inj in E; try lia. injection E as E. lia.
  - intros ip Hi. apply in_map_iff in Hi. destruct Hi as [i [<- Hi]].
    apply candidate_not_network; [exact Hp|exact Hnet|apply Hin, Hi].
  - intros _. reflexivity.
  - intros Hroom. unfold after. rewrite Hrun.
    rewrite for_each_has_room_all;
      [|intros; apply adds_one_scan_body
       |rewrite upto_length; exact Hroom].
    rewrite <- (firstn_all (upto n')) at 1. rewrite Htrace.
    rewrite <- (length_map (fun i => Printf.dotted a b c i)).
    rewrite firstn_all. reflexivity.
  - destruct (for_each_has_room_prefix
                (scan_body env (a, b, c, d) (CInt.sub 32 prefix_len) n')
                (upto n') 0 s) as [k [Hk [Hpre Hfull]]].
    exists k. rewrite length_map. split; [exact Hk|].
    unfold after. rewrite Hrun. split; [|exact Hfull].
    rewrite Hpre. apply Htrace.
Qed.

Lemma subnet_candidates_witness :
  let candidates := map (fun i => Printf.dotted 192 168 1 i) (upto 254) in
  commands (snd (scan_subnet Sample.env "192.168.1.0" 24 initial_state))
  = map ping_command candidates
  /\ Z.of_nat (List.length candidates) = 254
  /\ (forall ip,
         In ip candidates ->
         ip <> "192.168.1.0" /\ ip <> "192.168.1.255").
Proof.
  destruct (subnet_candidates Sample.env "192.168.1.0" 24 192 168 1 0
              initial_state)
    as [candidates [Hlen [_ [Hnot [Hlist [Hrun _]]]]]].
  - lia.
  - reflexivity.
  - split; [unfold octets_ok; lia|reflexivity].
  - rewrite (Hlist eq_refl) in Hlen, Hnot, Hrun.
    split; [|split; [exact Hlen|exact Hnot]].
    apply Hrun. unfold MAX_DISCOVERED_HOSTS. cbn. lia.
Defined.

(** The first and the last candidate of 192.168.1.0/24. *)
Example first_and_last_of_24 :
  hd "" (map (fun i => Printf.dotted 192 168 1 i) (upto 254)) = "192.168.1.1"
  /\ last (map (fun i => Printf.dotted 192 168 1 i) (upto 254)) ""
     = "192.168.1.254".
Proof. split; vm_compute; reflexivity. Qed.

(** The claim without the condition on the registry fails: after
    [discover_arp_cache] has filled the registry with the 1024 neighbours
    of a crowded ARP cache, [scan_subnet] on 192.168.1.0/24 gives no command
    at all: it probes 0 candidates, not 254. *)
Lemma scan_subnet_full_registry :
  let s := run_calls Crowded.env [call_discover_arp_cache] initial_state in
  discovered_count s = 1024%nat
  /\ commands (snd (scan_subnet Crowded.env "192.168.1.0" 24 s))
     = commands s
  /\ Z.min (2 ^ (32 - 24) - 2) 254 = 254.
Proof. vm_compute. repeat split. Qed.

(** The last octet of the network address does not enter the targets of
    [scan_subnet]: for 192.168.1.64/26 the sweep probes 192.168.1.1 ...
    192.168.1.62. *)
Example scan_subnet_last_octet :
  commands (snd (scan_subnet Sample.env "192.168.1.64" 26 initial_state))
  = map (fun i => ping_command (Printf.dotted 192 168 1 i)) (upto 62).
Proof. vm_compute. reflexivity. Qed.

(** * Progress reports *)

Section Progress.

Variable env : Env.

Lemma discover_network_unfold :
  discover_network env
  = (reset_hosts ;;
     info <- get_local_network_info env ;;
     match info with
     | None => ret (-1)
     | Some (local_ip, network_addr, netmask) =>
         let host_bits := get_host_bits env netmask in
         let max_hosts := max_hosts_of host_bits in
         for_each has_room
           (network_body env (parse_ip network_addr (indet env))
              (parse_ip netmask (indet env)) host_bits
              (progress_step_of max_hosts))
           (upto max_hosts) tt ;;
         get_count
     end).
Proof. reflexivity. Qed.

Lemma adds_one_network_body (n m : int4) (hb step i : Z) (u : unit) :
  adds_one (network_body env n m hb step i u).
Proof.
  unfold network_body.
  apply adds_one_bind_r; [apply adds_none_ping|]. intros r.
  apply adds_one_bind_l; [apply adds_one_when_add_host|].
  intros u'. apply adds_none_when, adds_none_print.
Qed.

Lemma network_body_stdout (n m : int4) (hb step i : Z) (u : unit)
  (s : State) :
  stdout (snd (network_body env n m hb step i u s))
  = (stdout s ++ (if CInt.rem i step =? 0 then [out_tick] else []))%list.
Proof.
  unfold network_body. cbv zeta.
  rewrite bind_snd. cbv beta. rewrite bind_snd. cbv beta.
  match goal with
  | |- stdout (snd (when _ _ ?st)) = _ =>
      assert (E : stdout st = stdout s)
  end.
  { destruct (_ >? 0); cbn [when add_host ret snd stdout];
      apply ping_host_system_stdout. }
  destruct (CInt.rem i step =? 0); cbn [when print ret snd stdout];
    rewrite E; [reflexivity|rewrite app_nil_r; reflexivity].
Qed.

Lemma max_hosts_of_le (host_bits : Z) : max_hosts_of host_bits <= 254.
Proof.
  unfold max_hosts_of. destruct (_ >? 254) eqn:E; [lia|].
  rewrite Z.gtb_ltb in E. apply Z.ltb_ge in E. exact E.
Qed.

(** The marks of the progress bar that a run of [discover_network]
    prints. *)
Lemma discover_network_stdout (s : State)
  (local_ip network_addr netmask : string) :
  fst (get_local_network_info env s) = Some (local_ip, network_addr, netmask) ->
  let max_hosts := max_hosts_of (get_host_bits env netmask) in
  stdout (snd (discover_network env s))
  = (stdout s
     ++ flat_map
          (fun i => if CInt.rem i (progress_step_of max_hosts) =? 0
                    then [out_tick] else [])
          (upto max_hosts))%list.
Proof.
  intros Hinfo max_hosts. rewrite discover_network_unfold.
  rewrite bind_snd. cbv beta. rewrite bind_snd. cbv beta.
  set (s0 := snd (reset_hosts s)).
  assert (Hi : get_local_network_info env s0
               = (Some (local_ip, network_addr, netmask), s0)).
  { unfold get_local_network_info in *. cbn [fst] in Hinfo.
    subst s0. cbn [reset_hosts snd commands]. rewrite Hinfo. reflexivity. }
  rewrite Hi. cbn [fst snd]. cbv zeta.
  rewrite bind_snd. cbv beta. unfold get_count. cbn [snd].
  fold max_hosts.
  rewrite for_each_has_room_all;
    [|intros; apply adds_one_network_body|].
  - rewrite (for_each_trace stdout
               (fun i => if CInt.rem i (progress_step_of max_hosts) =? 0
                         then [out_tick] else [])).
    + reflexivity.
    + intros i u st _. apply network_body_stdout.
  - subst s0. unfold upto. rewrite length_map, length_seq.
    cbn [discovered_count reset_hosts snd discovered_hosts List.length].
    pose proof (max_hosts_of_le (get_host_bits env netmask)).
    fold max_hosts in H. unfold MAX_DISCOVERED_HOSTS. lia.
Qed.

Lemma host_bits_loop_range (fuel : nat) (mask test host_bits : Z) :
  0 <= host_bits <= 32 ->
  0 <= host_bits_loop fuel mask test host_bits <= 32.
Proof.
  revert test host_bits.
  induction fuel as [|fuel IH]; intros test hb H; cbn [host_bits_loop];
    [exact H|].
  destruct (Z.land mask test =? 0); cbn [andb]; [|exact H].
  destruct (hb <? 32) eqn:E; [|exact H].
  apply Z.ltb_lt in E. apply IH. lia.
Qed.

Lemma get_host_bits_range (netmask : string) :
  0 <= get_host_bits env netmask <= 32.
Proof. unfold get_host_bits. apply host_bits_loop_range. lia. Qed.

End Progress.

(** The marks of the sweeps that a netmask can give: [max_hosts] is -1, 0,
    2, 6, 14, 30, 62, 126 or 254, and the bar has 0, 0, 2, 6, 14, 30, 20, 21
    or 21 marks. *)
Lemma ticks_of_host_bits (host_bits : Z) :
  0 <= host_bits <= 32 ->
  let max_hosts := max_hosts_of host_bits in
  flat_map
    (fun i => if CInt.rem i (progress_step_of max_hosts) =? 0
              then [out_tick] else [])
    (upto max_hosts)
  = repeat out_tick (Z.to_nat (tick_count max_hosts))
  /\ In (max_hosts, tick_count max_hosts)
       [(-1, 0); (0, 0); (2, 2); (6, 6); (14, 14); (30, 30); (62, 20);
        (126, 21); (254, 21)].
Proof.
  intros H.
  assert (E : host_bits = 0 \/ host_bits = 1 \/ host_bits = 2
              \/ host_bits = 3 \/ host_bits = 4 \/ host_bits = 5
              \/ host_bits = 6 \/ host_bits = 7 \/ 8 <= host_bits <= 30
              \/ host_bits = 31 \/ host_bits = 32) by lia.
  destruct E as [E|[E|[E|[E|[E|[E|[E|[E|[E|[E|E]]]]]]]]]];
    try (subst host_bits; vm_compute; split; [reflexivity|tauto]).
  assert (Hm : max_hosts_of host_bits = 254).
  { unfold max_hosts_of, CInt.sub, CInt.shl, CInt.wrap.
    rewrite (Z.mod_small host_bits 32) by lia.
    rewrite Z.shiftl_mul_pow2 by lia.
    assert (Hpow : 2 ^ 8 <= 2 ^ host_bits <= 2 ^ 30)
      by (split; apply Z.pow_le_mono_r; lia).
    change (2 ^ 8) with 256 in Hpow. change (2 ^ 30) with 1073741824 in Hpow.
    change (2 ^ 31) with 2147483648. change (2 ^ 32) with 4294967296.
    rewrite (Z.mod_small (1 * 2 ^ host_bits + 2147483648)) by lia.
    rewrite Z.mod_small by lia.
    destruct (_ >? 254) eqn:G; [reflexivity|].
    rewrite Z.gtb_ltb in G. apply Z.ltb_ge in G. lia. }
  cbv zeta. rewrite Hm. vm_compute. split; [reflexivity|tauto].
Qed.

(** The progress lines of a full sweep of [scan_subnet]: one for every
    multiple of 50. *)
Lemma progress_of_prefix (prefix_len : Z) :
  16 <= prefix_len <= 30 ->
  let n := candidate_count prefix_len in
  flat_map (fun i => if CInt.rem i 50 =? 0 then [out_progress i n] else [])
    (upto n)
  = map (fun k => out_progress (50 * k) n) (upto (n / 50))
  /\ 0 <= n / 50 <= 5.
Proof.
  intros H. apply prefix_cases in H.
  repeat (destruct H as [H|H];
          [subst; vm_compute; split;
           [reflexivity|split; discriminate]|]).
  subst; vm_compute; split; [reflexivity|split; discriminate].
Qed.

(** The lines of the rounds [1 .. k] that are multiples of [step]: one
    for each of the [k / step] multiples of [step] up to [k]. *)
Lemma marks_upto (f : Z -> output) (step : Z) (k : nat) :
  1 <= step ->
  flat_map (fun i => if CInt.rem i step =? 0 then [f i] else [])
    (upto (Z.of_nat k))
  = map (fun j => f (step * j)) (upto (Z.of_nat k / step)).
Proof.
  intros Hstep. induction k as [|k IH].
  - rewrite Z.div_0_l by lia. reflexivity.
  - rewrite upto_S, flat_map_app, IH. cbn [flat_map]. rewrite app_nil_r.
    unfold CInt.rem. rewrite Z.rem_mod_nonneg by lia.
    set (m := Z.of_nat (S k)).
    assert (Hm : m = Z.of_nat k + 1) by (unfold m; lia).
    assert (Hq : 0 <= Z.of_nat k / step) by (apply Z.div_pos; lia).
    destruct (m mod step =? 0) eqn:E.
    + apply Z.eqb_eq in E.
      assert (Hd : m / step = Z.of_nat k / step + 1).
      { pose proof (Z.div_mod m step ltac:(lia)) as D1.
        pose proof (Z.div_mod (Z.of_nat k) step ltac:(lia)) as D2.
        pose proof (Z.mod_pos_bound (Z.of_nat k) step ltac:(lia)) as B2.
        rewrite E in D1. nia. }
      rewrite Hd.
      replace (Z.of_nat k / step + 1)
        with (Z.of_nat (S (Z.to_nat (Z.of_nat k / step)))) by lia.
      rewrite upto_S, map_app. rewrite Z2Nat.id by lia.
      cbn [map]. do 3 f_equal.
      pose proof (Z.div_mod m step ltac:(lia)) as D1. rewrite E in D1.
      rewrite Hd in D1. lia.
    + apply Z.eqb_neq in E. rewrite app_nil_r.
      assert (Hd : m / step = Z.of_nat k / step).
      { pose proof (Z.div_mod m step ltac:(lia)) as D1.
        pose proof (Z.div_mod (Z.of_nat k) step ltac:(lia)) as D2.
        pose proof (Z.mod_pos_bound (Z.of_nat k) step ltac:(lia)) as B2.
        pose proof (Z.mod_pos_bound m step ltac:(lia)) as B1.
        nia. }
      rewrite Hd. reflexivity.
Qed.

Section Cadence.

Variable env : Env.

(** The marks on the bar of [discover_network] after the rounds
    [1 .. k]. *)
Lemma network_rounds_stdout (n m : int4) (hb step : Z) (k : nat)
  (s : State) :
  1 <= step ->
  (discovered_count s + k <= MAX_DISCOVERED_HOSTS)%nat ->
  stdout (snd (for_each has_room (network_body env n m hb step)
                 (upto (Z.of_nat k)) tt s))
  = (stdout s ++ repeat out_tick (Z.to_nat (Z.of_nat k / step)))%list.
Proof.
  intros Hstep Hroom.
  rewrite for_each_has_room_all;
    [|intros; apply adds_one_network_body
     |rewrite upto_length, Nat2Z.id; exact Hroom].
  rewrite (for_each_trace stdout
             (fun i => if CInt.rem i step =? 0 then [out_tick] else []));
    [|intros i u st _; apply network_body_stdout].
  rewrite (marks_upto (fun _ => out_tick)) by exact Hstep.
  rewrite map_const_repeat, upto_length. reflexivity.
Qed.

(** The progress lines of [scan_subnet] after the rounds [1 .. k]. *)
Lemma scan_rounds_stdout (o : int4) (hb n : Z) (k : nat) (found : Z)
  (s : State) :
  (discovered_count s + k <= MAX_DISCOVERED_HOSTS)%nat ->
  stdout (snd (for_each has_room (scan_body env o hb n)
                 (upto (Z.of_nat k)) found s))
  = (stdout s
     ++ map (fun j => out_progress (50 * j) n)
          (upto (Z.of_nat k / 50)))%list.
Proof.
  intros Hroom.
  rewrite for_each_has_room_all;
    [|intros; apply adds_one_scan_body
     |rewrite upto_length, Nat2Z.id; exact Hroom].
  rewrite (for_each_trace stdout
             (fun i => if CInt.rem i 50 =? 0 then [out_progress i n]
                       else []));
    [|intros i u st _; apply scan_body_stdout].
  rewrite (marks_upto (fun i => out_progress i n)) by lia.
  reflexivity.
Qed.

End Cadence.

Lemma progress_step_max (max_hosts : Z) :
  -1 <= max_hosts <= 254 ->
  progress_step_of max_hosts = Z.max 1 (max_hosts / 20).
Proof.
  intros H. unfold progress_step_of, CInt.div.
  destruct (Z.eq_dec max_hosts (-1)) as [->|Hn]; [reflexivity|].
  rewrite Z.quot_div_nonneg by lia.
  destruct (_ <? 1) eqn:E; [apply Z.ltb_lt in E|apply Z.ltb_ge in E]; lia.
Qed.

(** * C7 *)

(** C7, as the code has it.  The sweep of [discover_network] over
    [max_hosts] candidates runs the rounds 1 .. [max_hosts], one candidate
    each, and prints one mark of its progress bar every
    [step = max (1, max_hosts / 20)] candidates: after the [k] first
    candidates the bar has [k / step] marks, [tick_count max_hosts] marks
    in all, which is 20 or 21 marks for the sweeps of 62, 126 and 254
    candidates, 30 marks for 30 candidates and one mark per candidate
    below 20.  A sweep of [scan_subnet] over [n] candidates that the
    registry has room for prints one progress line every 50 candidates:
    after the [k] first candidates it has printed the lines of the
    candidates 50, 100, ... up to [k], [n / 50] lines in all, at most
    5. *)
Theorem progress_cadence :
  (forall (env : Env) (s : State) (local_ip network_addr netmask : string),
      fst (get_local_network_info env s)
      = Some (local_ip, network_addr, netmask) ->
      let max_hosts := max_hosts_of (get_host_bits env netmask) in
      let step := Z.max 1 (max_hosts / 20) in
      let round :=
        network_body env (parse_ip network_addr (indet env))
          (parse_ip netmask (indet env)) (get_host_bits env netmask) step in
      let after k :=
        for_each has_room round (upto k) tt (snd (reset_hosts s)) in
      stdout (snd (discover_network env s))
      = (stdout s ++ repeat out_tick (Z.to_nat (tick_count max_hosts)))%list
      /\ In (max_hosts, tick_count max_hosts)
           [(-1, 0); (0, 0); (2, 2); (6, 6); (14, 14); (30, 30); (62, 20);
            (126, 21); (254, 21)]
      /\ snd (discover_network env s) = snd (after max_hosts)
      /\ (forall k, 1 <= k <= max_hosts ->
             after k = round k tt (snd (after (k - 1))))
      /\ (forall k, 0 <= k <= max_hosts ->
             stdout (snd (after k))
             = (stdout s ++ repeat out_tick (Z.to_nat (k / step)))%list))
  /\ (forall (env : Env) (network_addr : string) (prefix_len : Z)
             (s : State),
         16 <= prefix_len <= 30 ->
         (discovered_count s + Z.to_nat (candidate_count prefix_len)
          <= MAX_DISCOVERED_HOSTS)%nat ->
         let n := candidate_count prefix_len in
         let round :=
           scan_body env (parse_ip network_addr (indet env))
             (CInt.sub 32 prefix_len) n in
         let after k := for_each has_room round (upto k) 0 s in
         stdout (snd (scan_subnet env network_addr prefix_len s))
         = (stdout s
            ++ map (fun j => out_progress (50 * j) n) (upto (n / 50)))%list
         /\ 0 <= n / 50 <= 5
         /\ scan_subnet env network_addr prefix_len s = after n
         /\ (forall k, 1 <= k <= n ->
                after k = round k (fst (after (k - 1))) (snd (after (k - 1))))
         /\ (forall k, 0 <= k <= n ->
                stdout (snd (after k))
                = (stdout s
                   ++ map (fun j => out_progress (50 * j) n)
                        (upto (k / 50)))%list)).
Proof.
  split.
  - intros env s local_ip network_addr netmask Hinfo max_hosts step round
      after.
    destruct (ticks_of_host_bits (get_host_bits env netmask)
                (get_host_bits_range env netmask)) as [Ht Hin].
    fold max_hosts in Ht, Hin.
    assert (Hmax : -1 <= max_hosts <= 254).
    { cbn [In] in Hin.
      repeat (destruct Hin as [Hin|Hin];
              [injection Hin as <- _; lia|]).
      contradiction. }
    assert (Hstep : progress_step_of max_hosts = step)
      by (apply progress_step_max, Hmax).
    assert (Hrun : snd (discover_network env s) = snd (after max_hosts)).
    { rewrite discover_network_unfold.
      rewrite bind_snd. cbv beta. rewrite bind_snd. cbv beta.
      set (s0 := snd (reset_hosts s)).
      assert (Hi : get_local_network_info env s0
                   = (Some (local_ip, network_addr, netmask), s0)).
      { unfold get_local_network_info in *. cbn [fst] in Hinfo.
        subst s0. cbn [reset_hosts snd commands]. rewrite Hinfo.
        reflexivity. }
      rewrite Hi. cbn [fst snd]. cbv zeta.
      rewrite bind_snd. cbv beta. unfold get_count. cbn [snd].
      fold max_hosts. rewrite Hstep. reflexivity. }
    assert (Hroom : forall k : nat,
               Z.of_nat k <= 254 ->
               (discovered_count (snd (reset_hosts s)) + k
                <= MAX_DISCOVERED_HOSTS)%nat).
    { intros k Hk.
      cbn [discovered_count reset_hosts snd discovered_hosts List.length].
      unfold MAX_DISCOVERED_HOSTS. lia. }
    split; [|split; [exact Hin|split; [exact Hrun|split]]].
    + rewrite (discover_network_stdout env s _ _ _ Hinfo).
      fold max_hosts. rewrite Ht. reflexivity.
    + intros k Hk. unfold after.
      replace k with (Z.of_nat (S (Z.to_nat (k - 1)))) at 1 2 by lia.
      replace (k - 1) with (Z.of_nat (Z.to_nat (k - 1))) at 2 by lia.
      rewrite for_each_next_round;
        [|intros; apply adds_one_network_body|apply Hroom; lia].
      destruct (fst (for_each _ _ _ _ _)).
      replace (Z.of_nat (Z.to_nat (k - 1))) with (k - 1) by lia.
      reflexivity.
    + intros k Hk. unfold after, round.
      replace k with (Z.of_nat (Z.to_nat k)) by lia.
      rewrite network_rounds_stdout;
        [|unfold step; lia|apply Hroom; lia].
      reflexivity.
  - intros env network_addr prefix_len s Hp Hroom n round after.
    destruct (max_hosts_of_prefix prefix_len Hp) as [Hmax Hrange].
    destruct (progress_of_prefix prefix_len Hp) as [Hl Hr].
    fold n in Hroom, Hrange, Hl, Hr.
    assert (Hrun : scan_subnet env network_addr prefix_len s = after n).
    { rewrite scan_subnet_unfold. cbv zeta. rewrite Hmax. fold n.
      assert (E : (n <=? 0) = false) by (apply Z.leb_gt; lia).
      rewrite E. reflexivity. }
    assert (Hout : forall k, 0 <= k <= n ->
               stdout (snd (after k))
               = (stdout s
                  ++ map (fun j => out_progress (50 * j) n)
                       (upto (k / 50)))%list).
    { intros k Hk. unfold after, round.
      replace k with (Z.of_nat (Z.to_nat k)) by lia.
      rewrite scan_rounds_stdout by lia. reflexivity. }
    split; [|split; [exact Hr|split; [exact Hrun|split; [|exact Hout]]]].
    + rewrite Hrun. apply Hout. lia.
    + intros k Hk. unfold after.
      replace k with (Z.of_nat (S (Z.to_nat (k - 1)))) at 1 2 by lia.
      replace (k - 1) with (Z.of_nat (Z.to_nat (k - 1))) at 2 3 by lia.
      rewrite for_each_next_round;
        [|intros; apply adds_one_scan_body|lia].
      replace (Z.of_nat (Z.to_nat (k - 1))) with (k - 1) by lia.
      reflexivity.
Qed.


Lemma progress_cadence_witness :
  let round :=
    network_body Sample.env (192, 168, 1, 0) (255, 255, 255, 0) 8 12 in
  stdout (snd (discover_network Sample.env initial_state))
  = repeat out_tick 21
  /\ In (254, 21)
       [(-1, 0); (0, 0); (2, 2); (6, 6); (14, 14); (30, 30); (62, 20);
        (126, 21); (254, 21)]
  /\ stdout (snd (for_each has_room round (upto 11) tt initial_state)) = []
  /\ stdout (snd (for_each has_room round (upto 12) tt initial_state))
     = [out_tick]
  /\ stdout (snd (for_each has_room round (upto 24) tt initial_state))
     = [out_tick; out_tick].
Proof.
  destruct (proj1 progress_cadence Sample.env initial_state
              "192.168.1.10" "192.168.1.0" "255.255.255.0" eq_refl)
    as [Hall [Hin [_ [_ Hk]]]].
  split; [exact Hall|]. split; [exact Hin|].
  assert (H11 : 0 <= 11 <= 254) by lia.
  assert (H12 : 0 <= 12 <= 254) by lia.
  assert (H24 : 0 <= 24 <= 254) by lia.
  split; [exact (Hk 11 H11)|]. split; [exact (Hk 12 H12)|exact (Hk 24 H24)].
Defined.

(** The claim fails for [scan_subnet]: the sweep of the 254 candidates of
    192.168.1.0/24 prints 5 progress lines, after the candidates 50, 100,
    150, 200 and 250, not about 20. *)
Lemma scan_subnet_progress_every_50 :
  stdout (snd (scan_subnet Sample.env "192.168.1.0" 24 initial_state))
  = [out_progress 50 254; out_progress 100 254; out_progress 150 254;
     out_progress 200 254; out_progress 250 254]
  /\ List.length
       (commands (snd (scan_subnet Sample.env "192.168.1.0" 24
                         initial_state)))
     = 254%nat.
Proof. vm_compute. split; reflexivity. Qed.

(** * C2 *)

(** The insertion after a search keeps the addresses of the registry
    pairwise distinct, for an address that fits the buffer. *)
Lemma add_if_new_nodup (ip : string) (rt : Z) (s : State) :
  fits ip ->
  NoDup (map ip_address (discovered_hosts s)) ->
  NoDup (map ip_address (discovered_hosts (snd (add_if_new ip rt s)))).
Proof.
  intros Hfit Hnd. unfold add_if_new, bind, get_hosts.
  destruct (already_found ip (discovered_hosts s)) eqn:E; [exact Hnd|].
  cbn [add_host ret snd discovered_hosts]. rewrite map_app. cbn [map ip_address].
  rewrite Hfit. apply NoDup_app; [exact Hnd|constructor; [easy|constructor]|].
  intros x Hx [<-|[]]. apply in_map_iff in Hx. destruct Hx as [h [Eh Hh]].
  assert (Ef : already_found (ip_address h) (discovered_hosts s) = true).
  { unfold already_found. apply existsb_exists. exists h.
    split; [exact Hh|apply String.eqb_refl]. }
  congruence.
Qed.

(** [scan_subnet], which searches the registry before it stores a host,
    keeps the addresses of the registry pairwise distinct. *)
Lemma scan_subnet_nodup (env : Env) (network_addr : string)
  (prefix_len : Z) :
  preserves (fun s => NoDup (map ip_address (discovered_hosts s)))
    (scan_subnet env network_addr prefix_len).
Proof.
  assert (Hon : on_hosts
                  (fun s => NoDup (map ip_address (discovered_hosts s)))).
  { intros s s' E H. rewrite E. exact H. }
  unfold scan_subnet. destruct (_ <=? 0); [apply preserves_ret|].
  apply preserves_for_each. intros i found. unfold scan_body.
  apply preserves_bind.
  { unfold ping_host_system. destruct (_ =? 0); [apply preserves_ret|].
    apply preserves_bind; [apply preserves_popen, Hon|].
    intros [text|]; apply preserves_ret. }
  intros r. apply preserves_bind.
  - destruct (r >? 0); [|apply preserves_ret].
    apply preserves_bind; [|intros; apply preserves_ret].
    intros s Hs. apply add_if_new_nodup; [|exact Hs].
    unfold subnet_target.
    destruct (parse_ip network_addr (indet env)) as [[[n0 n1] n2] n3].
    apply fits_bounded.
  - intros h. apply preserves_bind; [|intros; apply preserves_ret].
    apply preserves_when. intros _. apply preserves_print, Hon.
Qed.

(** C2 does not hold of [discover_arp_cache], which stores every line of
    the ARP cache without the search that the other collectors make: with
    the neighbour 192.168.1.1 listed on two interfaces the registry holds
    the address twice, and so does the registry of [discover_efficient],
    which starts with [discover_arp_cache].  The same lines read by
    [discover_automatic], which searches the registry first, give one
    entry. *)
Theorem discover_arp_cache_duplicates :
  map ip_address
    (discovered_hosts (snd (discover_arp_cache TwoLinks.env initial_state)))
  = ["192.168.1.1"; "192.168.1.1"]
  /\ map ip_address
       (discovered_hosts (snd (discover_efficient TwoLinks.env initial_state)))
     = ["192.168.1.1"; "192.168.1.1"]
  /\ map ip_address
       (discovered_hosts (snd (discover_automatic TwoLinks.env initial_state)))
     = ["192.168.1.1"].
Proof. vm_compute. repeat split. Qed.

(** * C9 *)

Lemma run_call_bounded (env : Env) (c : call) (s : State) :
  c <> call_discover_efficient ->
  registry_bounded s -> registry_bounded (run_call env c s).
Proof.
  intros Hc Hs. destruct c; simpl; try congruence.
  - apply (discover_network_bounded env registry_bounded), Hs.
  - apply (discover_network_quick_bounded env registry_bounded), Hs.
  - apply (discover_multi_subnet_bounded env registry_bounded), Hs.
  - apply (discover_custom_subnet_bounded env registry_bounded), Hs.
  - apply (discover_arp_cache_bounded env registry_bounded), Hs.
  - apply (discover_snmp_arp_bounded env), Hs.
  - apply (discover_netstat_bounded env registry_bounded), Hs.
  - apply (discover_automatic_bounded env registry_bounded), Hs.
  - apply (adds_none_bounded _ (adds_none_traceroute env target_ip)), Hs.
  - apply (scan_subnet_bounded env), Hs.
Qed.

(** C9 does not hold of [discover_efficient]: its last step stores the
    default gateway after the search of the registry but without the test
    [discovered_count < MAX_DISCOVERED_HOSTS] that every other insertion is
    behind.  With 1024 neighbours in the ARP cache and a gateway that is
    not among them, the function stores a host at index 1024, outside the
    array, and returns 1025. *)
Theorem discover_efficient_overflows :
  discovered_count (snd (discover_efficient Crowded.env initial_state))
  = 1025%nat
  /\ fst (discover_efficient Crowded.env initial_state) = 1025
  /\ map ip_address
       (skipn 1024
          (discovered_hosts
             (snd (discover_efficient Crowded.env initial_state))))
     = ["192.168.1.1"]
  /\ MAX_DISCOVERED_HOSTS = 1024%nat.
Proof. vm_compute. repeat split. Qed.

(** * Further properties *)

(** ** The entries of the registry *)

(** The steps that follow the shape of a computation, whatever the
    invariant. *)
Ltac inv_shape :=
  first
    [ apply preserves_ret
    | apply preserves_get_hosts
    | apply preserves_get_count
    | apply preserves_get_local_network_info
    | apply preserves_bind; [|intros]
    | apply preserves_for_each; intros
    | apply preserves_when; intros
    | match goal with
      | |- preserves _ (if ?b then _ else _) => destruct b eqn:?
      | |- preserves _ (match ?x with _ => _ end) => destruct x eqn:?
      end ].

Lemma entries_on_hosts : on_hosts registry_entries_ok.
Proof. intros s s' E H. unfold registry_entries_ok. rewrite E. exact H. Qed.

Lemma take_length (n : nat) (s : string) :
  (String.length (CStr.take n s) <= n)%nat.
Proof.
  revert s. induction n as [|n IH]; intros [|c s]; simpl; try lia.
  specialize (IH s). lia.
Qed.

Lemma add_host_entries (ip : string) (rt : Z) :
  0 <= rt < 2 ^ 31 -> preserves registry_entries_ok (add_host ip rt).
Proof.
  intros Hrt s Hs. unfold registry_entries_ok in *. simpl.
  apply Forall_app. split; [exact Hs|]. constructor; [|constructor].
  repeat split; simpl; try lia. apply (take_length 15).
Qed.

Lemma ping_reply_int (env : Env) (lines : list string) :
  ping_reply env lines < 2 ^ 31.
Proof.
  induction lines as [|l lines IH]; simpl; [lia|].
  destruct (CStr.strstr l "time="); [|exact IH].
  destruct (scan_float env _); [|lia].
  unfold round_time, CInt.of_double, CInt.INT_MIN, CInt.INT_MAX.
  destruct (_ && _) eqn:E.
  - apply andb_true_iff in E. destruct E as [_ E]. apply Z.leb_le in E.
    destruct (_ <? 1); lia.
  - simpl. lia.
Qed.

Lemma ping_host_system_int (env : Env) (ip : string) (s : State) :
  fst (ping_host_system env ip s) < 2 ^ 31.
Proof.
  rewrite ping_host_system_result.
  destruct (_ =? 0); [lia|]. destruct (popen_stdout _ _ _); [|lia].
  apply ping_reply_int.
Qed.

Lemma hoare_bind_pure {A B : Type} (m : M A) (k : A -> M B)
  (I : State -> Prop) (phi : A -> Prop) :
  hoare I m (fun a s => I s /\ phi a) ->
  (forall a, phi a -> preserves I (k a)) -> preserves I (bind m k).
Proof.
  intros Hm Hk. eapply hoare_bind; [exact Hm|].
  intros a s [Hs Ha]. exact (Hk a Ha s Hs).
Qed.

Lemma reset_hosts_entries : preserves registry_entries_ok reset_hosts.
Proof. intros s _. constructor. Qed.

Section Entries.

Variable env : Env.

Lemma ping_host_system_entries (ip : string) :
  hoare registry_entries_ok (ping_host_system env ip)
    (fun r s => registry_entries_ok s /\ r < 2 ^ 31).
Proof.
  intros s Hs. split; [|apply ping_host_system_int].
  revert s Hs. unfold ping_host_system.
  destruct (_ =? 0); [apply preserves_ret|].
  apply preserves_bind; [apply preserves_popen, entries_on_hosts|].
  intros [t|]; apply preserves_ret.
Qed.

Ltac entries_step :=
  cbv beta;
  first
    [ match goal with
      | |- preserves _ reset_hosts => apply reset_hosts_entries
      | |- preserves _ (popen _ _) =>
          apply preserves_popen; apply entries_on_hosts
      | |- preserves _ (print _) =>
          apply preserves_print; apply entries_on_hosts
      | |- preserves _ (add_host _ _) =>
          apply add_host_entries;
          repeat match goal with
                 | H : (_ >? 0) = true |- _ => apply Z.gtb_lt in H
                 end; lia
      | |- preserves _ (bind (ping_host_system _ _) _) =>
          apply hoare_bind_pure with (phi := fun r => r < 2 ^ 31);
          [apply ping_host_system_entries|intros]
      end
    | inv_shape ].

Lemma add_if_new_entries (ip : string) (rt : Z) :
  0 <= rt < 2 ^ 31 -> preserves registry_entries_ok (add_if_new ip rt).
Proof. intros H. unfold add_if_new. repeat entries_step. Qed.

Lemma scan_subnet_entries (network_addr : string) (prefix_len : Z) :
  preserves registry_entries_ok (scan_subnet env network_addr prefix_len).
Proof.
  unfold scan_subnet, scan_body, add_if_new. repeat entries_step.
Qed.

Lemma discover_network_entries :
  preserves registry_entries_ok (discover_network env).
Proof.
  unfold discover_network, network_body. repeat entries_step.
Qed.

Lemma discover_network_quick_entries :
  preserves registry_entries_ok (discover_network_quick env).
Proof.
  unfold discover_network_quick, probe_and_add. repeat entries_step.
Qed.

Lemma traceroute_discover_entries (target_ip : string) :
  preserves registry_entries_ok (traceroute_discover env target_ip).
Proof.
  unfold traceroute_discover, traceroute_line. repeat entries_step.
Qed.

Lemma trace_and_scan_entries (network_addr : string) (targets : list string)
  (n : Z) :
  preserves registry_entries_ok (trace_and_scan env network_addr targets n).
Proof.
  induction targets as [|t targets IH]; cbn [trace_and_scan];
    [apply preserves_ret|].
  apply preserves_bind; [apply traceroute_discover_entries|].
  intros [r gateways]. destruct (r >? 0); [|exact IH].
  apply preserves_for_each. intros. unfold scan_gateway.
  repeat first [simple apply scan_subnet_entries | entries_step].
Qed.

Lemma discover_multi_subnet_entries :
  preserves registry_entries_ok (discover_multi_subnet env).
Proof.
  unfold discover_multi_subnet.
  repeat first
    [simple apply scan_subnet_entries | simple apply trace_and_scan_entries | entries_step].
Qed.

Lemma discover_arp_cache_entries :
  preserves registry_entries_ok (discover_arp_cache env).
Proof.
  unfold discover_arp_cache, arp_cache_line. repeat entries_step.
Qed.

Lemma snmp_arp_line_entries (result : string) (n : Z) :
  preserves registry_entries_ok (snmp_arp_line result n).
Proof. unfold snmp_arp_line, add_if_new. repeat entries_step. Qed.

Lemma conn_line_entries (result : string) (u : unit) :
  preserves registry_entries_ok (conn_line result u).
Proof. unfold conn_line, add_if_new. repeat entries_step. Qed.

Lemma discover_snmp_arp_entries (router_ip community : string) :
  preserves registry_entries_ok (discover_snmp_arp env router_ip community).
Proof.
  unfold discover_snmp_arp.
  repeat first [simple apply snmp_arp_line_entries | entries_step].
Qed.

Lemma discover_netstat_entries :
  preserves registry_entries_ok (discover_netstat env).
Proof.
  unfold discover_netstat.
  repeat first [simple apply conn_line_entries | entries_step].
Qed.

Lemma discover_efficient_entries :
  preserves registry_entries_ok (discover_efficient env).
Proof.
  unfold discover_efficient, efficient_gateway, add_if_new.
  repeat first
    [simple apply discover_arp_cache_entries | simple apply conn_line_entries
    | entries_step].
Qed.

Lemma try_snmp_community_entries (router_ip community : string) :
  preserves registry_entries_ok (try_snmp_community env router_ip community).
Proof.
  unfold try_snmp_community.
  repeat first [simple apply snmp_arp_line_entries | entries_step].
Qed.

Lemma try_communities_entries (current_router : string)
  (cs l : list string) :
  preserves registry_entries_ok (try_communities env current_router cs l).
Proof.
  induction cs as [|c cs IH]; cbn [try_communities]; [apply preserves_ret|].
  apply preserves_bind.
  { unfold discover_router_interfaces, interface_line. repeat entries_step. }
  intros interfaces. destruct (0 <? _)%nat; [|exact IH].
  unfold discover_nexthop_routers, nexthop_line, add_nexthop, add_if_new.
  repeat first [simple apply try_snmp_community_entries | entries_step].
Qed.

Lemma walk_routers_entries (fuel : nat) (w : walk) :
  preserves registry_entries_ok (walk_routers env fuel w).
Proof.
  revert w. induction fuel as [|fuel IH]; intros w; cbn [walk_routers];
    [apply preserves_ret|].
  destruct (_ && _); [|apply preserves_ret].
  repeat first [simple apply try_communities_entries | simple apply IH | entries_step].
Qed.

Lemma discover_automatic_entries :
  preserves registry_entries_ok (discover_automatic env).
Proof.
  unfold discover_automatic, automatic_snmp, automatic_local,
    get_default_gateway, auto_arp_line, add_if_new.
  repeat first
    [simple apply walk_routers_entries | simple apply conn_line_entries | entries_step].
Qed.

Lemma discover_custom_subnet_entries (subnet_cidr : string) :
  preserves registry_entries_ok (discover_custom_subnet env subnet_cidr).
Proof.
  unfold discover_custom_subnet.
  repeat first [simple apply scan_subnet_entries | entries_step].
Qed.

End Entries.

Lemma run_call_entries (env : Env) (c : call) (s : State) :
  registry_entries_ok s -> registry_entries_ok (run_call env c s).
Proof.
  intros H. destruct c; cbn [run_call].
  - apply (discover_network_entries env s H).
  - apply (discover_network_quick_entries env s H).
  - apply (discover_multi_subnet_entries env s H).
  - apply (discover_custom_subnet_entries env _ s H).
  - apply (discover_arp_cache_entries env s H).
  - apply (discover_snmp_arp_entries env _ _ s H).
  - apply (discover_netstat_entries env s H).
  - apply (discover_efficient_entries env s H).
  - apply (discover_automatic_entries env s H).
  - apply (traceroute_discover_entries env _ s H).
  - apply (scan_subnet_entries env _ _ s H).
Qed.

Lemma run_calls_entries (env : Env) (cs : list call) (s : State) :
  registry_entries_ok s -> registry_entries_ok (run_calls env cs s).
Proof.
  unfold run_calls. revert s.
  induction cs as [|c cs IH]; intros s H; simpl; [exact H|].
  apply IH, run_call_entries, H.
Qed.

(** ** The commands handed to the shell *)

Lemma commands_ok_on_commands : on_commands commands_ok.
Proof. intros s s' E H. unfold commands_ok. rewrite E. exact H. Qed.

Lemma popen_ok (env : Env) (cmd : string) :
  command_ok cmd -> preserves commands_ok (popen env cmd).
Proof.
  intros H s Hs. unfold commands_ok in *. simpl.
  apply Forall_app. split; [exact Hs|]. constructor; [exact H|constructor].
Qed.

Lemma validate_ip_string_nonzero (ip : string) :
  (validate_ip_string (Some ip) =? 0) = false ->
  validate_ip_string (Some ip) = 1.
Proof.
  intros H. apply Z.eqb_neq in H.
  destruct (validate_ip_string_01 (Some ip)); [assumption|contradiction].
Qed.

Lemma validate_community_string_nonzero (c : string) :
  (validate_community_string (Some c) =? 0) = false ->
  validate_community_string (Some c) = 1.
Proof.
  unfold validate_community_string. destruct c; [discriminate|].
  destruct (community_chars_ok _); [reflexivity|discriminate].
Qed.

Ltac command_facts :=
  repeat match goal with
         | H : (_ || _) = false |- _ =>
             apply orb_false_iff in H; destruct H
         | H : (validate_ip_string (Some _) =? 0) = false |- _ =>
             apply validate_ip_string_nonzero in H
         | H : (validate_community_string (Some _) =? 0) = false |- _ =>
             apply validate_community_string_nonzero in H
         | H : negb _ = false |- _ => apply negb_false_iff in H
         end.

Ltac commands_step :=
  cbv beta;
  first
    [ match goal with
      | |- preserves _ reset_hosts =>
          apply reset_hosts_commands; apply commands_ok_on_commands
      | |- preserves _ (add_host _ _) =>
          apply add_host_commands; apply commands_ok_on_commands
      | |- preserves _ (print _) =>
          apply print_commands; apply commands_ok_on_commands
      | |- preserves _ (popen _ _) =>
          apply popen_ok; command_facts;
          solve [ constructor; solve [assumption | simpl; tauto] ]
      end
    | inv_shape ].

Section CommandsOk.

Variable env : Env.

Lemma ping_host_system_ok (ip : string) :
  preserves commands_ok (ping_host_system env ip).
Proof. unfold ping_host_system. repeat commands_step. Qed.

Lemma scan_subnet_ok (network_addr : string) (prefix_len : Z) :
  preserves commands_ok (scan_subnet env network_addr prefix_len).
Proof.
  unfold scan_subnet, scan_body, add_if_new.
  repeat first [simple apply ping_host_system_ok | commands_step].
Qed.

Lemma discover_network_ok : preserves commands_ok (discover_network env).
Proof.
  unfold discover_network, network_body.
  repeat first [simple apply ping_host_system_ok | commands_step].
Qed.

Lemma discover_network_quick_ok :
  preserves commands_ok (discover_network_quick env).
Proof.
  unfold discover_network_quick, probe_and_add.
  repeat first [simple apply ping_host_system_ok | commands_step].
Qed.

Lemma traceroute_discover_ok (target_ip : string) :
  preserves commands_ok (traceroute_discover env target_ip).
Proof.
  unfold traceroute_discover, traceroute_line. repeat commands_step.
Qed.

Lemma trace_and_scan_ok (network_addr : string) (targets : list string)
  (n : Z) :
  preserves commands_ok (trace_and_scan env network_addr targets n).
Proof.
  induction targets as [|t targets IH]; cbn [trace_and_scan];
    [apply preserves_ret|].
  apply preserves_bind; [apply traceroute_discover_ok|].
  intros [r gateways]. destruct (r >? 0); [|exact IH].
  apply preserves_for_each. intros. unfold scan_gateway.
  repeat first [simple apply scan_subnet_ok | commands_step].
Qed.

Lemma discover_multi_subnet_ok :
  preserves commands_ok (discover_multi_subnet env).
Proof.
  unfold discover_multi_subnet.
  repeat first [simple apply scan_subnet_ok | simple apply trace_and_scan_ok | commands_step].
Qed.

Lemma discover_arp_cache_ok : preserves commands_ok (discover_arp_cache env).
Proof. unfold discover_arp_cache, arp_cache_line. repeat commands_step. Qed.

Lemma snmp_arp_line_ok (result : string) (n : Z) :
  preserves commands_ok (snmp_arp_line result n).
Proof. unfold snmp_arp_line, add_if_new. repeat commands_step. Qed.

Lemma conn_line_ok (result : string) (u : unit) :
  preserves commands_ok (conn_line result u).
Proof. unfold conn_line, add_if_new. repeat commands_step. Qed.

Lemma discover_snmp_arp_ok (router_ip community : string) :
  preserves commands_ok (discover_snmp_arp env router_ip community).
Proof.
  unfold discover_snmp_arp.
  repeat first [simple apply snmp_arp_line_ok | commands_step].
Qed.

Lemma discover_netstat_ok : preserves commands_ok (discover_netstat env).
Proof.
  unfold discover_netstat. repeat first [simple apply conn_line_ok | commands_step].
Qed.

Lemma discover_efficient_ok : preserves commands_ok (discover_efficient env).
Proof.
  unfold discover_efficient, efficient_gateway, add_if_new.
  repeat first
    [simple apply discover_arp_cache_ok | simple apply conn_line_ok | commands_step].
Qed.

Lemma try_snmp_community_ok (router_ip community : string) :
  preserves commands_ok (try_snmp_community env router_ip community).
Proof.
  unfold try_snmp_community.
  repeat first [simple apply snmp_arp_line_ok | commands_step].
Qed.

Lemma try_communities_ok (current_router : string) (cs l : list string) :
  preserves commands_ok (try_communities env current_router cs l).
Proof.
  induction cs as [|c cs IH]; cbn [try_communities]; [apply preserves_ret|].
  apply preserves_bind.
  { unfold discover_router_interfaces, interface_line. repeat commands_step. }
  intros interfaces. destruct (0 <? _)%nat; [|exact IH].
  unfold discover_nexthop_routers, nexthop_line, add_nexthop, add_if_new.
  repeat first [simple apply try_snmp_community_ok | commands_step].
Qed.

Lemma walk_routers_ok (fuel : nat) (w : walk) :
  preserves commands_ok (walk_routers env fuel w).
Proof.
  revert w. induction fuel as [|fuel IH]; intros w; cbn [walk_routers];
    [apply preserves_ret|].
  destruct (_ && _); [|apply preserves_ret].
  repeat first [simple apply try_communities_ok | simple apply IH | commands_step].
Qed.

Lemma discover_automatic_ok : preserves commands_ok (discover_automatic env).
Proof.
  unfold discover_automatic, automatic_snmp, automatic_local,
    get_default_gateway, auto_arp_line, add_if_new.
  repeat first
    [simple apply walk_routers_ok | simple apply conn_line_ok | commands_step].
Qed.

Lemma discover_custom_subnet_ok (subnet_cidr : string) :
  preserves commands_ok (discover_custom_subnet env subnet_cidr).
Proof.
  unfold discover_custom_subnet.
  repeat first [simple apply scan_subnet_ok | commands_step].
Qed.

End CommandsOk.

Lemma run_call_ok (env : Env) (c : call) (s : State) :
  commands_ok s -> commands_ok (run_call env c s).
Proof.
  intros H. destruct c; cbn [run_call].
  - apply (discover_network_ok env s H).
  - apply (discover_network_quick_ok env s H).
  - apply (discover_multi_subnet_ok env s H).
  - apply (discover_custom_subnet_ok env _ s H).
  - apply (discover_arp_cache_ok env s H).
  - apply (discover_snmp_arp_ok env _ _ s H).
  - apply (discover_netstat_ok env s H).
  - apply (discover_efficient_ok env s H).
  - apply (discover_automatic_ok env s H).
  - apply (traceroute_discover_ok env _ s H).
  - apply (scan_subnet_ok env _ _ s H).
Qed.

(** ** Communities, commands and lookups *)

Lemma is_community_char_charset (c : ascii) :
  is_community_char c = existsb (Ascii.eqb c) community_charset.
Proof. destruct c as [[] [] [] [] [] [] [] []]; vm_compute; reflexivity. Qed.

Lemma is_community_char_In (c : ascii) :
  is_community_char c = true <-> In c community_charset.
Proof.
  rewrite is_community_char_charset, existsb_exists. split.
  - intros [x [Hx E]]. apply Ascii.eqb_eq in E. subst. exact Hx.
  - intros H. exists c. split; [exact H|apply Ascii.eqb_refl].
Qed.

Lemma community_chars_ok_In (s : string) :
  community_chars_ok s = true <->
  (forall c, In c (list_ascii_of_string s) -> In c community_charset).
Proof.
  induction s as [|a s IH]; simpl.
  - split; [intros _ c []|reflexivity].
  - destruct (is_community_char a) eqn:E.
    + rewrite IH. apply is_community_char_In in E. split.
      * intros H c [<-|Hc]; [exact E|exact (H c Hc)].
      * intros H c Hc. apply H. right. exact Hc.
    + split; [discriminate|]. intros H.
      assert (Ha : In a community_charset) by (apply H; left; reflexivity).
      apply is_community_char_In in Ha. congruence.
Qed.

(** X1: [validate_community_string] returns 1 exactly for the non-empty
    strings made of letters, digits, [_] and [-]; for every other string,
    and for NULL, it returns 0. *)
Theorem validate_community_string_charset :
  (forall s : string,
      (validate_community_string (Some s) = 1 <->
       s <> "" /\
       (forall c, In c (list_ascii_of_string s) -> In c community_charset))
      /\ (validate_community_string (Some s) = 1
          \/ validate_community_string (Some s) = 0))
  /\ validate_community_string None = 0.
Proof.
  split; [|reflexivity]. intros s. split.
  - unfold validate_community_string. destruct s as [|a s].
    + split; [discriminate|]. intros [H _]. contradiction.
    + rewrite <- community_chars_ok_In.
      destruct (community_chars_ok (String a s)).
      * split; [intros _; split; [discriminate|reflexivity]|reflexivity].
      * split; [discriminate|]. intros [_ H]. discriminate.
  - unfold validate_community_string. destruct s; [right; reflexivity|].
    destruct (community_chars_ok _); [left|right]; reflexivity.
Qed.

Lemma chars_app (a b : string) :
  list_ascii_of_string (a ++ b)
  = (list_ascii_of_string a ++ list_ascii_of_string b)%list.
Proof. induction a as [|c a IH]; simpl; [reflexivity|]. now rewrite IH. Qed.

Lemma clean_app (a b : string) : clean (a ++ b) = clean a && clean b.
Proof. unfold clean. now rewrite chars_app, forallb_app. Qed.

Lemma clean_take (n : nat) (s : string) :
  clean s = true -> clean (CStr.take n s) = true.
Proof.
  unfold clean. rewrite !forallb_forall. intros H c Hc.
  apply H. exact (take_chars n s c Hc).
Qed.

Lemma clean_bounded (n : nat) (s : string) :
  clean s = true -> clean (CStr.bounded n s) = true.
Proof. apply clean_take. Qed.

Lemma ip_char_clean (c : ascii) :
  ((c <? "0")%char || ("9" <? c)%char) && negb (c =? ".")%char = false ->
  clean_char c = true.
Proof.
  destruct c as [[] [] [] [] [] [] [] []]; vm_compute; intros H;
    first [reflexivity | discriminate H].
Qed.

Lemma valid_ip_clean (ip : string) :
  validate_ip_string (Some ip) = 1 -> clean ip = true.
Proof.
  intros H. assert (Hc : ip_chars_ok ip = 1).
  { destruct ip; [discriminate|exact H]. }
  clear H. unfold clean. induction ip as [|c ip IH]; [reflexivity|].
  cbn [ip_chars_ok] in Hc. cbn [list_ascii_of_string forallb].
  destruct (_ && _) eqn:E; [discriminate|].
  rewrite (ip_char_clean c E). exact (IH Hc).
Qed.

Lemma community_char_clean (c : ascii) :
  is_community_char c = true -> clean_char c = true.
Proof.
  destruct c as [[] [] [] [] [] [] [] []]; vm_compute; intros H;
    first [reflexivity | discriminate H].
Qed.

Lemma community_clean (c : string) :
  community_chars_ok c = true -> clean c = true.
Proof.
  unfold clean. induction c as [|a c IH]; [reflexivity|].
  cbn [community_chars_ok list_ascii_of_string forallb].
  destruct (is_community_char a) eqn:E; [|discriminate].
  rewrite (community_char_clean a E). exact IH.
Qed.

Lemma validate_community_string_ok (c : string) :
  validate_community_string (Some c) = 1 -> community_chars_ok c = true.
Proof.
  unfold validate_community_string. destruct c; [discriminate|].
  destruct (community_chars_ok _); [reflexivity|discriminate].
Qed.

Lemma command_ok_clean (cmd : string) : command_ok cmd -> clean cmd = true.
Proof.
  intros H. destruct H as [| | |ip Hip|ip Hip|r c Hr Hc|r c oid Hr Hc Ho].
  - reflexivity.
  - reflexivity.
  - reflexivity.
  - apply clean_bounded. rewrite !clean_app, (valid_ip_clean ip Hip).
    reflexivity.
  - apply clean_bounded. rewrite !clean_app, (valid_ip_clean ip Hip).
    reflexivity.
  - apply clean_bounded.
    rewrite !clean_app, (valid_ip_clean r Hr), (community_clean c Hc).
    reflexivity.
  - apply clean_bounded.
    rewrite !clean_app, (valid_ip_clean r Hr),
      (community_clean c (validate_community_string_ok c Hc)).
    assert (Hoid : clean oid = true).
    { destruct Ho as [<-|[<-|[<-|[]]]]; reflexivity. }
    rewrite Hoid. reflexivity.
Qed.

Lemma run_calls_ok (env : Env) (cs : list call) (s : State) :
  commands_ok s -> commands_ok (run_calls env cs s).
Proof.
  unfold run_calls. revert s.
  induction cs as [|c cs IH]; intros s H; simpl; [exact H|].
  apply IH, run_call_ok, H.
Qed.

(** X2: whatever functions of the module are called, with whatever
    arguments and whatever the system answers, every command handed to
    [popen] is one of the three fixed commands or the template of ping,
    traceroute or snmpwalk filled with an address that passed
    [validate_ip_string] and a community made of the characters the code
    allows; it contains none of the characters of [shell_breakers]. *)
Theorem commands_well_formed :
  forall (env : Env) (calls : list call) (cmd : string),
    In cmd (commands (run_calls env calls initial_state)) ->
    command_ok cmd
    /\ (forall c, In c (list_ascii_of_string cmd) -> ~ In c shell_breakers).
Proof.
  intros env calls cmd Hin.
  assert (Hok : command_ok cmd).
  { assert (H : commands_ok (run_calls env calls initial_state)).
    { apply run_calls_ok. constructor. }
    unfold commands_ok in H. rewrite Forall_forall in H. exact (H cmd Hin). }
  split; [exact Hok|]. intros c Hc Hbad.
  pose proof (command_ok_clean cmd Hok) as Hclean.
  unfold clean in Hclean. rewrite forallb_forall in Hclean.
  specialize (Hclean c Hc). unfold clean_char in Hclean.
  apply negb_true_iff in Hclean.
  assert (existsb (Ascii.eqb c) shell_breakers = true).
  { apply existsb_exists. exists c. split; [exact Hbad|apply Ascii.eqb_refl]. }
  congruence.
Qed.

Lemma commands_well_formed_witness :
  command_ok "ping -c 1 -W 1 10.0.0.1 2>/dev/null"
  /\ (forall c,
         In c (list_ascii_of_string "ping -c 1 -W 1 10.0.0.1 2>/dev/null") ->
         ~ In c shell_breakers).
Proof.
  apply (commands_well_formed Sample.env [call_scan_subnet "10.0.0.0" 30]).
  vm_compute. left. reflexivity.
Defined.

(** X3: a community that contains a character other than letters, digits,
    [_] and [-] is refused by [try_snmp_community],
    [discover_nexthop_routers], [discover_router_interfaces] and
    [discover_snmp_arp]: they return 0, no address, or -1, and leave the
    state as it was, so no command is run. *)
Theorem malformed_community_rejected :
  forall (env : Env) (router_ip community : string) (c : ascii) (n : nat)
         (s : State),
    In c (list_ascii_of_string community) ->
    ~ In c community_charset ->
    try_snmp_community env router_ip community s = (0, s)
    /\ discover_nexthop_routers env router_ip community n s = ([], s)
    /\ discover_router_interfaces env router_ip community n s = ([], s)
    /\ discover_snmp_arp env router_ip community s = (-1, s).
Proof.
  intros env router_ip community c n s Hc Hbad.
  assert (Hchars : community_chars_ok community = false).
  { destruct (community_chars_ok community) eqn:E; [|reflexivity].
    exfalso. apply Hbad.
    exact (proj1 (community_chars_ok_In community) E c Hc). }
  assert (Hv : validate_community_string (Some community) = 0).
  { unfold validate_community_string. destruct community; [reflexivity|].
    now rewrite Hchars. }
  unfold try_snmp_community, discover_nexthop_routers,
    discover_router_interfaces, discover_snmp_arp.
  rewrite Hv, Hchars. cbn [Z.eqb negb].
  rewrite orb_true_r.
  destruct (validate_ip_string (Some router_ip) =? 0); repeat split.
Qed.

Lemma malformed_community_rejected_witness :
  try_snmp_community Sample.env "192.168.1.1" "public;id" initial_state
  = (0, initial_state)
  /\ discover_nexthop_routers Sample.env "192.168.1.1" "public;id" 30
       initial_state = ([], initial_state)
  /\ discover_router_interfaces Sample.env "192.168.1.1" "public;id" 30
       initial_state = ([], initial_state)
  /\ discover_snmp_arp Sample.env "192.168.1.1" "public;id" initial_state
     = (-1, initial_state).
Proof.
  apply (malformed_community_rejected Sample.env "192.168.1.1" "public;id"
           ";"%char 30%nat initial_state).
  - vm_compute. tauto.
  - vm_compute. intuition discriminate.
Defined.

(** X4: for a router address that passes [validate_ip_string], the empty
    community is refused by the three functions that call
    [validate_community_string], but accepted by [discover_snmp_arp], whose
    own loop over the characters has no test for it: it runs snmpwalk with
    an empty community. *)
Theorem empty_community :
  forall (env : Env) (router_ip : string) (n : nat) (s : State),
    validate_ip_string (Some router_ip) = 1 ->
    try_snmp_community env router_ip "" s = (0, s)
    /\ discover_nexthop_routers env router_ip "" n s = ([], s)
    /\ discover_router_interfaces env router_ip "" n s = ([], s)
    /\ commands (snd (discover_snmp_arp env router_ip "" s))
       = (commands s ++ [snmp_arp_command router_ip ""])%list.
Proof.
  intros env router_ip n s Hip.
  unfold try_snmp_community, discover_nexthop_routers,
    discover_router_interfaces.
  rewrite Hip. cbn. repeat split.
  apply discover_snmp_arp_command; [exact Hip|reflexivity].
Qed.

Lemma empty_community_witness :
  try_snmp_community Sample.env "192.168.1.1" "" initial_state
  = (0, initial_state)
  /\ discover_nexthop_routers Sample.env "192.168.1.1" "" 30 initial_state
     = ([], initial_state)
  /\ discover_router_interfaces Sample.env "192.168.1.1" "" 30 initial_state
     = ([], initial_state)
  /\ commands (snd (discover_snmp_arp Sample.env "192.168.1.1" ""
                      initial_state))
     = ([] ++ [snmp_arp_command "192.168.1.1" ""])%list.
Proof.
  apply (empty_community Sample.env "192.168.1.1" 30%nat initial_state).
  reflexivity.
Defined.

(** X5: [get_discovered_host] leaves the state as it is.  It returns 0
    exactly when [0 <= index < get_discovered_count ()], and then hands
    out, through the pointers that are not NULL, the first 15 characters of
    the address and the response time of entry [index]; otherwise it
    returns -1 and writes nothing. *)
Theorem get_discovered_host_lookup :
  forall (index : Z) (ip : option string) (response_time : option Z)
         (s : State),
    let r := get_discovered_host index ip response_time s in
    snd r = s
    /\ (fst r = (-1, ip, response_time)
        \/ exists h,
             nth_error (discovered_hosts s) (Z.to_nat index) = Some h
             /\ fst r
                = (0,
                   match ip with
                   | Some _ => Some (CStr.bounded MAX_IP_LEN (ip_address h))
                   | None => None
                   end,
                   match response_time with
                   | Some _ => Some (response_time_ms h)
                   | None => None
                   end))
    /\ (fst (fst (fst r)) = 0 <->
        0 <= index < fst (get_discovered_count s)).
Proof.
  intros index ip rt s. unfold get_discovered_host, get_discovered_count.
  cbn [fst snd].
  destruct ((index <? 0) || (index >=? Z.of_nat (discovered_count s))) eqn:E.
  - cbn [fst snd]. split; [reflexivity|]. split; [left; reflexivity|].
    split; [discriminate|]. intros H. apply orb_true_iff in E.
    rewrite Z.ltb_lt, Z.geb_le in E. lia.
  - cbn [fst snd]. apply orb_false_iff in E.
    rewrite Z.ltb_ge, Z.geb_leb, Z.leb_gt in E.
    split; [reflexivity|]. split; [|split; [intros _; lia|reflexivity]].
    right. unfold discovered_count in E.
    assert (Hi : (Z.to_nat index < List.length (discovered_hosts s))%nat)
      by lia.
    exists (nth (Z.to_nat index) (discovered_hosts s) no_host). split.
    + apply nth_error_nth'. exact Hi.
    + reflexivity.
Qed.

(** X6: when the registry has room, after the statements with which a
    collector stores a host the count is one more and within the array,
    [get_discovered_host] at the old count returns the first 15 characters
    of the address and the response time just stored, and the lookups of
    the older entries give what they gave before. *)
Theorem add_host_then_lookup :
  forall (ip : string) (rt : Z) (buf : string) (old : Z) (s : State),
    (discovered_count s < MAX_DISCOVERED_HOSTS)%nat ->
    let s' := snd (add_host ip rt s) in
    fst (get_discovered_count s') = fst (get_discovered_count s) + 1
    /\ fst (get_discovered_count s') <= Z.of_nat MAX_DISCOVERED_HOSTS
    /\ fst (get_discovered_host (fst (get_discovered_count s))
              (Some buf) (Some old) s')
       = (0, Some (CStr.bounded MAX_IP_LEN ip), Some rt)
    /\ (forall index,
           0 <= index < fst (get_discovered_count s) ->
           fst (get_discovered_host index (Some buf) (Some old) s')
           = fst (get_discovered_host index (Some buf) (Some old) s)).
Proof.
  intros ip rt buf old s Hroom. cbn zeta.
  unfold get_discovered_host, get_discovered_count, discovered_count,
    add_host in *.
  cbn [fst snd discovered_hosts]. rewrite length_app. cbn [List.length].
  split; [lia|]. split; [lia|]. split.
  - rewrite Nat2Z.id.
    replace (_ || _) with false.
    2:{ symmetry. apply orb_false_iff. rewrite Z.ltb_ge, Z.geb_leb, Z.leb_gt.
        lia. }
    cbn [fst]. rewrite app_nth2, Nat.sub_diag by lia. cbn [nth ip_address
      response_time_ms].
    unfold CStr.bounded. now rewrite take_idem.
  - intros index Hi.
    replace ((index <? 0)
             || (index >=? Z.of_nat (List.length (discovered_hosts s) + 1)))
      with false.
    2:{ symmetry. apply orb_false_iff. rewrite Z.ltb_ge, Z.geb_leb, Z.leb_gt.
        lia. }
    replace ((index <? 0)
             || (index >=? Z.of_nat (List.length (discovered_hosts s))))
      with false.
    2:{ symmetry. apply orb_false_iff. rewrite Z.ltb_ge, Z.geb_leb, Z.leb_gt.
        lia. }
    cbn [fst]. rewrite app_nth1 by lia. reflexivity.
Qed.

Lemma add_host_then_lookup_witness :
  let s' := snd (add_host "10.0.0.1" 5 initial_state) in
  fst (get_discovered_count s') = fst (get_discovered_count initial_state) + 1
  /\ fst (get_discovered_count s') <= Z.of_nat MAX_DISCOVERED_HOSTS
  /\ fst (get_discovered_host (fst (get_discovered_count initial_state))
            (Some "") (Some 0) s')
     = (0, Some (CStr.bounded MAX_IP_LEN "10.0.0.1"), Some 5)
  /\ (forall index,
         0 <= index < fst (get_discovered_count initial_state) ->
         fst (get_discovered_host index (Some "") (Some 0) s')
         = fst (get_discovered_host index (Some "") (Some 0) initial_state)).
Proof.
  apply (add_host_then_lookup "10.0.0.1" 5 "" 0 initial_state).
  cbn. unfold MAX_DISCOVERED_HOSTS. lia.
Defined.

Lemma get_discovered_host_found (index : Z) (buf : string) (old : Z)
  (ip : string) (rt : Z) (s : State) :
  fst (get_discovered_host index (Some buf) (Some old) s)
  = (0, Some ip, Some rt) ->
  0 <= index < Z.of_nat (discovered_count s)
  /\ exists h,
       In h (discovered_hosts s)
       /\ ip = CStr.bounded MAX_IP_LEN (ip_address h)
       /\ rt = response_time_ms h.
Proof.
  unfold get_discovered_host.
  destruct ((index <? 0) || (index >=? Z.of_nat (discovered_count s))) eqn:E;
    cbn [fst]; [discriminate|].
  intros H. injection H as <- <-.
  apply orb_false_iff in E. rewrite Z.ltb_ge, Z.geb_leb, Z.leb_gt in E.
  split; [exact E|].
  unfold discovered_count in E.
  exists (nth (Z.to_nat index) (discovered_hosts s) no_host).
  split; [apply nth_In; lia|]. split; reflexivity.
Qed.

(** Every function of the module but [discover_efficient] stores behind
    the test [discovered_count < MAX_DISCOVERED_HOSTS]. *)
Lemma run_calls_bounded (env : Env) (calls : list call) (s : State) :
  Forall (fun c => c <> call_discover_efficient) calls ->
  registry_bounded s -> registry_bounded (run_calls env calls s).
Proof.
  unfold run_calls. intros H. revert s.
  induction H as [|c calls Hc _ IH]; intros s Hs; cbn [fold_left];
    [exact Hs|].
  apply IH, run_call_bounded; assumption.
Qed.

(** X7: whatever functions of the module other than [discover_efficient]
    were called since the start, an entry that [get_discovered_host] hands
    out lies within the array and has an address that passes
    [validate_ip_string], has at most 15 characters and is the address of
    the registry entry as stored (the copy cuts nothing off), and a
    response time between 0 and [INT_MAX]. *)
Theorem discovered_hosts_well_formed :
  forall (env : Env) (calls : list call) (index : Z) (buf : string)
         (old : Z) (ip : string) (rt : Z),
    Forall (fun c => c <> call_discover_efficient) calls ->
    fst (get_discovered_host index (Some buf) (Some old)
           (run_calls env calls initial_state))
    = (0, Some ip, Some rt) ->
    0 <= index < Z.of_nat MAX_DISCOVERED_HOSTS
    /\ validate_ip_string (Some ip) = 1
    /\ (String.length ip <= 15)%nat
    /\ 0 <= rt < 2 ^ 31
    /\ In ip (map ip_address
                (discovered_hosts (run_calls env calls initial_state))).
Proof.
  intros env calls index buf old ip rt Hcalls H.
  set (s := run_calls env calls initial_state) in *.
  destruct (get_discovered_host_found index buf old ip rt s H)
    as [Hi [h [Hn [Hip Hrt]]]].
  assert (Hb : registry_bounded s).
  { apply run_calls_bounded; [exact Hcalls|].
    unfold registry_bounded, le_count, MAX_DISCOVERED_HOSTS. cbn. lia. }
  assert (Hv : registry_valid s).
  { apply run_calls_valid. constructor. }
  assert (He : registry_entries_ok s).
  { apply run_calls_entries. constructor. }
  unfold registry_valid in Hv. unfold registry_entries_ok in He.
  rewrite Forall_forall in Hv, He.
  specialize (Hv h Hn). destruct (He h Hn) as [Hlen [Hr _]].
  assert (Hfit : CStr.bounded MAX_IP_LEN (ip_address h) = ip_address h).
  { apply take_all. exact Hlen. }
  rewrite Hfit in Hip. subst ip rt.
  split; [unfold registry_bounded, le_count in Hb; lia|].
  split; [apply valid_ip_true, Hv|]. split; [exact Hlen|].
  split; [exact Hr|]. apply in_map. exact Hn.
Qed.

Lemma discovered_hosts_well_formed_witness :
  0 <= 1 < Z.of_nat MAX_DISCOVERED_HOSTS
  /\ validate_ip_string (Some "10.0.0.1") = 1
  /\ (String.length "10.0.0.1" <= 15)%nat
  /\ 0 <= 0 < 2 ^ 31
  /\ In "10.0.0.1"
       (map ip_address
          (discovered_hosts
             (run_calls Sample.env [call_discover_automatic] initial_state))).
Proof.
  apply (discovered_hosts_well_formed Sample.env [call_discover_automatic] 1
           "" 0 "10.0.0.1" 0).
  - repeat constructor. discriminate.
  - vm_compute. reflexivity.
Defined.

(** ** How the registry grows *)

Lemma registry_from_on_hosts (L : list discovered_host_t) :
  on_hosts (registry_from L).
Proof. intros s s' E [ext H]. exists ext. now rewrite E. Qed.

Lemma appended_on_hosts (P : discovered_host_t -> Prop)
  (L : list discovered_host_t) (n : Z) : on_hosts (appended P L n).
Proof.
  intros s s' E [ext [H1 H2]]. exists ext. split; [now rewrite E|exact H2].
Qed.

Lemma registry_nodup_on_hosts : on_hosts registry_nodup.
Proof. intros s s' E H. unfold registry_nodup. now rewrite E. Qed.

Lemma add_host_from (L : list discovered_host_t) (ip : string) (rt : Z) :
  preserves (registry_from L) (add_host ip rt).
Proof.
  intros s [ext H]. eexists. cbn. rewrite H, <- app_assoc. reflexivity.
Qed.

Lemma ping_host_system_on_hosts (env : Env) (I : State -> Prop)
  (ip : string) :
  on_hosts I -> preserves I (ping_host_system env ip).
Proof.
  intros HI. unfold ping_host_system.
  destruct (_ =? 0); [apply preserves_ret|].
  apply preserves_bind; [apply preserves_popen, HI|].
  intros [t|]; apply preserves_ret.
Qed.

Lemma add_if_new_appended (P : discovered_host_t -> Prop)
  (L : list discovered_host_t) (n : Z) (ip : string) (rt : Z) :
  P {| ip_address := CStr.bounded MAX_IP_LEN ip; response_time_ms := rt;
       is_reachable := 1 |} ->
  hoare (appended P L n) (add_if_new ip rt)
    (fun new s => appended P L (if new : bool then n + 1 else n) s).
Proof.
  intros HP s [ext [H1 [H2 H3]]]. unfold add_if_new, bind, get_hosts.
  destruct (already_found ip (discovered_hosts s)); cbn.
  - exists ext. auto.
  - eexists. rewrite H1, <- app_assoc. split; [reflexivity|].
    rewrite length_app. cbn. split; [lia|].
    apply Forall_app. split; [exact H3|]. constructor; [exact HP|constructor].
Qed.

Section Appends.

Variable env : Env.

Lemma scan_body_appended (L : list discovered_host_t) (o : int4)
  (hb n i found : Z) :
  hoare (appended (fun h => 1 <= response_time_ms h) L found)
    (scan_body env o hb n i found)
    (appended (fun h => 1 <= response_time_ms h) L).
Proof.
  unfold scan_body.
  eapply hoare_bind;
    [apply ping_host_system_on_hosts, appended_on_hosts|].
  intros r. cbv beta.
  eapply hoare_bind with
    (Q := appended (fun h => 1 <= response_time_ms h) L).
  - destruct (r >? 0) eqn:E.
    + eapply hoare_bind.
      * apply add_if_new_appended. cbn. apply Z.gtb_lt in E. lia.
      * intros new. apply hoare_ret. auto.
    + apply hoare_ret. auto.
  - intros found'. cbv beta.
    eapply hoare_bind with
      (Q := fun _ => appended (fun h => 1 <= response_time_ms h) L found').
    + apply preserves_when. intros _.
      apply preserves_print, appended_on_hosts.
    + intros _. apply hoare_ret. auto.
Qed.

Lemma snmp_arp_line_appended (L : list discovered_host_t)
  (result : string) (found : Z) :
  hoare (appended (fun h => response_time_ms h = 0) L found)
    (snmp_arp_line result found)
    (appended (fun h => response_time_ms h = 0) L).
Proof.
  unfold snmp_arp_line. destruct (snmp_address result) as [ip|].
  - eapply hoare_bind; [apply add_if_new_appended; reflexivity|].
    intros new. apply hoare_ret. auto.
  - apply hoare_ret. auto.
Qed.

Lemma appended_start (P : discovered_host_t -> Prop) (s : State) :
  appended P (discovered_hosts s) 0 s.
Proof. exists []. rewrite app_nil_r. repeat split. constructor. Qed.

Lemma scan_subnet_appended (network_addr : string) (prefix_len : Z)
  (L : list discovered_host_t) :
  hoare (appended (fun h => 1 <= response_time_ms h) L 0)
    (scan_subnet env network_addr prefix_len)
    (appended (fun h => 1 <= response_time_ms h) L).
Proof.
  unfold scan_subnet. destruct (_ <=? 0); [apply hoare_ret; auto|].
  apply hoare_for_each. intros. apply scan_body_appended.
Qed.

Lemma snmp_arp_loop_appended (L : list discovered_host_t)
  (lines : list string) :
  hoare (appended (fun h => response_time_ms h = 0) L 0)
    (for_each has_room snmp_arp_line lines 0)
    (appended (fun h => response_time_ms h = 0) L).
Proof. apply hoare_for_each. intros. apply snmp_arp_line_appended. Qed.

End Appends.

(** X8: [scan_subnet] only appends to the registry: the entries that were
    there stay, in place; the value it returns is the number of entries it
    appended, and each of them has a response time of at least 1. *)
Theorem scan_subnet_appends :
  forall (env : Env) (network_addr : string) (prefix_len : Z) (s : State),
  exists ext,
    discovered_hosts (snd (scan_subnet env network_addr prefix_len s))
    = (discovered_hosts s ++ ext)%list
    /\ fst (scan_subnet env network_addr prefix_len s)
       = Z.of_nat (List.length ext)
    /\ Forall (fun h => 1 <= response_time_ms h) ext.
Proof.
  intros env network_addr prefix_len s.
  apply (scan_subnet_appended env network_addr prefix_len
           (discovered_hosts s) s).
  apply appended_start.
Qed.

(** X9: [try_snmp_community] and [discover_snmp_arp] only append to the
    registry, entries with response time 0, and return the number of
    entries they appended; [discover_snmp_arp] may also return -1, and then
    the registry is as it was. *)
Theorem router_arp_appends :
  forall (env : Env) (router_ip community : string) (s : State),
    (exists ext,
        discovered_hosts (snd (try_snmp_community env router_ip community s))
        = (discovered_hosts s ++ ext)%list
        /\ fst (try_snmp_community env router_ip community s)
           = Z.of_nat (List.length ext)
        /\ Forall (fun h => response_time_ms h = 0) ext)
    /\ ((fst (discover_snmp_arp env router_ip community s) = -1
         /\ discovered_hosts (snd (discover_snmp_arp env router_ip community s))
            = discovered_hosts s)
        \/ exists ext,
             discovered_hosts
               (snd (discover_snmp_arp env router_ip community s))
             = (discovered_hosts s ++ ext)%list
             /\ fst (discover_snmp_arp env router_ip community s)
                = Z.of_nat (List.length ext)
             /\ Forall (fun h => response_time_ms h = 0) ext).
Proof.
  intros env router_ip community s. split.
  - assert (H : hoare (appended (fun h => response_time_ms h = 0)
                         (discovered_hosts s) 0)
                  (try_snmp_community env router_ip community)
                  (appended (fun h => response_time_ms h = 0)
                     (discovered_hosts s))).
    { unfold try_snmp_community.
      destruct (_ =? 0); [apply hoare_ret; auto|].
      destruct (_ =? 0); [apply hoare_ret; auto|].
      eapply hoare_bind; [apply preserves_popen, appended_on_hosts|].
      intros [text|]; [|apply hoare_ret; auto].
      apply snmp_arp_loop_appended. }
    exact (H s (appended_start _ s)).
  - unfold discover_snmp_arp.
    destruct (_ =? 0); [left; split; reflexivity|].
    destruct (negb _); [left; split; reflexivity|].
    unfold bind, popen. cbn [fst snd].
    destruct (popen_stdout env (commands s) _) as [text|];
      [|left; split; reflexivity].
    right.
    set (s1 := {| discovered_hosts := discovered_hosts s;
                  commands := _; stdout := stdout s |}).
    exact (snmp_arp_loop_appended (discovered_hosts s)
             (CStr.fgets_all 512 text) s1 (appended_start _ s1)).
Qed.

Lemma reset_hosts_nodup : preserves registry_nodup reset_hosts.
Proof. intros s _. constructor. Qed.

Lemma add_if_new_preserves_nodup (ip : string) (rt : Z) :
  fits ip -> preserves registry_nodup (add_if_new ip rt).
Proof. intros Hf s Hs. exact (add_if_new_nodup ip rt s Hf Hs). Qed.

Lemma from_any_state {A : Type} (I : State -> Prop) (m : M A) (s : State) :
  I (snd (reset_hosts s)) ->
  preserves I m ->
  I (snd ((reset_hosts ;; m) s)).
Proof. intros H0 Hm. unfold bind. cbn. apply Hm. exact H0. Qed.

Section NoDuplicates.

Variable env : Env.

Ltac nodup_step :=
  cbv beta;
  first
    [ apply reset_hosts_nodup
    | apply preserves_popen; apply registry_nodup_on_hosts
    | apply preserves_print; apply registry_nodup_on_hosts
    | match goal with
      | |- preserves _ (ping_host_system _ _) =>
          apply ping_host_system_on_hosts; apply registry_nodup_on_hosts
      | |- preserves _ (scan_subnet _ _ _) => apply (scan_subnet_nodup env)
      end
    | inv_shape ].

Lemma snmp_arp_line_nodup (result : string) (n : Z) :
  preserves registry_nodup (snmp_arp_line result n).
Proof.
  unfold snmp_arp_line. destruct (snmp_address result) as [ip|] eqn:E;
    [|apply preserves_ret].
  apply preserves_bind; [|intros; apply preserves_ret].
  apply add_if_new_preserves_nodup. exact (snmp_address_fits result ip E).
Qed.

Lemma discover_snmp_arp_nodup (router_ip community : string) :
  preserves registry_nodup (discover_snmp_arp env router_ip community).
Proof.
  unfold discover_snmp_arp.
  repeat first [simple apply snmp_arp_line_nodup | nodup_step].
Qed.

Lemma try_snmp_community_nodup (router_ip community : string) :
  preserves registry_nodup (try_snmp_community env router_ip community).
Proof.
  unfold try_snmp_community.
  repeat first [simple apply snmp_arp_line_nodup | nodup_step].
Qed.

Lemma traceroute_discover_nodup (target_ip : string) :
  preserves registry_nodup (traceroute_discover env target_ip).
Proof.
  unfold traceroute_discover, traceroute_line. repeat nodup_step.
Qed.

Lemma trace_and_scan_nodup (network_addr : string) (targets : list string)
  (n : Z) :
  preserves registry_nodup (trace_and_scan env network_addr targets n).
Proof.
  induction targets as [|t targets IH]; cbn [trace_and_scan];
    [apply preserves_ret|].
  apply preserves_bind; [apply traceroute_discover_nodup|].
  intros [r gateways]. destruct (r >? 0); [|exact IH].
  apply preserves_for_each. intros. unfold scan_gateway.
  repeat nodup_step.
Qed.

Lemma discover_multi_subnet_nodup (s : State) :
  registry_nodup (snd (discover_multi_subnet env s)).
Proof.
  unfold discover_multi_subnet. apply from_any_state; [constructor|].
  repeat first [simple apply trace_and_scan_nodup | nodup_step].
Qed.

Lemma discover_custom_subnet_nodup (subnet_cidr : string) (s : State) :
  registry_nodup (snd (discover_custom_subnet env subnet_cidr s)).
Proof.
  unfold discover_custom_subnet. apply from_any_state; [constructor|].
  repeat nodup_step.
Qed.

End NoDuplicates.

(** X10: [scan_subnet] and [discover_snmp_arp] keep a registry in which no
    two entries have the same address in that condition, and at the end of
    [discover_custom_subnet] and of [discover_multi_subnet], whatever the
    state at the start, no two entries have the same address. *)
Theorem registry_without_duplicates :
  forall (env : Env),
    (forall network_addr prefix_len,
        preserves registry_nodup (scan_subnet env network_addr prefix_len))
    /\ (forall router_ip community,
           preserves registry_nodup
             (discover_snmp_arp env router_ip community))
    /\ (forall subnet_cidr s,
           registry_nodup (snd (discover_custom_subnet env subnet_cidr s)))
    /\ (forall s, registry_nodup (snd (discover_multi_subnet env s))).
Proof.
  intros env. split; [intros; apply (scan_subnet_nodup env)|].
  split; [intros; apply discover_snmp_arp_nodup|]. split.
  - intros. apply discover_custom_subnet_nodup.
  - intros. apply discover_multi_subnet_nodup.
Qed.

Section AppendOnly.

Variable env : Env.
Variable L : list discovered_host_t.

Ltac from_step :=
  cbv beta;
  first
    [ match goal with
      | |- preserves _ (popen _ _) =>
          apply preserves_popen; apply registry_from_on_hosts
      | |- preserves _ (print _) =>
          apply preserves_print; apply registry_from_on_hosts
      | |- preserves _ (add_host _ _) => apply add_host_from
      | |- preserves _ (ping_host_system _ _) =>
          apply ping_host_system_on_hosts; apply registry_from_on_hosts
      end
    | inv_shape ].

Lemma add_if_new_from (ip : string) (rt : Z) :
  preserves (registry_from L) (add_if_new ip rt).
Proof. unfold add_if_new. repeat from_step. Qed.

Lemma snmp_arp_line_from (result : string) (n : Z) :
  preserves (registry_from L) (snmp_arp_line result n).
Proof. unfold snmp_arp_line, add_if_new. repeat from_step. Qed.

Lemma conn_line_from (result : string) (u : unit) :
  preserves (registry_from L) (conn_line result u).
Proof. unfold conn_line, add_if_new. repeat from_step. Qed.

Lemma try_snmp_community_from (router_ip community : string) :
  preserves (registry_from L) (try_snmp_community env router_ip community).
Proof.
  unfold try_snmp_community.
  repeat first [simple apply snmp_arp_line_from | from_step].
Qed.

Lemma try_communities_from (current_router : string) (cs l : list string) :
  preserves (registry_from L) (try_communities env current_router cs l).
Proof.
  induction cs as [|c cs IH]; cbn [try_communities]; [apply preserves_ret|].
  apply preserves_bind.
  { unfold discover_router_interfaces, interface_line. repeat from_step. }
  intros interfaces. destruct (0 <? _)%nat; [|exact IH].
  unfold discover_nexthop_routers, nexthop_line, add_nexthop, add_if_new.
  repeat first [simple apply try_snmp_community_from | from_step].
Qed.

Lemma walk_routers_from (fuel : nat) (w : walk) :
  preserves (registry_from L) (walk_routers env fuel w).
Proof.
  revert w. induction fuel as [|fuel IH]; intros w; cbn [walk_routers];
    [apply preserves_ret|].
  destruct (_ && _); [|apply preserves_ret].
  repeat first [simple apply try_communities_from | simple apply IH | from_step].
Qed.

Lemma automatic_local_from :
  preserves (registry_from L) (automatic_local env).
Proof.
  unfold automatic_local, auto_arp_line, add_if_new.
  repeat first [simple apply conn_line_from | from_step].
Qed.

End AppendOnly.

Lemma take_length_le (n : nat) (s : string) :
  (String.length (CStr.take n s) <= String.length s)%nat.
Proof.
  revert s. induction n as [|n IH]; intros [|c s]; simpl; try lia.
  specialize (IH s). lia.
Qed.

Lemma fgets_split_length (room : nat) (s : string) :
  (String.length (fst (CStr.fgets_split room s)) <= room)%nat.
Proof.
  revert s. induction room as [|room IH]; intros [|c s]; simpl; try lia.
  destruct (c =? "010")%char; [simpl; lia|].
  specialize (IH s). destruct (CStr.fgets_split room s). simpl in *. lia.
Qed.

Lemma chomp_length (s : string) :
  (String.length (chomp s) <= String.length s)%nat.
Proof.
  induction s as [|c s IH]; [simpl; lia|].
  cbn [chomp]. destruct s as [|d s].
  - destruct (c =? "010")%char; simpl; lia.
  - cbn [String.length] in *. lia.
Qed.

Lemma fgets_split_prefix (room : nat) (s : string) :
  s = fst (CStr.fgets_split room s) ++ snd (CStr.fgets_split room s).
Proof.
  revert s. induction room as [|room IH]; intros [|c s]; simpl;
    try reflexivity.
  destruct (c =? "010")%char; [reflexivity|].
  specialize (IH s). destruct (CStr.fgets_split room s). simpl in *.
  now rewrite <- IH.
Qed.

Lemma chomp_prefix (s : string) :
  s = chomp s \/ s = chomp s ++ String "010" "".
Proof.
  induction s as [|c s IH]; [left; reflexivity|].
  cbn [chomp]. destruct s as [|d s].
  - destruct (c =? "010")%char eqn:E; [|left; reflexivity].
    right. apply Ascii.eqb_eq in E. now subst.
  - destruct IH as [IH|IH]; [left|right]; cbn [append]; now rewrite <- IH.
Qed.

(** What [get_default_gateway] does to the state: one command, and
    nothing else. *)
Lemma get_default_gateway_state (env : Env) (s : State) :
  commands (snd (get_default_gateway env s))
  = (commands s ++ [route_command])%list
  /\ discovered_hosts (snd (get_default_gateway env s)) = discovered_hosts s.
Proof.
  unfold get_default_gateway, bind, popen. cbn [fst snd].
  destruct (popen_stdout env (commands s) route_command) as [text|];
    [|split; reflexivity].
  destruct (CStr.fgets MAX_IP_LEN text) as [[line rest]|]; split; reflexivity.
Qed.

Lemma get_default_gateway_fits (env : Env) (s : State) (ok : Z)
  (gateway : string) :
  fst (get_default_gateway env s) = (ok, gateway) -> ok <> 0 ->
  (String.length gateway <= 15)%nat.
Proof.
  unfold get_default_gateway, bind, popen. cbn [fst snd].
  destruct (popen_stdout env (commands s) route_command) as [text|];
    [|cbn; intros H; injection H as <- <-; contradiction].
  unfold CStr.fgets. destruct text as [|c text];
    [cbn; intros H; injection H as <- <-; contradiction|].
  pose proof (fgets_split_length (MAX_IP_LEN - 1) (String c text)) as Hl.
  destruct (CStr.fgets_split (MAX_IP_LEN - 1) (String c text))
    as [line rest].
  cbn [fst snd ret] in *. intros H. injection H as <- <-. intros _.
  pose proof (chomp_length line). unfold MAX_IP_LEN in Hl. lia.
Qed.

(** X11: [get_default_gateway] runs the route command and touches nothing
    else; it returns 0 or 1, and 0 when [popen] fails or the command prints
    nothing; when it returns 1 the gateway passes [validate_ip_string], has
    at most 15 characters and is the beginning of what the command
    printed. *)
Theorem get_default_gateway_result :
  forall (env : Env) (s : State),
    let r := get_default_gateway env s in
    commands (snd r) = (commands s ++ [route_command])%list
    /\ discovered_hosts (snd r) = discovered_hosts s
    /\ (fst (fst r) = 0 \/ fst (fst r) = 1)
    /\ (popen_stdout env (commands s) route_command = None ->
        fst (fst r) = 0)
    /\ (popen_stdout env (commands s) route_command = Some "" ->
        fst (fst r) = 0)
    /\ (fst (fst r) = 1 ->
        validate_ip_string (Some (snd (fst r))) = 1
        /\ (String.length (snd (fst r)) <= 15)%nat
        /\ exists text rest,
             popen_stdout env (commands s) route_command = Some text
             /\ text = snd (fst r) ++ rest).
Proof.
  intros env s. cbv zeta. unfold get_default_gateway, bind, popen.
  cbn [fst snd].
  destruct (popen_stdout env (commands s) route_command) as [text|].
  - unfold CStr.fgets. destruct text as [|c text].
    + cbn. repeat split; auto; try discriminate.
    + cbn [ret fst snd commands discovered_hosts].
      set (t := String c text).
      destruct (CStr.fgets_split (MAX_IP_LEN - 1) t) as [line rest] eqn:E.
      unfold ret. cbn [fst snd commands discovered_hosts].
      split; [reflexivity|]. split; [reflexivity|].
      split.
      { destruct (validate_ip_string_01 (Some (chomp line))); auto. }
      split; [discriminate|]. split; [discriminate|].
      intros Hv. split; [exact Hv|]. split.
      * pose proof (fgets_split_length (MAX_IP_LEN - 1) t) as Hl.
        rewrite E in Hl. cbn [fst] in Hl.
        pose proof (chomp_length line). unfold MAX_IP_LEN in Hl.
        lia.
      * pose proof (fgets_split_prefix (MAX_IP_LEN - 1) t) as Hp.
        rewrite E in Hp. cbn [fst snd] in Hp.
        destruct (chomp_prefix line) as [Hc|Hc].
        -- exists t, rest. split; [reflexivity|]. now rewrite <- Hc.
        -- exists t, (String "010" "" ++ rest). split; [reflexivity|].
           rewrite Hp at 1. rewrite Hc at 1. apply append_assoc.
  - cbn. repeat split; auto; discriminate.
Qed.

(** X12: when [get_default_gateway] succeeds, the gateway is entry 0 of the
    registry at the end of [discover_automatic], with response time 0. *)
Theorem gateway_is_first_host :
  forall (env : Env) (s : State) (gateway : string),
    fst (get_default_gateway env (snd (reset_hosts s))) = (1, gateway) ->
    exists others,
      discovered_hosts (snd (discover_automatic env s))
      = {| ip_address := gateway; response_time_ms := 0; is_reachable := 1 |}
        :: others.
Proof.
  intros env s gateway Hg.
  destruct (get_default_gateway_state env (snd (reset_hosts s)))
    as [_ Hhosts].
  assert (Hlen : (String.length gateway <= 15)%nat).
  { apply (get_default_gateway_fits env (snd (reset_hosts s)) 1 gateway Hg).
    discriminate. }
  set (g := {| ip_address := gateway; response_time_ms := 0;
               is_reachable := 1 |}).
  assert (H : registry_from [g] (snd (discover_automatic env s))).
  { unfold discover_automatic. rewrite bind_snd.
    set (s1 := snd (reset_hosts s)) in *.
    rewrite bind_snd.
    assert (Hsnmp : registry_from [g] (snd (automatic_snmp env s1))).
    { unfold automatic_snmp. rewrite bind_snd.
      destruct (get_default_gateway env s1) as [[ok gw] s2] eqn:E.
      cbn [fst snd] in *. injection Hg as -> ->. cbn [Z.eqb].
      rewrite bind_snd.
      apply walk_routers_from.
      exists []. cbn [snd add_host discovered_hosts fst]. rewrite Hhosts.
      unfold CStr.bounded, MAX_IP_LEN.
      change (16 - 1)%nat with 15%nat. rewrite (take_all _ _ Hlen).
      reflexivity. }
    rewrite bind_snd.
    apply (preserves_get_count (registry_from [g])).
    apply automatic_local_from. exact Hsnmp. }
  destruct H as [ext H]. exists ext. exact H.
Qed.

Lemma gateway_is_first_host_witness :
  exists others,
    discovered_hosts (snd (discover_automatic Sample.env initial_state))
    = {| ip_address := "192.168.1.1"; response_time_ms := 0;
         is_reachable := 1 |} :: others.
Proof.
  apply (gateway_is_first_host Sample.env initial_state "192.168.1.1").
  reflexivity.
Defined.

(** ** The local interface and its network *)

Lemma parse_ip_inet_ntop (a : int4) (o : int4) :
  parse_ip (inet_ntop a) o = octets_mod a.
Proof.
  destruct a as [[[a0 a1] a2] a3]. unfold inet_ntop, octets_mod.
  apply parse_ip_dotted;
    match goal with
    | |- 0 <= ?x mod 256 < _ =>
        pose proof (Z.mod_pos_bound x 256); lia
    end.
Qed.

Lemma inet_ntop_valid (a : int4) :
  validate_ip_string (Some (inet_ntop a)) = 1
  /\ (String.length (inet_ntop a) <= 15)%nat.
Proof.
  destruct a as [[[a0 a1] a2] a3]. unfold inet_ntop.
  pose proof (Z.mod_pos_bound a0 256). pose proof (Z.mod_pos_bound a1 256).
  pose proof (Z.mod_pos_bound a2 256). pose proof (Z.mod_pos_bound a3 256).
  split; [apply dotted_valid; lia|].
  rewrite <- (dotted_fits (a0 mod 256) (a1 mod 256) (a2 mod 256)
                (a3 mod 256)) by lia.
  apply (take_length 15).
Qed.

Lemma land_mod_256 (a m : Z) :
  Z.land a m mod 256 = Z.land (a mod 256) (m mod 256).
Proof.
  change 256 with (2 ^ 8). rewrite <- !Z.land_ones by lia.
  apply Z.bits_inj'. intros n Hn. rewrite !Z.land_spec.
  destruct (Z.testbit a n), (Z.testbit m n), (Z.testbit (Z.ones 8) n);
    reflexivity.
Qed.

Lemma first_interface_find (env : Env) (l : list ifaddrs) :
  match find usable l with
  | None => first_interface env l = None
  | Some ifa =>
      exists a0 a1 a2 a3,
        ifa_addr ifa = Some (sa_inet a0 a1 a2 a3)
        /\ first_interface env l
           = Some (inet_ntop (a0, a1, a2, a3),
                   match ifa_netmask ifa with
                   | Some m => inet_ntop (octets_and (a0, a1, a2, a3) m)
                   | None => indet_str env
                   end,
                   match ifa_netmask ifa with
                   | Some m => inet_ntop m
                   | None => indet_str env
                   end)
  end.
Proof.
  induction l as [|ifa l IH]; [reflexivity|].
  cbn [find first_interface]. unfold usable at 1.
  destruct (ifa_addr ifa) as [[a0 a1 a2 a3|]|] eqn:Ea; try exact IH.
  destruct (CStr.streq (ifa_name ifa) "lo"); cbn [negb];
    [exact IH|].
  exists a0, a1, a2, a3. split; [exact Ea|].
  destruct (ifa_netmask ifa) as [[[[m0 m1] m2] m3]|]; reflexivity.
Qed.

(** X13: [get_local_network_info] leaves the state as it is.  It fails when
    [getifaddrs] fails or when every interface is skipped (no address, not
    IPv4, or named lo); otherwise it describes the first interface that is
    not skipped: the local address passes [validate_ip_string], has at most
    15 characters and is read back by [parse_ip] as the bytes of the
    interface address, and, when the interface has a netmask, the netmask
    is read back as its bytes and the network address as the bitwise AND of
    the two. *)
Theorem get_local_network_info_result :
  forall (env : Env) (s : State),
    snd (get_local_network_info env s) = s
    /\ (sys_ifaddrs env (commands s) = None ->
        fst (get_local_network_info env s) = None)
    /\ (forall l,
           sys_ifaddrs env (commands s) = Some l ->
           match find usable l with
           | None => fst (get_local_network_info env s) = None
           | Some ifa =>
               exists a0 a1 a2 a3 local_ip network_addr netmask,
                 ifa_addr ifa = Some (sa_inet a0 a1 a2 a3)
                 /\ fst (get_local_network_info env s)
                    = Some (local_ip, network_addr, netmask)
                 /\ validate_ip_string (Some local_ip) = 1
                 /\ (String.length local_ip <= 15)%nat
                 /\ (forall o,
                        parse_ip local_ip o = octets_mod (a0, a1, a2, a3))
                 /\ (forall m,
                        ifa_netmask ifa = Some m ->
                        validate_ip_string (Some network_addr) = 1
                        /\ validate_ip_string (Some netmask) = 1
                        /\ forall o,
                             parse_ip netmask o = octets_mod m
                             /\ parse_ip network_addr o
                                = octets_and (parse_ip local_ip o)
                                    (parse_ip netmask o))
           end).
Proof.
  intros env s. unfold get_local_network_info. cbn [fst snd].
  split; [reflexivity|]. split; [intros ->; reflexivity|].
  intros l ->. pose proof (first_interface_find env l) as H.
  destruct (find usable l) as [ifa|]; [|exact H].
  destruct H as [a0 [a1 [a2 [a3 [Ha Hf]]]]].
  exists a0, a1, a2, a3. do 3 eexists.
  split; [exact Ha|]. split; [exact Hf|].
  split; [apply inet_ntop_valid|]. split; [apply inet_ntop_valid|].
  split; [intros; apply parse_ip_inet_ntop|].
  intros m ->. split; [apply inet_ntop_valid|].
  split; [apply inet_ntop_valid|]. intros o.
  rewrite !parse_ip_inet_ntop. split; [reflexivity|].
  destruct m as [[[m0 m1] m2] m3]. unfold octets_and, octets_mod.
  now rewrite !land_mod_256.
Qed.

Lemma prefix_forall (P : Z -> bool) :
  forallb P (map Z.of_nat (seq 0 33)) = true ->
  forall p, 0 <= p <= 32 -> P p = true.
Proof.
  intros H p Hp. rewrite forallb_forall in H. apply H.
  apply in_map_iff. exists (Z.to_nat p). split; [lia|].
  apply in_seq. lia.
Qed.

Lemma parse_ip_mask (env : Env) (p : Z) :
  parse_ip (format_ip (mask_of_prefix p)) (indet env) = mask_of_prefix p.
Proof.
  unfold mask_of_prefix, word_octets, format_ip.
  apply parse_ip_dotted;
    match goal with
    | |- 0 <= ?x mod 256 < _ =>
        pose proof (Z.mod_pos_bound x 256); lia
    end.
Qed.

(** The two loops that count the bits of a netmask, on the netmask of a
    prefix length. *)
Lemma mask_bits (p : Z) :
  0 <= p <= 32 ->
  host_bits_loop 33 (mask_word (mask_of_prefix p)) 1 0 = 32 - p
  /\ prefix_loop 33 (mask_word (mask_of_prefix p)) 0 = p.
Proof.
  intros Hp.
  pose proof
    (prefix_forall
       (fun p =>
          (host_bits_loop 33 (mask_word (mask_of_prefix p)) 1 0 =? 32 - p)
          && (prefix_loop 33 (mask_word (mask_of_prefix p)) 0 =? p))) as H.
  cbv beta in H. specialize (H eq_refl p Hp).
  apply andb_true_iff in H. destruct H as [H1 H2].
  apply Z.eqb_eq in H1, H2. split; assumption.
Qed.

(** X14: for the netmask of a prefix length [p] between 0 and 32, printed as
    a dotted quad, [get_host_bits] returns [32 - p], and the loop of
    [discover_multi_subnet] that counts the leading ones finds [p]. *)
Theorem host_bits_of_netmask :
  forall (env : Env) (p : Z),
    0 <= p <= 32 ->
    get_host_bits env (format_ip (mask_of_prefix p)) = 32 - p
    /\ prefix_loop 33
         (mask_word (parse_ip (format_ip (mask_of_prefix p)) (indet env))) 0
       = p.
Proof.
  intros env p Hp. unfold get_host_bits. rewrite parse_ip_mask.
  apply mask_bits, Hp.
Qed.

Lemma host_bits_of_netmask_witness :
  get_host_bits Sample.env (format_ip (mask_of_prefix 24)) = 32 - 24
  /\ prefix_loop 33
       (mask_word
          (parse_ip (format_ip (mask_of_prefix 24)) (indet Sample.env))) 0
     = 24.
Proof. apply (host_bits_of_netmask Sample.env 24). lia. Defined.

Example netmask_of_24 : format_ip (mask_of_prefix 24) = "255.255.255.0".
Proof. reflexivity. Qed.

Section NetworkSweep.

Variable env : Env.

Lemma network_body_commands (n m : int4) (hb step i : Z) (u : unit)
  (s : State) :
  validate_ip_string (Some (network_target n m hb i)) = 1 ->
  commands (snd (network_body env n m hb step i u s))
  = (commands s ++ [ping_command (network_target n m hb i)])%list.
Proof.
  intros Hv. unfold network_body. cbv zeta. rewrite bind_snd. cbv beta.
  match goal with
  | |- commands (snd (?k (snd ?p))) = ?X =>
      assert (H : preserves (fun st => commands st = X) k)
  end.
  { apply preserves_bind.
    - apply preserves_when. intros _.
      apply add_host_commands, logged_on_commands.
    - intros _. apply preserves_when. intros _.
      apply print_commands, logged_on_commands. }
  apply H. apply ping_host_system_command, Hv.
Qed.

End NetworkSweep.

Lemma land_octet (a m : Z) : 0 <= a <= 255 -> 0 <= Z.land a m <= 255.
Proof.
  intros Ha.
  assert (E : Z.land a m = Z.land a m mod 2 ^ 8).
  { rewrite <- Z.land_ones by lia.
    rewrite <- Z.land_assoc, (Z.land_comm m), Z.land_assoc.
    rewrite (Z.land_ones a 8) by lia.
    rewrite (Z.mod_small a) by (change (2 ^ 8) with 256; lia).
    reflexivity. }
  pose proof (Z.mod_pos_bound (Z.land a m) (2 ^ 8)).
  change (2 ^ 8) with 256 in *. lia.
Qed.

Lemma land_land (a m : Z) : Z.land (Z.land a m) m = Z.land a m.
Proof. now rewrite <- Z.land_assoc, Z.land_diag. Qed.

(** The number of candidates of a prefix length, and the room that the
    last octet of the network address leaves for them. *)
Lemma sweep_range (p a3 : Z) :
  2 <= p <= 32 -> 0 <= a3 <= 255 ->
  let '(_, _, _, m3) := mask_of_prefix p in
  max_hosts_of (32 - p) = Z.min (2 ^ (32 - p) - 2) 254
  /\ Z.land a3 m3 + Z.min (2 ^ (32 - p) - 2) 254 <= 254.
Proof.
  intros Hp Ha.
  pose proof
    (prefix_forall
       (fun p =>
          (p <? 2)
          || forallb
               (fun a3 =>
                  let '(_, _, _, m3) := mask_of_prefix p in
                  (max_hosts_of (32 - p) =? Z.min (2 ^ (32 - p) - 2) 254)
                  && (Z.land a3 m3 + Z.min (2 ^ (32 - p) - 2) 254 <=? 254))
               (map Z.of_nat (seq 0 256)))) as H.
  cbv beta in H.
  assert (Hall : forallb
                   (fun p =>
                      (p <? 2)
                      || forallb
                           (fun a3 =>
                              let '(_, _, _, m3) := mask_of_prefix p in
                              (max_hosts_of (32 - p)
                               =? Z.min (2 ^ (32 - p) - 2) 254)
                              && (Z.land a3 m3
                                  + Z.min (2 ^ (32 - p) - 2) 254 <=? 254))
                           (map Z.of_nat (seq 0 256)))
                   (map Z.of_nat (seq 0 33)) = true)
    by (vm_compute; reflexivity).
  assert (Hp' : 0 <= p <= 32) by lia.
  specialize (H Hall p Hp').
  apply orb_true_iff in H. destruct H as [H|H]; [apply Z.ltb_lt in H; lia|].
  pose proof (octet_forall _ H a3 Ha) as H3. cbv beta in H3.
  destruct (mask_of_prefix p) as [[[m0 m1] m2] m3].
  apply andb_true_iff in H3. destruct H3 as [H1 H2].
  apply Z.eqb_eq in H1. apply Z.leb_le in H2. split; assumption.
Qed.

Lemma upto_range (n i : Z) : In i (upto n) -> 1 <= i <= n.
Proof.
  unfold upto. intros Hi. apply in_map_iff in Hi.
  destruct Hi as [k [<- Hk]]. apply in_seq in Hk. lia.
Qed.

Lemma network_target_dotted (n0 n1 n2 n3 m0 m1 m2 m3 hb i : Z) :
  0 <= n0 <= 255 -> 0 <= n1 <= 255 -> 0 <= n2 <= 255 ->
  0 <= Z.land n3 m3 -> 1 <= i -> Z.land n3 m3 + i <= 254 ->
  network_target (n0, n1, n2, n3) (m0, m1, m2, m3) hb i
  = Printf.dotted n0 n1 n2 (Z.land n3 m3 + i).
Proof.
  intros H0 H1 H2 H3 Hi Hmax. unfold network_target.
  assert (E2 : CInt.add n2 (CInt.div (i - 1) 256) = n2).
  { unfold CInt.add, CInt.div, CInt.wrap. rewrite Z.quot_small by lia.
    change (2 ^ 31) with 2147483648. change (2 ^ 32) with 4294967296.
    rewrite Z.mod_small by lia. lia. }
  assert (E3 : CInt.add (CInt.add (Z.land n3 m3) (CInt.rem (i - 1) 256)) 1
               = Z.land n3 m3 + i).
  { unfold CInt.add, CInt.rem, CInt.wrap. rewrite Z.rem_small by lia.
    change (2 ^ 31) with 2147483648. change (2 ^ 32) with 4294967296.
    rewrite (Z.mod_small (Z.land n3 m3 + (i - 1) + 2147483648)) by lia.
    rewrite Z.mod_small by lia. lia. }
  assert (E4 : CInt.add (Z.land n3 m3) i = Z.land n3 m3 + i).
  { unfold CInt.add, CInt.wrap.
    change (2 ^ 31) with 2147483648. change (2 ^ 32) with 4294967296.
    rewrite Z.mod_small by lia. lia. }
  rewrite E2, E3, E4. destruct (hb >? 8); apply dotted_fits; lia.
Qed.

(** X15: for a local interface with address [a0.a1.a2.a3] and the netmask of
    a prefix length [p] between 2 and 32, [discover_network] pings exactly
    the [n = min (2 ^ (32 - p) - 2, 254)] addresses that follow the network
    address [n0.n1.n2.n3], in order (none when [n <= 0]); their last octet
    stays below 255; and it returns the number of entries of the registry,
    which is at most [n]. *)
Theorem discover_network_candidates :
  forall (env : Env) (s : State) (local_ip : string)
         (a0 a1 a2 a3 p n0 n1 n2 n3 : Z),
    2 <= p <= 32 ->
    octets_ok (a0, a1, a2, a3) ->
    octets_and (a0, a1, a2, a3) (mask_of_prefix p) = (n0, n1, n2, n3) ->
    fst (get_local_network_info env s)
    = Some (local_ip, format_ip (n0, n1, n2, n3),
            format_ip (mask_of_prefix p)) ->
    let n := Z.min (2 ^ (32 - p) - 2) 254 in
    commands (snd (discover_network env s))
    = (commands s
       ++ map (fun i => ping_command (Printf.dotted n0 n1 n2 (n3 + i)))
            (upto n))%list
    /\ n3 + n <= 254
    /\ fst (discover_network env s)
       = Z.of_nat (discovered_count (snd (discover_network env s)))
    /\ fst (discover_network env s) <= Z.max 0 n.
Proof.
  intros env s local_ip a0 a1 a2 a3 p n0 n1 n2 n3 Hp Ha Hand Hinfo n.
  destruct Ha as [Ha0 [Ha1 [Ha2 Ha3]]].
  pose proof (sweep_range p a3 Hp Ha3) as Hrange.
  destruct (mask_of_prefix p) as [[[m0 m1] m2] m3] eqn:Em.
  destruct Hrange as [Hmax Hroom]. fold n in Hmax, Hroom.
  cbn [octets_and] in Hand. injection Hand as <- <- <- <-.
  assert (Hhb : get_host_bits env (format_ip (mask_of_prefix p)) = 32 - p).
  { unfold get_host_bits. rewrite parse_ip_mask. apply mask_bits. lia. }
  assert (Hpm : parse_ip (format_ip (mask_of_prefix p)) (indet env)
                = (m0, m1, m2, m3)).
  { rewrite parse_ip_mask. exact Em. }
  pose proof (land_octet a0 m0 Ha0) as Hn0.
  pose proof (land_octet a1 m1 Ha1) as Hn1.
  pose proof (land_octet a2 m2 Ha2) as Hn2.
  pose proof (land_octet a3 m3 Ha3) as Hn3.
  assert (Hpn : parse_ip
                  (format_ip (Z.land a0 m0, Z.land a1 m1, Z.land a2 m2,
                              Z.land a3 m3)) (indet env)
                = (Z.land a0 m0, Z.land a1 m1, Z.land a2 m2, Z.land a3 m3)).
  { unfold format_ip. apply parse_ip_dotted; lia. }
  rewrite <- Em in *.
  set (net := format_ip (Z.land a0 m0, Z.land a1 m1, Z.land a2 m2,
                         Z.land a3 m3)) in *.
  set (mask := format_ip (mask_of_prefix p)) in *.
  set (s0 := snd (reset_hosts s)).
  assert (Hinfo0 : get_local_network_info env s0
                   = (Some (local_ip, net, mask), s0)).
  { unfold get_local_network_info in *. cbn [fst] in Hinfo.
    subst s0. cbn [reset_hosts snd commands]. now rewrite Hinfo. }
  set (body := network_body env (parse_ip net (indet env))
                 (parse_ip mask (indet env)) (get_host_bits env mask)
                 (progress_step_of (max_hosts_of (get_host_bits env mask)))).
  assert (Hrun : discover_network env s
                 = (for_each has_room body
                      (upto (max_hosts_of (get_host_bits env mask))) tt ;;
                    get_count) s0).
  { rewrite discover_network_unfold. unfold bind at 1.
    change (reset_hosts s) with (tt, s0). cbv iota beta.
    unfold bind at 1. rewrite Hinfo0. reflexivity. }
  rewrite Hrun. clear Hrun. rewrite Hhb, Hmax.
  assert (Hloop : for_each has_room body (upto n) tt s0
                  = for_each (fun _ _ => true) body (upto n) tt s0).
  { apply for_each_has_room_all.
    - intros. apply adds_one_network_body.
    - rewrite upto_length. subst s0. cbn. unfold MAX_DISCOVERED_HOSTS. lia. }
  assert (Hcount : le_count (Z.to_nat n)
                     (snd (for_each has_room body (upto n) tt s0))).
  { assert (H : forall xs k st,
               le_count k st ->
               le_count (k + List.length xs)
                 (snd (for_each has_room body xs tt st))).
    { induction xs as [|x xs IH]; intros k st Hk; cbn [for_each].
      - cbn. unfold le_count in *. lia.
      - destruct (has_room tt st); [|cbn; unfold le_count in *; cbn; lia].
        pose proof
          (adds_one_network_body env (parse_ip net (indet env))
             (parse_ip mask (indet env)) (get_host_bits env mask)
             (progress_step_of (max_hosts_of (get_host_bits env mask)))
             x tt k st Hk) as Hx.
        fold body in Hx.
        destruct (body x tt st) as [[] st']. cbn [snd] in Hx.
        specialize (IH (S k) st' Hx). cbn [List.length].
        replace (k + S (List.length xs))%nat
          with (S k + List.length xs)%nat by lia.
        exact IH. }
    specialize (H (upto n) 0%nat s0). rewrite upto_length in H.
    apply H. subst s0. cbn. unfold le_count. cbn. lia. }
  split; [|split; [lia|split]].
  - rewrite bind_snd. unfold get_count. cbn [snd].
    rewrite Hloop.
    rewrite (for_each_trace commands
               (fun i =>
                  [ping_command
                     (Printf.dotted (Z.land a0 m0) (Z.land a1 m1)
                        (Z.land a2 m2) (Z.land a3 m3 + i))])).
    + subst s0. cbn [reset_hosts snd commands]. f_equal.
    + intros i u st Hi. apply upto_range in Hi. subst body.
      rewrite Hpn, Hpm, Em, Hhb.
      rewrite network_body_commands;
        rewrite network_target_dotted; rewrite ?land_land;
        try lia; try reflexivity.
      apply dotted_valid; change (2 ^ 31) with 2147483648; lia.
  - unfold bind, get_count.
    destruct (for_each has_room body (upto n) tt s0) as [u s1].
    reflexivity.
  - unfold bind, get_count.
    destruct (for_each has_room body (upto n) tt s0) as [u s1].
    cbn [fst snd] in *. unfold le_count in Hcount. lia.
Qed.

Lemma discover_network_candidates_witness :
  let n := Z.min (2 ^ (32 - 24) - 2) 254 in
  commands (snd (discover_network Sample.env initial_state))
  = (commands initial_state
     ++ map (fun i => ping_command (Printf.dotted 192 168 1 (0 + i)))
          (upto n))%list
  /\ 0 + n <= 254
  /\ fst (discover_network Sample.env initial_state)
     = Z.of_nat
         (discovered_count (snd (discover_network Sample.env initial_state)))
  /\ fst (discover_network Sample.env initial_state) <= Z.max 0 n.
Proof.
  apply (discover_network_candidates Sample.env initial_state "192.168.1.10"
           192 168 1 10 24 192 168 1 0).
  - lia.
  - unfold octets_ok. lia.
  - reflexivity.
  - reflexivity.
Defined.

(** ** Custom subnets *)

Lemma strtol_fmt_d (n : Z) (rest : string) :
  0 <= n < 2 ^ 31 -> starts_with_digit rest = false ->
  strtol (Printf.fmt_d n ++ rest) = (n, rest).
Proof.
  intros Hn Hr. destruct (dec_spec n Hn) as [Hne [Hd Hv]].
  unfold Printf.fmt_d.
  assert (E : (n <? 0) = false) by (apply Z.ltb_ge; lia). rewrite E.
  destruct (Printf.dec n) as [|c ds] eqn:Ed; [congruence|].
  simpl in Hd. apply andb_true_iff in Hd. destruct Hd as [Hc Hd].
  unfold strtol.
  assert (Hs : CStr.is_space c = false).
  { clear - Hc. destruct c as [[] [] [] [] [] [] [] []];
      vm_compute in Hc |- *; congruence. }
  assert (Hm : c <> "-"%char /\ c <> "+"%char).
  { clear - Hc. split; intros ->; vm_compute in Hc; discriminate. }
  simpl. rewrite Hs.
  assert (Hbody : (let '(neg, body) :=
                     match String c (ds ++ rest) with
                     | String "-" b => (true, b)
                     | String "+" b => (false, b)
                     | _ => (false, String c (ds ++ rest))
                     end in
                   if starts_with_digit body then
                     let (m, r) := digits 0 body in
                     (Z.max CInt.LONG_MIN
                        (Z.min CInt.LONG_MAX (if neg : bool then - m else m)),
                      r)
                   else (0, String c (ds ++ rest)))
                  = (if starts_with_digit (String c (ds ++ rest)) then
                       let (m, r) := digits 0 (String c (ds ++ rest)) in
                       (Z.max CInt.LONG_MIN (Z.min CInt.LONG_MAX m), r)
                     else (0, String c (ds ++ rest)))).
  { destruct Hm as [H1 H2].
    destruct c as [[] [] [] [] [] [] [] []]; try reflexivity;
      exfalso; [apply H2|apply H1]; reflexivity. }
  rewrite Hbody. simpl starts_with_digit. rewrite Hc.
  change (String c (ds ++ rest)) with (String c ds ++ rest).
  rewrite digits_app; [|simpl; rewrite Hc, Hd; reflexivity|exact Hr].
  rewrite Hv. unfold CInt.LONG_MIN, CInt.LONG_MAX.
  change (2 ^ 31) with 2147483648 in *.
  change (2 ^ 63) with 9223372036854775808.
  rewrite Z.min_r by lia. rewrite Z.max_r by lia. reflexivity.
Qed.

Lemma split_first_app (c : ascii) (a b : string) :
  ~ In c (list_ascii_of_string a) ->
  split_first c (a ++ String c b) = Some (a, b).
Proof.
  induction a as [|x a IH]; intros H; cbn [append split_first].
  - now rewrite Ascii.eqb_refl.
  - cbn [list_ascii_of_string] in H.
    destruct (Ascii.eqb_spec x c) as [->|Hx]; [exfalso; apply H; now left|].
    rewrite IH; [reflexivity|]. intros Hc. apply H. now right.
Qed.

Lemma split_first_none (c : ascii) (a : string) :
  ~ In c (list_ascii_of_string a) -> split_first c a = None.
Proof.
  induction a as [|x a IH]; intros H; cbn [split_first]; [reflexivity|].
  cbn [list_ascii_of_string] in H.
  destruct (Ascii.eqb_spec x c) as [->|Hx]; [exfalso; apply H; now left|].
  rewrite IH; [reflexivity|]. intros Hc. apply H. now right.
Qed.

Lemma valid_ip_no_slash (ip : string) :
  validate_ip_string (Some ip) = 1 ->
  ~ In "/"%char (list_ascii_of_string ip).
Proof.
  intros Hv Hin. apply validate_ip_string_1 in Hv. destruct Hv as [_ Hv].
  specialize (Hv _ Hin). vm_compute in Hv. intuition discriminate.
Qed.

(** From an empty registry, the value [scan_subnet] returns is the number
    of entries of the registry. *)
Lemma scan_subnet_counts (env : Env) (network_addr : string)
  (prefix_len : Z) (s : State) :
  discovered_hosts s = [] ->
  fst (scan_subnet env network_addr prefix_len s)
  = Z.of_nat (discovered_count (snd (scan_subnet env network_addr
                                      prefix_len s))).
Proof.
  intros E.
  destruct (scan_subnet_appended env network_addr prefix_len
              (discovered_hosts s) s (appended_start _ s))
    as [ext [E1 [E2 _]]].
  rewrite E2. unfold discovered_count. rewrite E1, E. reflexivity.
Qed.

(** X16: [discover_custom_subnet] either returns -1, with the registry
    emptied and no command run, or is the sweep [scan_subnet] of a network
    address that passed [validate_ip_string] and has at most 15 characters,
    with a prefix length between 16 and 30, from an empty registry; it then
    returns the number of entries of the registry. *)
Theorem discover_custom_subnet_guards :
  forall (env : Env) (subnet_cidr : string) (s : State),
    let r := discover_custom_subnet env subnet_cidr s in
    (fst r = -1 /\ snd r = snd (reset_hosts s))
    \/ (exists network prefix_len,
           validate_ip_string (Some network) = 1
           /\ (String.length network <= 15)%nat
           /\ 16 <= prefix_len <= 30
           /\ r = scan_subnet env network prefix_len (snd (reset_hosts s))
           /\ fst r = Z.of_nat (discovered_count (snd r))).
Proof.
  intros env cidr s. cbv zeta.
  unfold discover_custom_subnet. unfold bind at 1.
  change (reset_hosts s) with (tt, snd (reset_hosts s)). cbv iota beta.
  set (s0 := snd (reset_hosts s)).
  destruct (split_first "/" cidr) as [[before after]|].
  - destruct (strtol after) as [parsed endptr].
    destruct (negb (at_end endptr)); [left; split; reflexivity|].
    destruct ((CInt.wrap parsed <? 16) || (CInt.wrap parsed >? 30)) eqn:Er;
      [left; split; reflexivity|].
    destruct (validate_ip_string (Some (CStr.bounded MAX_IP_LEN before)) =? 0)
      eqn:Ev; [left; split; reflexivity|].
    right. exists (CStr.bounded MAX_IP_LEN before), (CInt.wrap parsed).
    split; [apply validate_ip_string_nonzero, Ev|].
    split; [apply (take_length 15)|]. split.
    + apply orb_false_iff in Er. rewrite Z.ltb_ge, Z.gtb_ltb, Z.ltb_ge in Er.
      lia.
    + split; [reflexivity|]. apply scan_subnet_counts. reflexivity.
  - destruct (validate_ip_string (Some (CStr.bounded MAX_IP_LEN cidr)) =? 0)
      eqn:Ev; [left; split; reflexivity|].
    right. exists (CStr.bounded MAX_IP_LEN cidr), 24.
    split; [apply validate_ip_string_nonzero, Ev|].
    split; [apply (take_length 15)|]. split; [lia|].
    split; [reflexivity|]. apply scan_subnet_counts. reflexivity.
Qed.

(** X17: for a network address that passes [validate_ip_string] and has at
    most 15 characters, [discover_custom_subnet] sweeps it with prefix
    length 24 when the argument is the address alone, and on the argument
    [address/p], with [p] a non-negative [int] in decimal, followed by a
    text that starts with no digit, it sweeps with
    prefix length [p] when that text is empty or starts with a newline or a
    blank and [16 <= p <= 30], and returns -1 otherwise. *)
Theorem discover_custom_subnet_parses :
  forall (env : Env) (network rest : string) (p : Z) (s : State),
    validate_ip_string (Some network) = 1 ->
    (String.length network <= 15)%nat ->
    0 <= p < 2 ^ 31 ->
    starts_with_digit rest = false ->
    let s0 := snd (reset_hosts s) in
    discover_custom_subnet env network s = scan_subnet env network 24 s0
    /\ discover_custom_subnet env
         (network ++ "/" ++ Printf.fmt_d p ++ rest) s
       = (if at_end rest && (16 <=? p) && (p <=? 30)
          then scan_subnet env network p s0
          else (-1, s0)).
Proof.
  intros env network rest p s Hv Hl Hp Hr. cbv zeta.
  pose proof (valid_ip_no_slash network Hv) as Hns.
  assert (Hb : CStr.bounded MAX_IP_LEN network = network).
  { apply take_all. exact Hl. }
  assert (Hw : CInt.wrap p = p).
  { unfold CInt.wrap. change (2 ^ 31) with 2147483648 in *.
    change (2 ^ 32) with 4294967296. rewrite Z.mod_small by lia. lia. }
  assert (Hz : (validate_ip_string (Some network) =? 0) = false)
    by now rewrite Hv.
  split.
  - unfold discover_custom_subnet. unfold bind at 1.
    rewrite (split_first_none "/" network Hns), Hb, Hz. reflexivity.
  - unfold discover_custom_subnet. unfold bind at 1.
    change ("/" ++ Printf.fmt_d p ++ rest)
      with (String "/" (Printf.fmt_d p ++ rest)).
    rewrite (split_first_app "/" network _ Hns), strtol_fmt_d, Hw, Hb, Hz
      by assumption.
    destruct (at_end rest); cbn [negb andb]; [|reflexivity].
    rewrite Z.gtb_ltb, !Z.ltb_antisym.
    destruct (16 <=? p), (p <=? 30); cbn [negb orb andb]; reflexivity.
Qed.

Lemma discover_custom_subnet_parses_witness :
  let s0 := snd (reset_hosts initial_state) in
  discover_custom_subnet Sample.env "10.0.0.0" initial_state
  = scan_subnet Sample.env "10.0.0.0" 24 s0
  /\ discover_custom_subnet Sample.env
       ("10.0.0.0" ++ "/" ++ Printf.fmt_d 30 ++ " ") initial_state
     = (if at_end " " && (16 <=? 30) && (30 <=? 30)
        then scan_subnet Sample.env "10.0.0.0" 30 s0
        else (-1, s0)).
Proof.
  apply (discover_custom_subnet_parses Sample.env "10.0.0.0" " " 30
           initial_state).
  - reflexivity.
  - simpl. lia.
  - change (2 ^ 31) with 2147483648. lia.
  - reflexivity.
Defined.

(** ** The number of commands *)

Lemma issues_le {A : Type} (k k' : nat) (m : M A) :
  (k <= k')%nat -> issues k m -> issues k' m.
Proof. intros H Hm s. specialize (Hm s). lia. Qed.

Lemma issues_ret {A : Type} (k : nat) (a : A) : issues k (ret a).
Proof. intros s. cbn. lia. Qed.

Lemma issues_popen (env : Env) (k : nat) (cmd : string) :
  issues (S k) (popen env cmd).
Proof. intros s. cbn. rewrite length_app. cbn. lia. Qed.

Lemma issues_bind {A B : Type} (k1 k2 : nat) (m : M A) (f : A -> M B) :
  issues k1 m -> (forall a, issues k2 (f a)) -> issues (k1 + k2) (bind m f).
Proof.
  intros Hm Hf s. rewrite bind_snd.
  specialize (Hm s). specialize (Hf (fst (m s)) (snd (m s))). lia.
Qed.

Lemma issues_quiet {A : Type} (k : nat) (m : M A) :
  (forall X, preserves (fun s => commands s = X) m) -> issues k m.
Proof. intros H s. rewrite (H (commands s) s eq_refl). lia. Qed.

Lemma issues_for_each {X A : Type} (k : nat) (guard : A -> State -> bool)
  (body : X -> A -> M A) (xs : list X) (a : A) :
  (forall x b, issues k (body x b)) ->
  issues (List.length xs * k) (for_each guard body xs a).
Proof.
  intros Hb. revert a. induction xs as [|x xs IH]; intros a s;
    cbn [for_each List.length]; [cbn; lia|].
  destruct (guard a s); [|cbn; lia].
  specialize (Hb x a s). destruct (body x a s) as [a' s']. cbn [snd] in Hb.
  specialize (IH a' s'). lia.
Qed.

Lemma issues_for_each_quiet {X A : Type} (guard : A -> State -> bool)
  (body : X -> A -> M A) (xs : list X) (a : A) (k : nat) :
  (forall x b, issues 0 (body x b)) -> issues k (for_each guard body xs a).
Proof.
  intros Hb. apply issues_le with (List.length xs * 0)%nat; [lia|].
  apply issues_for_each, Hb.
Qed.

Ltac quiet :=
  intros;
  repeat first
    [ apply preserves_ret
    | apply preserves_get_hosts
    | apply preserves_get_count
    | apply preserves_get_local_network_info
    | apply reset_hosts_commands; apply logged_on_commands
    | apply add_host_commands; apply logged_on_commands
    | apply print_commands; apply logged_on_commands
    | apply add_if_new_commands; apply logged_on_commands
    | apply snmp_arp_line_commands; apply logged_on_commands
    | apply conn_line_commands; apply logged_on_commands
    | apply auto_arp_line_commands; apply logged_on_commands
    | inv_shape ].

Section Budget.

Variable env : Env.

Lemma ping_host_system_issues (ip : string) :
  issues 1 (ping_host_system env ip).
Proof.
  unfold ping_host_system. destruct (_ =? 0); [apply issues_ret|].
  apply (issues_bind 1 0); [apply issues_popen|].
  intros [t|]; apply issues_ret.
Qed.

Lemma scan_subnet_issues (network_addr : string) (prefix_len : Z) :
  issues 254 (scan_subnet env network_addr prefix_len).
Proof.
  unfold scan_subnet. destruct (_ <=? 0) eqn:E; [apply issues_ret|].
  eapply issues_le; [|apply (issues_for_each 1)].
  - rewrite upto_length.
    pose proof (max_hosts_of_le (CInt.sub 32 prefix_len)). lia.
  - intros i found. unfold scan_body.
    apply (issues_bind 1 0); [apply ping_host_system_issues|].
    intros r. apply issues_quiet. unfold add_if_new. quiet.
Qed.

Lemma discover_network_issues : issues 254 (discover_network env).
Proof.
  unfold discover_network.
  apply (issues_bind 0 254); [apply issues_quiet; quiet|]. intros _.
  apply (issues_bind 0 254); [apply issues_quiet; quiet|].
  intros [[[l n] m]|]; [|apply issues_ret].
  apply (issues_bind 254 0); [|intros; apply issues_quiet; quiet].
  eapply issues_le; [|apply (issues_for_each 1)].
  - rewrite upto_length. pose proof (max_hosts_of_le (get_host_bits env m)).
    lia.
  - intros i u. unfold network_body.
    apply (issues_bind 1 0); [apply ping_host_system_issues|].
    intros r. apply issues_quiet. quiet.
Qed.

Lemma probe_and_add_issues (ip : string) : issues 1 (probe_and_add env ip).
Proof.
  unfold probe_and_add.
  apply (issues_bind 1 0); [apply ping_host_system_issues|].
  intros r. apply issues_quiet. quiet.
Qed.

Lemma discover_network_quick_issues :
  issues 25 (discover_network_quick env).
Proof.
  unfold discover_network_quick.
  apply (issues_bind 0 25); [apply issues_quiet; quiet|]. intros _.
  apply (issues_bind 0 25); [apply issues_quiet; quiet|].
  intros [[[l n] m]|]; [|apply issues_ret].
  destruct (parse_ip n (indet env)) as [[[n0 n1] n2] n3].
  apply (issues_bind 1 24); [apply probe_and_add_issues|]. intros _.
  apply (issues_bind 1 23); [apply probe_and_add_issues|]. intros _.
  apply (issues_bind 23 0); [|intros; apply issues_quiet; quiet].
  apply (issues_for_each 1 _ _ quick_targets). intros t u.
  destruct (CStr.streq _ _); [apply issues_ret|apply probe_and_add_issues].
Qed.

Lemma traceroute_discover_issues (target_ip : string) :
  issues 1 (traceroute_discover env target_ip).
Proof.
  unfold traceroute_discover. destruct (_ =? 0); [apply issues_ret|].
  apply (issues_bind 1 0); [apply issues_popen|].
  intros [t|]; [|apply issues_ret].
  apply issues_quiet. unfold traceroute_line. quiet.
Qed.

Lemma scan_gateway_issues (network_addr gateway : string) (n : Z) :
  issues 254 (scan_gateway env network_addr gateway n).
Proof.
  unfold scan_gateway.
  destruct (parse_ip gateway (indet env)) as [[[g0 g1] g2] g3].
  destruct (is_private _); [|apply issues_ret].
  destruct (parse_ip network_addr (indet env)) as [[[l0 l1] l2] l3].
  destruct (_ && _); [apply issues_ret|].
  apply (issues_bind 254 0); [apply scan_subnet_issues|].
  intros; apply issues_ret.
Qed.

Lemma trace_and_scan_issues (network_addr : string) (targets : list string)
  (n : Z) :
  issues (List.length targets + 5 * 254)
    (trace_and_scan env network_addr targets n).
Proof.
  induction targets as [|t targets IH]; cbn [trace_and_scan List.length];
    [apply issues_ret|].
  apply (issues_bind 1 (List.length targets + 5 * 254));
    [apply traceroute_discover_issues|].
  intros [r gateways]. destruct (r >? 0); [|exact IH].
  eapply issues_le; [|apply (issues_for_each 254)].
  - pose proof (firstn_le_length 5 gateways). nia.
  - intros. apply scan_gateway_issues.
Qed.

Lemma discover_multi_subnet_issues :
  issues (254 + 2 + 5 * 254) (discover_multi_subnet env).
Proof.
  unfold discover_multi_subnet.
  apply (issues_bind 0 (254 + 2 + 5 * 254)); [apply issues_quiet; quiet|].
  intros _.
  apply (issues_bind 0 (254 + 2 + 5 * 254)); [apply issues_quiet; quiet|].
  intros [[[l n] m]|]; [|apply issues_ret].
  replace (254 + 2 + 5 * 254)%nat with (254 + (2 + 5 * 254 + 0))%nat by lia.
  apply issues_bind; [apply scan_subnet_issues|]. intros found.
  apply issues_bind; [apply (trace_and_scan_issues _ common_gateways)|].
  intros; apply issues_quiet; quiet.
Qed.

Lemma discover_arp_cache_issues : issues 1 (discover_arp_cache env).
Proof.
  unfold discover_arp_cache.
  apply (issues_bind 0 1); [apply issues_quiet; quiet|]. intros _.
  apply (issues_bind 1 0); [apply issues_popen|].
  intros [t|]; [|apply issues_ret].
  apply issues_quiet. unfold arp_cache_line. quiet.
Qed.

Lemma discover_snmp_arp_issues (router_ip community : string) :
  issues 1 (discover_snmp_arp env router_ip community).
Proof.
  unfold discover_snmp_arp. destruct (_ =? 0); [apply issues_ret|].
  destruct (negb _); [apply issues_ret|].
  apply (issues_bind 1 0); [apply issues_popen|].
  intros [t|]; [|apply issues_ret]. apply issues_quiet. quiet.
Qed.

Lemma discover_netstat_issues : issues 1 (discover_netstat env).
Proof.
  unfold discover_netstat.
  apply (issues_bind 0 1); [apply issues_quiet; quiet|]. intros _.
  apply (issues_bind 1 0); [apply issues_popen|].
  intros [t|]; [|apply issues_ret]. apply issues_quiet. quiet.
Qed.

Lemma discover_efficient_issues : issues 3 (discover_efficient env).
Proof.
  unfold discover_efficient.
  apply (issues_bind 0 3); [apply issues_quiet; quiet|]. intros _.
  apply (issues_bind 1 2); [apply discover_arp_cache_issues|]. intros _.
  apply (issues_bind 1 1); [apply issues_popen|]. intros fp.
  apply (issues_bind 0 1); [destruct fp; apply issues_quiet; quiet|].
  intros _.
  apply (issues_bind 1 0); [apply issues_popen|]. intros fp'.
  apply (issues_bind 0 0); [|intros; apply issues_quiet; quiet].
  destruct fp'; [|apply issues_ret].
  apply issues_quiet. unfold efficient_gateway, add_if_new. quiet.
Qed.

Lemma try_snmp_community_issues (router_ip community : string) :
  issues 1 (try_snmp_community env router_ip community).
Proof.
  unfold try_snmp_community. destruct (_ =? 0); [apply issues_ret|].
  destruct (_ =? 0); [apply issues_ret|].
  apply (issues_bind 1 0); [apply issues_popen|].
  intros [t|]; [|apply issues_ret]. apply issues_quiet. quiet.
Qed.

Lemma discover_router_interfaces_issues (router_ip community : string)
  (n : nat) :
  issues 1 (discover_router_interfaces env router_ip community n).
Proof.
  unfold discover_router_interfaces. destruct (_ || _); [apply issues_ret|].
  apply (issues_bind 1 0); [apply issues_popen|].
  intros [t|]; [|apply issues_ret].
  apply issues_quiet. unfold interface_line. quiet.
Qed.

Lemma discover_nexthop_routers_issues (router_ip community : string)
  (n : nat) :
  issues 1 (discover_nexthop_routers env router_ip community n).
Proof.
  unfold discover_nexthop_routers. destruct (_ || _); [apply issues_ret|].
  apply (issues_bind 1 0); [apply issues_popen|].
  intros [t|]; [|apply issues_ret].
  apply issues_quiet. unfold nexthop_line. quiet.
Qed.

Lemma try_communities_issues (current_router : string)
  (cs l : list string) :
  issues (List.length cs + 2) (try_communities env current_router cs l).
Proof.
  induction cs as [|c cs IH]; cbn [try_communities List.length];
    [apply issues_ret|].
  apply (issues_bind 1 (List.length cs + 2));
    [apply discover_router_interfaces_issues|].
  intros interfaces. destruct (0 <? _)%nat; [|exact IH].
  apply issues_le with (0 + (1 + (0 + (1 + 0))))%nat; [lia|].
  apply issues_bind; [apply issues_quiet; unfold add_if_new; quiet|].
  intros _.
  apply issues_bind; [apply discover_nexthop_routers_issues|].
  intros nexthops.
  apply issues_bind; [apply issues_quiet; unfold add_nexthop; quiet|].
  intros l'.
  apply issues_bind; [apply try_snmp_community_issues|].
  intros; apply issues_ret.
Qed.

Lemma walk_routers_issues (fuel : nat) (w : walk) :
  issues (fuel * (5 + 2)) (walk_routers env fuel w).
Proof.
  revert w. induction fuel as [|fuel IH]; intros w; cbn [walk_routers];
    [apply issues_ret|].
  destruct (_ && _); [|apply issues_ret].
  apply issues_le with (0 + ((5 + 2) + fuel * (5 + 2)))%nat; [lia|].
  apply issues_bind; [apply issues_quiet; quiet|]. intros _.
  apply issues_bind; [apply (try_communities_issues _ communities)|].
  intros r. apply IH.
Qed.

Lemma discover_automatic_issues :
  issues (1 + MAX_HOPS * (5 + 2) + 2) (discover_automatic env).
Proof.
  unfold discover_automatic.
  apply (issues_bind 0 (1 + MAX_HOPS * (5 + 2) + 2));
    [apply issues_quiet; quiet|]. intros _.
  replace (1 + MAX_HOPS * (5 + 2) + 2)%nat
    with ((1 + MAX_HOPS * (5 + 2)) + (2 + 0))%nat by lia.
  apply issues_bind.
  - unfold automatic_snmp. apply issues_bind.
    + unfold get_default_gateway.
      apply (issues_bind 1 0); [apply issues_popen|].
      intros [t|]; [|apply issues_ret].
      destruct (CStr.fgets _ _) as [[line rest]|]; apply issues_ret.
    + intros [ok gateway]. destruct (ok =? 0); [apply issues_ret|].
      apply (issues_bind 0 (MAX_HOPS * (5 + 2)));
        [apply issues_quiet; quiet|].
      intros _. apply walk_routers_issues.
  - intros _. apply issues_bind; [|intros; apply issues_quiet; quiet].
    unfold automatic_local.
    apply (issues_bind 1 1); [apply issues_popen|]. intros fp.
    apply (issues_bind 0 1); [destruct fp; apply issues_quiet; quiet|].
    intros _. apply (issues_bind 1 0); [apply issues_popen|].
    intros [t|]; [|apply issues_ret]. apply issues_quiet. quiet.
Qed.

Lemma discover_custom_subnet_issues (subnet_cidr : string) :
  issues 254 (discover_custom_subnet env subnet_cidr).
Proof.
  unfold discover_custom_subnet.
  apply (issues_bind 0 254); [apply issues_quiet; quiet|]. intros _.
  destruct (split_first "/" subnet_cidr) as [[before after]|].
  - destruct (strtol after) as [parsed endptr].
    destruct (negb _); [apply issues_ret|].
    destruct (_ || _); [apply issues_ret|].
    destruct (_ =? 0); [apply issues_ret|apply scan_subnet_issues].
  - destruct (_ =? 0); [apply issues_ret|apply scan_subnet_issues].
Qed.

End Budget.

(** X18: each call of a function of the module runs at most [budget]
    external commands: 254 for a sweep, 25 for the quick scan, 1526 for the
    scan of several subnets, 213 for the automatic discovery, 3 for the
    efficient discovery and 1 for the others. *)
Theorem command_budget :
  forall (env : Env) (c : call) (s : State),
    (List.length (commands (run_call env c s))
     <= List.length (commands s) + budget c)%nat
    /\ (budget c <= 1526)%nat.
Proof.
  intros env c s. split.
  - destruct c; cbn [run_call budget].
    + apply discover_network_issues.
    + apply discover_network_quick_issues.
    + apply discover_multi_subnet_issues.
    + apply discover_custom_subnet_issues.
    + apply discover_arp_cache_issues.
    + apply discover_snmp_arp_issues.
    + apply discover_netstat_issues.
    + apply discover_efficient_issues.
    + apply discover_automatic_issues.
    + apply traceroute_discover_issues.
    + apply scan_subnet_issues.
  - destruct c; cbn; lia.
Qed.

Lemma commands_after (X : list string) {A : Type} (m : M A) (s : State) :
  preserves (fun st => commands st = X) m ->
  commands s = X -> commands (snd (m s)) = X.
Proof. intros H E. exact (H s E). Qed.

(** X19: the passive collectors run a fixed list of commands, whatever the
    system answers: [discover_arp_cache] the neighbour command,
    [discover_netstat] the connection command, and [discover_efficient] the
    neighbour, connection and route commands, in this order; none of them
    pings. *)
Theorem passive_collectors_commands :
  forall (env : Env) (s : State),
    commands (snd (discover_arp_cache env s))
    = (commands s ++ [neigh_command])%list
    /\ commands (snd (discover_netstat env s))
       = (commands s ++ [conn_command])%list
    /\ commands (snd (discover_efficient env s))
       = (commands s ++ [neigh_command; conn_command; route_command])%list.
Proof.
  intros env s.
  assert (Harp : forall st,
             commands (snd (discover_arp_cache env st))
             = (commands st ++ [neigh_command])%list).
  { intros st. unfold discover_arp_cache. rewrite bind_snd.
    rewrite (one_command env (B := unit)); [reflexivity|].
    intros [t|] X; [|apply preserves_ret]. unfold arp_cache_line. quiet. }
  split; [apply Harp|]. split.
  - unfold discover_netstat. rewrite bind_snd.
    rewrite (one_command env (B := unit)); [reflexivity|].
    intros [t|] X; [|apply preserves_ret]. quiet.
  - unfold discover_efficient. rewrite bind_snd, bind_snd.
    set (s1 := snd (discover_arp_cache env (snd (reset_hosts s)))).
    assert (E1 : commands s1 = (commands s ++ [neigh_command])%list).
    { subst s1. rewrite Harp. reflexivity. }
    rewrite bind_snd.
    set (s2 := snd (popen env conn_command s1)).
    assert (E2 : commands s2
                 = (commands s ++ [neigh_command; conn_command])%list).
    { subst s2. cbn. rewrite E1, <- app_assoc. reflexivity. }
    rewrite bind_snd.
    match goal with
    | |- commands (snd (_ (snd (?m s2)))) = _ => set (s3 := snd (m s2))
    end.
    assert (E3 : commands s3 = commands s2).
    { subst s3. apply commands_after; [|reflexivity].
      destruct (fst (popen env conn_command s1)); quiet. }
    rewrite (one_command env (B := unit)).
    + rewrite E3, E2, <- app_assoc. reflexivity.
    + intros fp X. apply preserves_bind; [|quiet].
      destruct fp; [|apply preserves_ret].
      unfold efficient_gateway, add_if_new. quiet.
Qed.

(** X20: when [get_local_network_info] fails, [discover_network],
    [discover_network_quick] and [discover_multi_subnet] return -1 after
    they emptied the registry, and run no command. *)
Theorem sweeps_without_interface :
  forall (env : Env) (s : State),
    fst (get_local_network_info env s) = None ->
    discover_network env s = (-1, snd (reset_hosts s))
    /\ discover_network_quick env s = (-1, snd (reset_hosts s))
    /\ discover_multi_subnet env s = (-1, snd (reset_hosts s)).
Proof.
  intros env s H.
  assert (E : get_local_network_info env (snd (reset_hosts s))
              = (None, snd (reset_hosts s))).
  { unfold get_local_network_info in *. cbn [fst snd reset_hosts commands]
      in *. now rewrite H. }
  assert (R : forall (A : Type) (k : M A),
             (reset_hosts ;; k) s = k (snd (reset_hosts s)))
    by reflexivity.
  repeat split.
  - unfold discover_network. rewrite R. unfold bind. now rewrite E.
  - unfold discover_network_quick. rewrite R. unfold bind. now rewrite E.
  - unfold discover_multi_subnet. rewrite R. unfold bind. now rewrite E.
Qed.

Lemma sweeps_without_interface_witness :
  discover_network dead_env initial_state
  = (-1, snd (reset_hosts initial_state))
  /\ discover_network_quick dead_env initial_state
     = (-1, snd (reset_hosts initial_state))
  /\ discover_multi_subnet dead_env initial_state
     = (-1, snd (reset_hosts initial_state)).
Proof.
  apply (sweeps_without_interface dead_env initial_state). reflexivity.
Defined.

(** X21: when [get_default_gateway] fails, [discover_automatic] runs the
    route command, the neighbour command and the connection command and no
    other, and queries no router. *)
Theorem automatic_without_gateway :
  forall (env : Env) (s : State),
    fst (fst (get_default_gateway env (snd (reset_hosts s)))) = 0 ->
    commands (snd (discover_automatic env s))
    = (commands s ++ [route_command; neigh_command; conn_command])%list
    /\ queried_routers (stdout (snd (discover_automatic env s)))
       = queried_routers (stdout s).
Proof.
  intros env s H. unfold discover_automatic.
  rewrite !bind_snd. unfold get_count. cbn [snd].
  set (s0 := snd (reset_hosts s)) in *.
  assert (Hs : snd (automatic_snmp env s0)
               = snd (get_default_gateway env s0)).
  { unfold automatic_snmp. rewrite bind_snd.
    destruct (get_default_gateway env s0) as [[ok gw] s1].
    cbn [fst snd] in *. subst ok. reflexivity. }
  rewrite Hs.
  destruct (get_default_gateway_state env s0) as [Hc _].
  split.
  - rewrite automatic_local_log, Hc. subst s0. cbn [reset_hosts snd commands].
    rewrite <- app_assoc. reflexivity.
  - f_equal.
    transitivity (stdout (snd (get_default_gateway env s0))).
    + apply (automatic_local_quiet env
               (fun st => stdout st
                          = stdout (snd (get_default_gateway env s0)))
               (stdout_on_stdout _)). reflexivity.
    + apply (get_default_gateway_quiet env
               (fun st => stdout st = stdout s0) (stdout_on_stdout _)).
      reflexivity.
Qed.

Lemma automatic_without_gateway_witness :
  commands (snd (discover_automatic dead_env initial_state))
  = (commands initial_state
     ++ [route_command; neigh_command; conn_command])%list
  /\ queried_routers (stdout (snd (discover_automatic dead_env initial_state)))
     = queried_routers (stdout initial_state).
Proof.
  apply (automatic_without_gateway dead_env initial_state). reflexivity.
Defined.

(** ** The menu and the core functions *)

Lemma skip_line_length (input rest : string) :
  skip_line input = Some rest ->
  (String.length rest < String.length input)%nat.
Proof.
  revert rest. induction input as [|c input IH]; intros rest H;
    cbn [skip_line] in H; [discriminate|].
  cbn [String.length]. destruct (c =? "010")%char.
  - injection H as <-. lia.
  - specialize (IH rest H). lia.
Qed.

Lemma skip_space_length (s : string) :
  (String.length (skip_space s) <= String.length s)%nat.
Proof.
  induction s as [|c s IH]; cbn [skip_space String.length]; [lia|].
  destruct (CStr.is_space c); cbn [String.length]; lia.
Qed.

Lemma digits_length (acc : Z) (s : string) :
  (String.length (snd (digits acc s)) <= String.length s)%nat.
Proof.
  revert acc. induction s as [|c s IH]; intros acc;
    cbn [digits String.length]; [cbn; lia|].
  destruct (CStr.is_digit c); [|cbn; lia].
  specialize (IH (10 * acc + digit_val c)). lia.
Qed.

Lemma sign_cases (c : ascii) (s : string) :
  match String c s with
  | String "-" b => (true, b)
  | String "+" b => (false, b)
  | _ => (false, String c s)
  end
  = if (c =? "-")%char then (true, s)
    else if (c =? "+")%char then (false, s)
    else (false, String c s).
Proof. destruct c as [[] [] [] [] [] [] [] []]; reflexivity. Qed.

Lemma scanf_d_length (input : string) :
  (String.length (snd (scanf_d input)) <= String.length input)%nat.
Proof.
  unfold scanf_d. pose proof (skip_space_length input) as H.
  assert (Hgen : forall (neg : bool) body,
             (String.length body <= String.length input)%nat ->
             (String.length
                (snd (if starts_with_digit body
                      then let (n, rest) := digits 0 body in
                           (Some (to_int (if neg then - n else n)), rest)
                      else (None, body)))
              <= String.length input)%nat).
  { intros neg body Hb. destruct (starts_with_digit body).
    - pose proof (digits_length 0 body) as Hd.
      destruct (digits 0 body). cbn [snd] in *. lia.
    - cbn [snd]. lia. }
  destruct (skip_space input) as [|c s]; [cbn; lia|].
  rewrite sign_cases. cbn [String.length] in H.
  destruct (c =? "-")%char; [apply (Hgen true); lia|].
  destruct (c =? "+")%char; apply (Hgen false); cbn [String.length]; lia.
Qed.

Lemma getchar_length (input : string) :
  (String.length (snd (getchar input)) <= String.length input)%nat.
Proof. destruct input; cbn; lia. Qed.

Section MenuProofs.

Variable env : Env.

Lemma press_enter_length (p : session) :
  (String.length (stdin (press_enter p)) <= String.length (stdin p))%nat.
Proof. unfold press_enter. cbn [stdin]. apply getchar_length. Qed.

(** A menu entry reads at most one character, and only entry 1 touches the
    discovery module. *)
Lemma handle_menu_choice_effect (choice : Z) (p : session) :
  (String.length (stdin (handle_menu_choice env choice p))
   <= String.length (stdin p))%nat
  /\ net (handle_menu_choice env choice p)
     = if choice =? 1 then run_call env call_discover_automatic (net p)
       else net p.
Proof.
  unfold handle_menu_choice, discover_automatic_menu, view_statistics,
    configure_devices.
  destruct (choice =? 1).
  - cbn [run_call]. destruct (discover_automatic env (net p)) as [found s].
    split; [apply (press_enter_length {| stdin := stdin p; net := s |})|].
    reflexivity.
  - destruct (choice =? 2); [split; [apply press_enter_length|reflexivity]|].
    destruct (choice =? 3); split;
      first [apply press_enter_length | reflexivity].
Qed.

Lemma run_calls_repeat_S (c : call) (k : nat) (s : State) :
  run_calls env (repeat c (S k)) s
  = run_calls env (repeat c k) (run_call env c s).
Proof. reflexivity. Qed.

Lemma main_loop_outcome (fuel : nat) :
  forall p,
    (String.length (stdin p) < fuel)%nat ->
    main_loop env fuel p = never_returns
    \/ exists k rest,
         main_loop env fuel p
         = returns {| stdin := rest;
                      net := run_calls env
                               (repeat call_discover_automatic k) (net p) |}
         /\ (k <= String.length (stdin p))%nat.
Proof.
  induction fuel as [|fuel IH]; intros p Hf; [lia|].
  cbn [main_loop].
  pose proof (scanf_d_length (stdin p)) as Hs.
  destruct (scanf_d (stdin p)) as [choice rest]. cbn [snd] in Hs.
  destruct (skip_line rest) as [rest'|] eqn:El; [|left; reflexivity].
  apply skip_line_length in El.
  destruct choice as [c|].
  - destruct (c =? 0) eqn:Ec.
    + right. exists 0%nat, rest'. split; [reflexivity|lia].
    + destruct (handle_menu_choice_effect c
                  {| stdin := rest'; net := net p |}) as [Hl Hn].
      cbn [stdin net] in Hl, Hn.
      destruct (IH (handle_menu_choice env c
                      {| stdin := rest'; net := net p |})) as [H|H];
        [lia|left; exact H|].
      right. destruct H as [k [r [H Hk]]]. rewrite Hn in H.
      destruct (c =? 1).
      * exists (S k), r. rewrite run_calls_repeat_S. split; [exact H|lia].
      * exists k, r. split; [exact H|lia].
  - destruct (IH {| stdin := rest'; net := net p |}) as [H|H];
      [cbn [stdin]; lia|left; exact H|].
    right. destruct H as [k [r [H Hk]]]. cbn [stdin net] in *.
    exists k, r. split; [exact H|lia].
Qed.

Lemma skip_line_none (input : string) :
  (forall c, In c (list_ascii_of_string input) -> c <> "010"%char) ->
  skip_line input = None.
Proof.
  induction input as [|c input IH]; intros H; cbn [skip_line];
    [reflexivity|].
  cbn [list_ascii_of_string] in H.
  destruct (Ascii.eqb_spec c "010") as [->|Hc].
  - exfalso. apply (H "010"%char); [now left|reflexivity].
  - apply IH. intros x Hx. apply H. now right.
Qed.

Lemma skip_space_chars (s : string) (c : ascii) :
  In c (list_ascii_of_string (skip_space s)) ->
  In c (list_ascii_of_string s).
Proof.
  induction s as [|a s IH]; cbn [skip_space]; [auto|].
  destruct (CStr.is_space a); [|auto].
  intros H. right. exact (IH H).
Qed.

Lemma digits_chars (acc : Z) (s : string) (c : ascii) :
  In c (list_ascii_of_string (snd (digits acc s))) ->
  In c (list_ascii_of_string s).
Proof.
  revert acc. induction s as [|a s IH]; intros acc; cbn [digits]; [auto|].
  destruct (CStr.is_digit a); [|auto].
  intros H. right. exact (IH _ H).
Qed.

Lemma scanf_d_chars (input : string) (c : ascii) :
  In c (list_ascii_of_string (snd (scanf_d input))) ->
  In c (list_ascii_of_string input).
Proof.
  unfold scanf_d. intros H. apply skip_space_chars.
  assert (Hgen : forall (neg : bool) body,
             In c (list_ascii_of_string
                     (snd (if starts_with_digit body
                           then let (n, rest) := digits 0 body in
                                (Some (to_int (if neg then - n else n)),
                                 rest)
                           else (None, body)))) ->
             In c (list_ascii_of_string body)).
  { intros neg body Hb. destruct (starts_with_digit body); [|exact Hb].
    apply (digits_chars 0). destruct (digits 0 body). exact Hb. }
  destruct (skip_space input) as [|a s]; [exact H|].
  rewrite sign_cases in H.
  destruct (a =? "-")%char; [right; exact (Hgen true s H)|].
  destruct (a =? "+")%char; [right; exact (Hgen false s H)|].
  exact (Hgen false _ H).
Qed.

End MenuProofs.

(** X22: [main] returns [EXIT_SUCCESS] or never returns, and the model never
    runs out of fuel.  When it returns, the discovery module is in the
    state that some number of runs of [discover_automatic], at most the
    number of characters of the input, leave.  When the input holds no
    newline, as at end of file, [main] never returns: the loops
    [while (getchar () != '\n')] do not end. *)
Theorem main_outcome :
  forall (env : Env) (input : string) (s : State),
    (main env input s = never_returns
     \/ exists k rest,
          main env input s
          = returns (EXIT_SUCCESS,
                     {| stdin := rest;
                        net := run_calls env
                                 (repeat call_discover_automatic k) s |})
          /\ (k <= String.length input)%nat)
    /\ ((forall c, In c (list_ascii_of_string input) -> c <> "010"%char) ->
        main env input s = never_returns).
Proof.
  intros env input s. unfold main.
  change (negb (init_netmon =? 0)) with false. cbv iota. split.
  - destruct (main_loop_outcome env (S (String.length input))
                {| stdin := input; net := s |}) as [H|[k [rest [H Hk]]]].
    + cbn [stdin]. lia.
    + left. now rewrite H.
    + right. exists k, rest. rewrite H. split; [reflexivity|exact Hk].
  - intros Hnl. cbn [main_loop stdin].
    destruct (scanf_d input) as [choice rest] eqn:E.
    rewrite skip_line_none; [reflexivity|].
    intros c Hc. apply Hnl. apply scanf_d_chars. now rewrite E.
Qed.

Lemma main_loop_more_fuel (env : Env) (fuel : nat) :
  forall (fuel' : nat) (p q : session),
    main_loop env fuel p = returns q -> (fuel <= fuel')%nat ->
    main_loop env fuel' p = returns q.
Proof.
  induction fuel as [|fuel IH]; intros fuel' p q H Hle; [discriminate|].
  destruct fuel' as [|fuel']; [lia|].
  cbn [main_loop] in *.
  destruct (scanf_d (stdin p)) as [choice rest].
  destruct (skip_line rest) as [rest'|]; [|discriminate].
  destruct choice as [c|].
  - destruct (c =? 0); [exact H|]. apply IH; [exact H|lia].
  - apply IH; [exact H|lia].
Qed.

Lemma scanf_d_scan_int (s : string) (v : Z) (rest : string) :
  scan_int s = Some (v, rest) -> scanf_d s = (Some v, rest).
Proof.
  unfold scan_int, scanf_d. destruct (skip_space s) as [|c t].
  - cbn. discriminate.
  - rewrite sign_cases.
    destruct (c =? "-")%char.
    + destruct (starts_with_digit t); [|discriminate].
      destruct (digits 0 t). intros H. injection H as <- <-. reflexivity.
    + destruct (c =? "+")%char.
      * destruct (starts_with_digit t); [|discriminate].
        destruct (digits 0 t). intros H. injection H as <- <-. reflexivity.
      * destruct (starts_with_digit (String c t)); [|discriminate].
        destruct (digits 0 (String c t)). intros H. injection H as <- <-.
        reflexivity.
Qed.

(** X23: on the line 0, [main] returns [EXIT_SUCCESS] and leaves the
    discovery module alone; on a line with a number from 1 on, followed by
    one character for the prompt and by the line 0, it returns after one
    run of [discover_automatic] when the number is 1, and after none
    otherwise. *)
Theorem menu_choices :
  forall (env : Env) (choice : Z) (c : ascii) (rest : string) (s : State),
    1 <= choice < 2 ^ 31 ->
    let nl := String "010" "" in
    main env ("0" ++ nl ++ rest) s
    = returns (EXIT_SUCCESS, {| stdin := rest; net := s |})
    /\ main env (Printf.fmt_d choice ++ nl ++ String c ("0" ++ nl ++ rest)) s
       = returns (EXIT_SUCCESS,
                  {| stdin := rest;
                     net := if choice =? 1
                            then snd (discover_automatic env s)
                            else s |}).
Proof.
  intros env choice c rest s Hc nl. split; [reflexivity|].
  unfold main. change (negb (init_netmon =? 0)) with false. cbv iota.
  set (input := Printf.fmt_d choice ++ nl ++ String c ("0" ++ nl ++ rest)).
  assert (E : main_loop env 2 {| stdin := input; net := s |}
              = returns {| stdin := rest;
                           net := if choice =? 1
                                  then snd (discover_automatic env s)
                                  else s |}).
  { cbn [main_loop stdin net]. subst input.
    rewrite (scanf_d_scan_int _ choice
               (nl ++ String c ("0" ++ nl ++ rest)))
      by (apply scan_int_fmt_d; [lia|reflexivity]).
    cbn [append skip_line nl]. cbn [Ascii.eqb Bool.eqb].
    replace (choice =? 0) with false by (symmetry; apply Z.eqb_neq; lia).
    unfold handle_menu_choice, discover_automatic_menu, view_statistics,
      configure_devices, press_enter.
    destruct (choice =? 1).
    - cbn [stdin net]. destruct (discover_automatic env s) as [found s1].
      reflexivity.
    - destruct (choice =? 2); [reflexivity|].
      destruct (choice =? 3); reflexivity. }
  rewrite (main_loop_more_fuel env 2 _ _ _ E); [reflexivity|].
  subst input. rewrite !length_append. cbn [String.length]. lia.
Qed.

Lemma menu_choices_witness :
  let nl := String "010" "" in
  main Sample.env ("0" ++ nl ++ "") initial_state
  = returns (EXIT_SUCCESS, {| stdin := ""; net := initial_state |})
  /\ main Sample.env
       (Printf.fmt_d 1 ++ nl ++ String "010" ("0" ++ nl ++ ""))
       initial_state
     = returns (EXIT_SUCCESS,
                {| stdin := "";
                   net := if 1 =? 1
                          then snd (discover_automatic Sample.env
                                      initial_state)
                          else initial_state |}).
Proof.
  apply (menu_choices Sample.env 1 "010"%char "" initial_state).
  change (2 ^ 31) with 2147483648. lia.
Defined.

(** X24: [status_to_string] and [severity_to_string] give different names
    to different enumerators, and the name UNKNOWN to exactly the values
    that are not one of [DEVICE_STATUS_UP], [DEVICE_STATUS_DOWN],
    [DEVICE_STATUS_WARNING], respectively not one of the four alert
    levels. *)
Theorem enumerator_names :
  (forall a b,
      0 <= a <= 3 -> 0 <= b <= 3 ->
      status_to_string a = status_to_string b -> a = b)
  /\ (forall a b,
         0 <= a <= 3 -> 0 <= b <= 3 ->
         severity_to_string a = severity_to_string b -> a = b)
  /\ (forall a, status_to_string a = "UNKNOWN" <-> ~ 1 <= a <= 3)
  /\ (forall a, severity_to_string a = "UNKNOWN" <-> ~ 0 <= a <= 3).
Proof.
  assert (H4 : forall a, 0 <= a <= 3 -> a = 0 \/ a = 1 \/ a = 2 \/ a = 3)
    by (intros; lia).
  split; [|split; [|split]].
  - intros a b Ha Hb.
    destruct (H4 a Ha) as [Ea|[Ea|[Ea|Ea]]];
      destruct (H4 b Hb) as [Eb|[Eb|[Eb|Eb]]];
      subst a b; cbn; intros E; first [reflexivity | discriminate E].
  - intros a b Ha Hb.
    destruct (H4 a Ha) as [Ea|[Ea|[Ea|Ea]]];
      destruct (H4 b Hb) as [Eb|[Eb|[Eb|Eb]]];
      subst a b; cbn; intros E; first [reflexivity | discriminate E].
  - intros a. unfold status_to_string, DEVICE_STATUS_UP, DEVICE_STATUS_DOWN,
      DEVICE_STATUS_WARNING.
    destruct (Z.eqb_spec a 1); [split; [discriminate|lia]|].
    destruct (Z.eqb_spec a 2); [split; [discriminate|lia]|].
    destruct (Z.eqb_spec a 3); [split; [discriminate|lia]|].
    split; [lia|reflexivity].
  - intros a. unfold severity_to_string, ALERT_INFO, ALERT_WARNING,
      ALERT_ERROR, ALERT_CRITICAL.
    destruct (Z.eqb_spec a 0); [split; [discriminate|lia]|].
    destruct (Z.eqb_spec a 1); [split; [discriminate|lia]|].
    destruct (Z.eqb_spec a 2); [split; [discriminate|lia]|].
    destruct (Z.eqb_spec a 3); [split; [discriminate|lia]|].
    split; [lia|reflexivity].
Qed.

(** ** Routes, dotted quads and return values *)

Section Traceroute.

Variable env : Env.

Lemma traceroute_line_result (result : string) (gateways : list string)
  (s : State) :
  Forall stored_address gateways ->
  snd (traceroute_line result gateways s) = s
  /\ Forall stored_address (fst (traceroute_line result gateways s))
  /\ (List.length (fst (traceroute_line result gateways s))
      <= S (List.length gateways))%nat.
Proof.
  intros Hg. unfold traceroute_line.
  destruct (sscanf fmt_hop result) as [|[n|a] [|[m|ip] [|v l]]];
    try (cbn; repeat split; [assumption|lia]).
  destruct (validate_ip_string (Some ip) =? 0) eqn:E;
    [cbn; repeat split; [assumption|lia]|].
  cbn [ret fst snd]. split; [reflexivity|]. split.
  - apply Forall_app. split; [exact Hg|]. constructor; [|constructor].
    split.
    + apply valid_ip_true, valid_ip_bounded. unfold valid_ip. now rewrite E.
    + apply (take_length 15).
  - rewrite length_app. cbn. lia.
Qed.

Lemma traceroute_loop_result (lines : list string) :
  forall (gateways : list string) (s : State),
    Forall stored_address gateways ->
    (List.length gateways <= MAX_HOPS)%nat ->
    let r := for_each
               (fun gateways _ => (List.length gateways <? MAX_HOPS)%nat)
               traceroute_line lines gateways s in
    snd r = s
    /\ Forall stored_address (fst r)
    /\ (List.length (fst r) <= MAX_HOPS)%nat.
Proof.
  induction lines as [|l lines IH]; intros gateways s Hg Hl; cbv zeta;
    cbn [for_each]; [cbn; auto|].
  destruct (List.length gateways <? MAX_HOPS)%nat eqn:E; [|cbn; auto].
  apply Nat.ltb_lt in E.
  destruct (traceroute_line_result l gateways s Hg) as [H1 [H2 H3]].
  destruct (traceroute_line l gateways s) as [g' s']. cbn [fst snd] in *.
  subst s'. apply IH; [exact H2|lia].
Qed.

End Traceroute.

(** X25: [traceroute_discover] leaves the registry as it is; it stores at
    most [MAX_HOPS] gateways, each of which passes [validate_ip_string] and
    has at most 15 characters; it returns their number, or -1 with no
    gateway; and for a target that fails [validate_ip_string] it returns -1
    and runs no command. *)
Theorem traceroute_discover_result :
  forall (env : Env) (target_ip : string) (s : State),
    let r := traceroute_discover env target_ip s in
    let gateways := snd (fst r) in
    discovered_hosts (snd r) = discovered_hosts s
    /\ (List.length gateways <= MAX_HOPS)%nat
    /\ Forall stored_address gateways
    /\ ((fst (fst r) = -1 /\ gateways = [])
        \/ fst (fst r) = Z.of_nat (List.length gateways))
    /\ (validate_ip_string (Some target_ip) = 0 -> r = (-1, [], s)).
Proof.
  intros env target_ip s. cbv zeta. unfold traceroute_discover.
  destruct (validate_ip_string (Some target_ip) =? 0) eqn:Ev.
  - cbn. repeat split; auto. unfold MAX_HOPS. lia.
  - apply Z.eqb_neq in Ev. unfold bind, popen. cbn [fst snd].
    destruct (popen_stdout env (commands s) (traceroute_command target_ip))
      as [text|].
    + match goal with
      | |- context [for_each ?g ?b ?xs ?a ?st] =>
          pose proof (traceroute_loop_result xs a st (Forall_nil _)
                        (Nat.le_0_l _)) as H;
          destruct (for_each g b xs a st) as [gws s1]
      end.
      cbv zeta in H. cbn [fst snd ret] in H |- *. destruct H as [-> [H2 H3]].
      repeat split; auto. intros E. contradiction.
    + cbn [fst snd ret List.length discovered_hosts].
      repeat split; auto; [unfold MAX_HOPS; lia|]. intros E. contradiction.
Qed.

(** X26: [parse_ip] reads back the four numbers that [%d.%d.%d.%d] printed,
    whatever the array held before: for all non-negative [int] values, for
    the bytes that [inet_ntop] prints, and, for octets, through a buffer of
    [MAX_IP_LEN] characters; on the empty string it assigns nothing. *)
Theorem parse_ip_round_trip :
  forall (a b c d : Z) (octets : int4),
    0 <= a < 2 ^ 31 -> 0 <= b < 2 ^ 31 -> 0 <= c < 2 ^ 31 ->
    0 <= d < 2 ^ 31 ->
    parse_ip (Printf.dotted a b c d) octets = (a, b, c, d)
    /\ parse_ip (inet_ntop (a, b, c, d)) octets
       = (a mod 256, b mod 256, c mod 256, d mod 256)
    /\ (a <= 255 -> b <= 255 -> c <= 255 -> d <= 255 ->
        parse_ip (CStr.bounded MAX_IP_LEN (Printf.dotted a b c d)) octets
        = (a, b, c, d))
    /\ parse_ip "" octets = octets.
Proof.
  intros a b c d octets Ha Hb Hc Hd.
  split; [apply parse_ip_dotted; assumption|].
  split; [apply (parse_ip_inet_ntop (a, b, c, d))|]. split.
  - intros. rewrite dotted_fits by lia. apply parse_ip_dotted; assumption.
  - destruct octets as [[[o0 o1] o2] o3]. reflexivity.
Qed.

Lemma parse_ip_round_trip_witness :
  parse_ip (Printf.dotted 192 168 1 7) (0, 0, 0, 0) = (192, 168, 1, 7)
  /\ parse_ip (inet_ntop (192, 168, 1, 7)) (0, 0, 0, 0)
     = (192 mod 256, 168 mod 256, 1 mod 256, 7 mod 256)
  /\ (192 <= 255 -> 168 <= 255 -> 1 <= 255 -> 7 <= 255 ->
      parse_ip (CStr.bounded MAX_IP_LEN (Printf.dotted 192 168 1 7))
        (0, 0, 0, 0)
      = (192, 168, 1, 7))
  /\ parse_ip "" (0, 0, 0, 0) = (0, 0, 0, 0).
Proof.
  apply (parse_ip_round_trip 192 168 1 7 (0, 0, 0, 0));
    change (2 ^ 31) with 2147483648; lia.
Defined.

Lemma bind_eq {A B : Type} (m : M A) (f : A -> M B) (s : State) :
  bind m f s = f (fst (m s)) (snd (m s)).
Proof. unfold bind. destruct (m s). reflexivity. Qed.

Section Quick.

Variable env : Env.

Lemma probe_and_add_commands (ip : string) (s : State) :
  validate_ip_string (Some ip) = 1 ->
  commands (snd (probe_and_add env ip s))
  = (commands s ++ [ping_command ip])%list.
Proof.
  intros Hv. unfold probe_and_add. rewrite bind_snd.
  match goal with
  | |- commands (snd (?k (snd ?p))) = ?X =>
      assert (H : preserves (fun st => commands st = X) k)
  end.
  { apply preserves_when. intros _.
    apply add_host_commands, logged_on_commands. }
  apply H. apply ping_host_system_command, Hv.
Qed.

Lemma quick_commands (local_ip : string) (h : Z -> string) (l : list Z) :
  flat_map
    (fun t => if CStr.streq (h t) local_ip then [] else [ping_command (h t)])
    l
  = map ping_command
      (filter (fun ip => negb (CStr.streq ip local_ip)) (map h l)).
Proof.
  induction l as [|t l IH]; [reflexivity|].
  cbn [flat_map map filter].
  destruct (CStr.streq (h t) local_ip); cbn [negb app map]; now rewrite IH.
Qed.

End Quick.

(** X28: with a local address that passes [validate_ip_string] and a network
    address that [parse_ip] reads as [n0.n1.n2.n3] with [n0], [n1], [n2]
    octets, [discover_network_quick] pings 127.0.0.1, the local address,
    and then, in the order of its table of 23 last octets [t], the
    addresses [n0.n1.n2.t] that are not the local address, and runs no
    other command. *)
Theorem discover_network_quick_targets :
  forall (env : Env) (s : State) (local_ip network_addr netmask : string)
         (n0 n1 n2 n3 : Z),
    fst (get_local_network_info env s)
    = Some (local_ip, network_addr, netmask) ->
    validate_ip_string (Some local_ip) = 1 ->
    parse_ip network_addr (indet env) = (n0, n1, n2, n3) ->
    0 <= n0 <= 255 -> 0 <= n1 <= 255 -> 0 <= n2 <= 255 ->
    commands (snd (discover_network_quick env s))
    = (commands s
       ++ map ping_command
            ("127.0.0.1" :: local_ip
             :: filter (fun ip => negb (CStr.streq ip local_ip))
                  (map (fun t => Printf.dotted n0 n1 n2 t)
                     quick_targets)))%list.
Proof.
  intros env s local_ip network_addr netmask n0 n1 n2 n3 Hinfo Hl Hp
    H0 H1 H2.
  set (s0 := snd (reset_hosts s)).
  assert (Hinfo0 : get_local_network_info env s0
                   = (Some (local_ip, network_addr, netmask), s0)).
  { unfold get_local_network_info in *. cbn [fst] in Hinfo.
    subst s0. cbn [reset_hosts snd commands]. now rewrite Hinfo. }
  unfold discover_network_quick.
  change ((reset_hosts ;; ?k) s) with (k s0).
  rewrite bind_eq, Hinfo0. cbn [fst snd]. rewrite Hp.
  rewrite !bind_snd. unfold get_count. cbn [snd].
  set (s1 := snd (probe_and_add env "127.0.0.1" s0)).
  set (s2 := snd (probe_and_add env local_ip s1)).
  assert (E1 : commands s1
               = (commands s ++ [ping_command "127.0.0.1"])%list).
  { subst s1. rewrite probe_and_add_commands by reflexivity. reflexivity. }
  assert (E2 : commands s2
               = (commands s
                  ++ [ping_command "127.0.0.1"; ping_command local_ip])%list).
  { subst s2. rewrite probe_and_add_commands, E1, <- app_assoc by exact Hl.
    reflexivity. }
  assert (C2 : le_count 2 s2).
  { subst s2 s1. apply adds_one_probe_and_add, adds_one_probe_and_add.
    unfold le_count. cbn. lia. }
  rewrite for_each_has_room_all.
  - rewrite (for_each_trace commands
               (fun t =>
                  if CStr.streq (Printf.dotted n0 n1 n2 t) local_ip then []
                  else [ping_command (Printf.dotted n0 n1 n2 t)])).
    + rewrite E2, <- app_assoc.
      rewrite (quick_commands local_ip (fun t => Printf.dotted n0 n1 n2 t)).
      reflexivity.
    + intros t u st Ht.
      assert (Hr : 1 <= t <= 254).
      { unfold quick_targets in Ht. cbn [In] in Ht.
        repeat (destruct Ht as [<-|Ht]; [lia|]). contradiction. }
      rewrite dotted_fits by lia.
      destruct (CStr.streq _ _); [cbn; now rewrite app_nil_r|].
      apply probe_and_add_commands, dotted_valid;
        change (2 ^ 31) with 2147483648; lia.
  - intros t u. destruct (CStr.streq _ _);
      [apply adds_none_one, adds_none_ret|apply adds_one_probe_and_add].
  - unfold le_count in C2. unfold quick_targets, MAX_DISCOVERED_HOSTS.
    cbn [List.length]. lia.
Qed.

Lemma discover_network_quick_targets_witness :
  commands (snd (discover_network_quick Sample.env initial_state))
  = (commands initial_state
     ++ map ping_command
          ("127.0.0.1" :: "192.168.1.10"
           :: filter (fun ip => negb (CStr.streq ip "192.168.1.10"))
                (map (fun t => Printf.dotted 192 168 1 t)
                   quick_targets)))%list.
Proof.
  apply (discover_network_quick_targets Sample.env initial_state
           "192.168.1.10" "192.168.1.0" "255.255.255.0" 192 168 1 0);
    first [reflexivity | lia].
Defined.
